(** * Skill-assessment interview workflow: the bookkeeping around the model calls

    A shallow embedding of the Python sources
      - [ml/question_generator.py]   (skill parsing, per-skill question batches, scoring policy),
      - [ml/response_evaluator.py]   (evaluation adapter and its local fallback),
      - [services/interview_service.py] (service wrapper around the evaluator),
      - [api/interviews.py]          (plan storage, response submission, rating
                                      aggregation, results and card generation),
    followed by the properties of the specification, each proved or refuted
    on these definitions.

    Conventions.
      - Python [str] is [string]; the embedding covers ASCII text (other
        characters are neither blank nor cased).
      - Python [int] is [Z]; a [float] is the rational [Q] it denotes.
        Comparisons of floats are exact, their arithmetic is not: the sum
        and the quotient of floats and [round(x, n)] are rounded by the
        interpreter, so they enter as section variables ([mean], [round1])
        and every theorem holds whatever they return.  The sum and the
        quotient of integers are exact.
      - A value decoded from JSON whose type the code does not check (the
        score of an evaluation, a question of a batch) is a [json.value].
      - A Python [dict] keyed by skill names is a [gmap string _]; a JSON
        object with a fixed set of keys is a record whose optional keys are
        [option] fields.
      - A function that can raise returns a [result]; a function that writes
        to the database takes the tables and returns the new tables.
      - The language-model client, the JSON decoder, the regular
        expressions, the type conversions of SQLite and the file system
        around the card generator are collaborators: they are section
        variables, so every theorem holds for all of their behaviours. *)

From Stdlib Require Import QArith Qround Ascii Lqa.
From stdpp Require Import base gmap sets list strings pretty.

Set Warnings "-register-all,-clear-no-such-hyp".

(** ** Python built-ins used by the sources *)

Module py.

(** Exceptions that the modelled code can raise. *)
Inductive exn :=
| AttributeError (msg : string)
| KeyError (key : string)
| TypeError (msg : string)
| UnboundLocalError (name : string)
| IndexError (msg : string)
| HTTPException (status_code : Z) (detail : string)
| IntegrityError (msg : string)       (* [sqlite3.IntegrityError] *)
| ProgrammingError (msg : string)     (* [sqlite3.ProgrammingError] *)
| Exception (msg : string).           (* [raise Exception(msg)] *)

Inductive result (A : Type) :=
| Ok (a : A)
| Raise (e : exn).
Arguments Ok {A} a.
Arguments Raise {A} e.

(** [try: body  except Exception: handler]. *)
Definition try_except {A} (body : result A) (handler : exn → result A) : result A :=
  match body with
  | Ok a => Ok a
  | Raise e => handler e
  end.

(** [str.isspace] on one character: TAB..CR, FS..US and the blank. *)
Definition isspace (c : ascii) : bool :=
  let n := N_of_ascii c in
  ((9 <=? n)%N && (n <=? 13)%N) || ((28 <=? n)%N && (n <=? 32)%N).

Definition lower_char (c : ascii) : ascii :=
  let n := N_of_ascii c in
  if ((65 <=? n)%N && (n <=? 90)%N) then ascii_of_N (n + 32) else c.

(** [s.lower()] *)
Fixpoint lower (s : string) : string :=
  match s with
  | EmptyString => EmptyString
  | String c s' => String (lower_char c) (lower s')
  end.

Fixpoint lstrip (s : string) : string :=
  match s with
  | EmptyString => EmptyString
  | String c s' => if isspace c then lstrip s' else s
  end.

Fixpoint rstrip (s : string) : string :=
  match s with
  | EmptyString => EmptyString
  | String c s' =>
      match rstrip s' with
      | EmptyString => if isspace c then EmptyString else String c EmptyString
      | r => String c r
      end
  end.

(** [s.strip()] *)
Definition strip (s : string) : string := rstrip (lstrip s).

(** Truth value of a string: [bool(s)]. *)
Definition truthy (s : string) : bool :=
  match s with
  | EmptyString => false
  | String _ _ => true
  end.

(** Cut a string at every character satisfying [sep]; the pieces may be
    empty, and the empty string gives one empty piece. *)
Fixpoint split_at (sep : ascii → bool) (s : string) : list string :=
  match s with
  | EmptyString => [EmptyString]
  | String c s' =>
      if sep c then EmptyString :: split_at sep s'
      else match split_at sep s' with
           | w :: ws => String c w :: ws
           | [] => [String c EmptyString]
           end
  end.

(** [s.split(',')] *)
Definition split_comma (s : string) : list string :=
  split_at (λ c, bool_decide (c = ","%char)) s.

(** [s.split()]: maximal runs of non-blank characters. *)
Definition split (s : string) : list string :=
  filter (λ w, truthy w = true) (split_at isspace s).

(** [sep.join(l)] *)
Fixpoint join (sep : string) (l : list string) : string :=
  match l with
  | [] => EmptyString
  | [x] => x
  | x :: r => x +:+ sep +:+ join sep r
  end.

(** [l[:n]] for a possibly negative [n]. *)
Definition slice_to {A} (n : Z) (l : list A) : list A :=
  if (0 <=? n)%Z then take (Z.to_nat n) l
  else take (length l - Z.to_nat (- n)) l.

(** [sum(l)] and [sum(l) / len(l)] in exact arithmetic, as for integers. *)
Definition sum (l : list Q) : Q := foldl Qplus 0%Q l.
Definition mean (l : list Q) : Q := (sum l / inject_Z (Z.of_nat (length l)))%Q.

(** An operand of [sum] over values read from the database or from a
    decoded document: an [int], a [float], or a [str]. *)
Inductive operand :=
| Int (n : Z)
| Float (x : Q)
| Str (s : string).

(** [sum(l)] adds the operands from the left, starting from the integer
    0.  A text raises [TypeError]; its message names the type of the sum so
    far, which is [float] once a float has been added.  Without a text the
    numbers are handed on for the addition. *)
Fixpoint numbers_from (float_so_far : bool) (l : list operand) : result (list Q) :=
  match l with
  | [] => Ok []
  | Int n :: l =>
      match numbers_from float_so_far l with
      | Ok numbers => Ok (inject_Z n :: numbers)
      | Raise e => Raise e
      end
  | Float x :: l =>
      match numbers_from true l with
      | Ok numbers => Ok (x :: numbers)
      | Raise e => Raise e
      end
  | Str _ :: _ =>
      Raise (TypeError ("unsupported operand type(s) for +: '"
                          +:+ (if float_so_far then "float" else "int")
                          +:+ "' and 'str'"))
  end.

Definition numbers_of (l : list operand) : result (list Q) := numbers_from false l.

(** [round(x)] to the nearest integer, ties to the even one. *)
Definition round (x : Q) : Z :=
  let f := Qfloor x in
  let d := (x - inject_Z f)%Q in
  match (d ?= 1 # 2)%Q with
  | Lt => f
  | Gt => (f + 1)%Z
  | Eq => if Z.even f then f else (f + 1)%Z
  end.

(** [round(x, digits)] *)
Definition round_digits (digits : nat) (x : Q) : Q :=
  (inject_Z (round (x * inject_Z (10 ^ Z.of_nat digits))) / inject_Z (10 ^ Z.of_nat digits))%Q.

(** [max(l, key=key)] and [min(l, key=key)]: the first element whose key
    is largest (smallest); [None] stands for the empty argument. *)
Definition max_by {A} (key : A → Q) (l : list A) : option A :=
  match l with
  | [] => None
  | x :: l => Some (foldl (λ best y, if Qle_bool (key y) (key best) then best else y) x l)
  end.
Definition min_by {A} (key : A → Q) (l : list A) : option A :=
  match l with
  | [] => None
  | x :: l => Some (foldl (λ best y, if Qle_bool (key best) (key y) then best else y) x l)
  end.

(** [c.isalnum()] on one ASCII character. *)
Definition isalnum (c : ascii) : bool :=
  let n := N_of_ascii c in
  ((48 <=? n)%N && (n <=? 57)%N) || ((65 <=? n)%N && (n <=? 90)%N)
  || ((97 <=? n)%N && (n <=? 122)%N).

(** ["".join(c for c in s if keep(c))] *)
Fixpoint keep (f : ascii → bool) (s : string) : string :=
  match s with
  | EmptyString => EmptyString
  | String c s' => if f c then String c (keep f s') else keep f s'
  end.

(** [s.replace(old, new)] for a one-character [old]. *)
Fixpoint replace_char (old : ascii) (new : string) (s : string) : string :=
  match s with
  | EmptyString => EmptyString
  | String c s' =>
      (if Ascii.eqb c old then new else String c EmptyString) +:+ replace_char old new s'
  end.

(** [s.startswith(p)] and [p in s]. *)
Fixpoint startswith (p s : string) : bool :=
  match p, s with
  | EmptyString, _ => true
  | String a p', String b s' => Ascii.eqb a b && startswith p' s'
  | String _ _, EmptyString => false
  end.

Fixpoint contains (p s : string) : bool :=
  startswith p s ||
  match s with
  | EmptyString => false
  | String _ s' => contains p s'
  end.

End py.
Export py (result, Ok, Raise, exn).

(** The comprehension
    [[skill.strip() for skill in skills.split(',') if skill.strip()]]
    of [parse_skills] and of [generate_skill_based_questions]. *)
Definition stripped_items (skills : string) : list string :=
  filter (λ skill, py.truthy skill = true) (py.strip <$> py.split_comma skills).

(** ** [llm/groq_client.py]: what [GroqClient.generate_response] returns

    The client catches every exception of the HTTP call and returns a
    dictionary: [{"error": msg}] on any failure, the decoded body
    otherwise.  The callers read two things from it: whether the key
    ["error"] is present, and [response["choices"][0]["message"]["content"]].
    Which reply comes back for which prompt is left to the oracles of the
    sections below. *)

Module groq_client.

Inductive response :=
| Error (msg : string)        (* a dictionary with the key "error" *)
| Content (content : string)  (* a body whose first choice has this content *)
| OtherBody.                  (* any other body: reading the content raises *)

End groq_client.

(** A value decoded from JSON, as far as the code can tell its kinds
    apart: [null], a number ([true] and [false] act as 1 and 0 wherever a
    number is used), a text, a list or an object. *)
Module json.
Inductive value :=
| Null
| Number (x : Q)
| String (s : string)
| Array
| Object.
End json.

(** What [json.loads] makes of a text, seen from a caller that expects a
    document of shape [A]. *)
Inductive json_doc (A : Type) :=
| JSONDecodeError            (* not JSON *)
| OtherJSON                  (* JSON, of another shape *)
| Doc (a : A).
Arguments JSONDecodeError {A}.
Arguments OtherJSON {A}.
Arguments Doc {A} a.

(** ** [ml/question_generator.py] *)

Module question_generator.

(** A question dictionary
    [{"question", "skill", "question_type", "skill_index"}].  The question
    is a text when the module made it; taken from a decoded list it is
    whatever the list holds. *)
Record question_data := {
  question : json.value;
  skill : string;
  question_type : string;
  skill_index : Z;
}.

(** [parse_skills]: the loop body over [(seen, unique_skills)]. *)
Definition parse_skills_step (st : gset string * list string) (skill : string)
    : gset string * list string :=
  let '(seen, unique_skills) := st in
  if decide (py.lower skill ∈ seen) then (seen, unique_skills)
  else ({[py.lower skill]} ∪ seen, unique_skills ++ [skill]).

Definition parse_skills (skills_input : string) : list string :=
  if negb (py.truthy skills_input) then ["general skills"]
  else
    let skills := stripped_items skills_input in
    (foldl parse_skills_step (∅, []) skills).2.

Definition fallback_questions (skill : string) : list string :=
  [ "How would you rate your proficiency in " +:+ skill +:+ " and why?";
    "Describe a challenging situation where you had to use your " +:+ skill +:+ " skills.";
    "What are the most important aspects to consider when applying " +:+ skill +:+ "?";
    "How do you stay updated with best practices in " +:+ skill +:+ "?";
    "Tell me about a project where " +:+ skill +:+ " was crucial to success." ].

(** [_fallback_skill_questions]: [for i in range(questions_per_skill)]. *)
Definition _fallback_skill_questions (skill : string) (questions_per_skill : Z)
    : list question_data :=
  (λ i : nat,
     {| question := json.String
                      (default "" (fallback_questions skill
                                     !! (i mod length (fallback_questions skill))));
        skill := skill;
        question_type := "skill_specific";
        skill_index := Z.of_nat i + 1 |})
  <$> seq 0 (Z.to_nat questions_per_skill).

(** The loop [for i, question in enumerate(questions[:questions_per_skill])]
    that occurs three times in [generate_skill_specific_questions]. *)
Definition skill_questions_of (skill : string) (questions_per_skill : Z)
    (questions : list json.value) : list question_data :=
  imap (λ i question,
          {| question := question;
             skill := skill;
             question_type := "skill_specific";
             skill_index := Z.of_nat i + 1 |})
       (py.slice_to questions_per_skill questions).

(** [len(questions) >= questions_per_skill] *)
Definition enough {A} (questions_per_skill : Z) (questions : list A) : bool :=
  (questions_per_skill <=? Z.of_nat (length questions))%Z.

Section generator.
(** [self.groq_client.generate_response(skill_prompt, temperature=0.7)]:
    the prompt is built from the skill, the job description and the
    count. *)
Variable generate_response : string → string → Z → groq_client.response.
(** [json.loads] of a text expected to hold a list of questions; the
    elements of the list are not inspected. *)
Variable json_loads : string → json_doc (list json.value).
(** The first fenced block of a text, as the regular expression
    [```(?:json)?\n(.*?)\n```] finds it. *)
Variable fenced_block : string → option string.
(** The bulleted or numbered lines of a text that hold a question mark,
    without their bullet. *)
Variable listed_questions : string → list string.

Definition generate_skill_specific_questions
    (skill job_description : string) (questions_per_skill : Z)
    : list question_data :=
  let fallback := _fallback_skill_questions skill questions_per_skill in
  match generate_response skill job_description questions_per_skill with
  | groq_client.Error _ => fallback
  | groq_client.OtherBody => fallback       (* the lookup raises, [except Exception] *)
  | groq_client.Content content =>
      match json_loads content with
      | Doc questions =>
          if enough questions_per_skill questions
          then skill_questions_of skill questions_per_skill questions
          else fallback
      | OtherJSON => fallback
      | JSONDecodeError =>
          let from_block :=
            match fenced_block content with
            | Some inner =>
                match json_loads inner with
                | Doc questions =>
                    if enough questions_per_skill questions
                    then Some (skill_questions_of skill questions_per_skill questions)
                    else None
                | _ => None
                end
            | None => None
            end in
          match from_block with
          | Some skill_questions => skill_questions
          | None =>
              let questions := listed_questions content in
              if enough questions_per_skill questions
              then skill_questions_of skill questions_per_skill (json.String <$> questions)
              else fallback
          end
      end
  end.
End generator.

(** The scoring policy of this module. *)
Definition _convert_score_to_stars (score : Q) : Z :=
  if Qle_bool 9 score then 5
  else if Qle_bool 7 score then 4
  else if Qle_bool 5 score then 3
  else if Qle_bool 3 score then 2
  else 1.

Definition _determine_proficiency_level (score : Q) : string :=
  if Qle_bool 9 score then "Expert"
  else if Qle_bool 7 score then "Advanced"
  else if Qle_bool 5 score then "Intermediate"
  else if Qle_bool 3 score then "Beginner"
  else "Novice".

(** An entry of ["skills_metadata"]. *)
Record skill_metadata := {
  question_count : nat;
  question_indices : list nat;
}.

(** The dictionary returned by [generate_questions_for_skills_assessment]. *)
Record skills_assessment := {
  questions : list question_data;
  skills_metadata : gmap string skill_metadata;
  total_questions : nat;
  skills_assessed : list string;
  questions_per_skill : Z;
}.

Section assessment.
Variable generate_response : string → string → Z → groq_client.response.
Variable json_loads : string → json_doc (list json.value).
Variable fenced_block : string → option string.
Variable listed_questions : string → list string.

(** One round of the loop [for skill in skills]. *)
Definition assessment_step (job_description : string) (count : Z)
    (st : list question_data * gmap string skill_metadata) (skill : string)
    : list question_data * gmap string skill_metadata :=
  let '(all_questions, metadata) := st in
  let skill_questions :=
    generate_skill_specific_questions generate_response json_loads fenced_block
      listed_questions skill job_description count in
  let all_questions := all_questions ++ skill_questions in
  (all_questions,
   <[skill := {| question_count := length skill_questions;
                 (* [list(range(len(all_questions) - len(skill_questions),
                                len(all_questions)))] *)
                 question_indices :=
                   seq (length all_questions - length skill_questions)
                       (length all_questions
                        - (length all_questions - length skill_questions)) |}]>
     metadata).

Definition generate_questions_for_skills_assessment
    (skills_input job_description : string) (count : Z) : skills_assessment :=
  let skills := parse_skills skills_input in
  let '(all_questions, metadata) :=
    foldl (assessment_step job_description count) ([], ∅) skills in
  {| questions := all_questions;
     skills_metadata := metadata;
     total_questions := length all_questions;
     skills_assessed := skills;
     questions_per_skill := count |}.

(** The value of ["skills"] in a resume dictionary: a list of names, a
    text, anything else, or no such key. *)
Inductive resume_skills :=
| SkillList (names : list string)
| SkillText (text : string)
| OtherSkills
| NoSkills.

(** [_extract_skills_from_resume] *)
Definition _extract_skills_from_resume (resume_data : resume_skills) : string :=
  let skills :=
    match resume_data with
    | SkillList names => names
    | SkillText text => py.strip <$> py.split_comma text
    | OtherSkills | NoSkills => []
    end in
  match skills with
  | [] => "general skills"
  | _ => py.join ", " skills
  end.

(** [generate_technical_questions], a legacy entry point: one question
    per skill of the resume, cut to [num_questions]. *)
Definition generate_technical_questions (resume_data : resume_skills)
    (job_description : string) (num_questions : Z) : list json.value :=
  let skills_input := _extract_skills_from_resume resume_data in
  let result := generate_questions_for_skills_assessment skills_input job_description 1 in
  question <$> py.slice_to num_questions (questions result).
End assessment.

End question_generator.

(** ** [ml/response_evaluator.py] *)

Module response_evaluator.

(** An evaluation dictionary.  Every key may be absent; a present
    ["score"] is whatever the decoded reply holds under that key. *)
Record evaluation := {
  score : option json.value;
  strengths : option (list string);
  weaknesses : option (list string);
  feedback : option string;
  error : option string;
  raw_llm_response : option string;
  assessed_skill : option string;
  skill_specific : option bool;
}.

(** The empty dictionary [{}]. *)
Definition empty : evaluation :=
  {| score := None; strengths := None; weaknesses := None; feedback := None;
     error := None; raw_llm_response := None; assessed_skill := None;
     skill_specific := None |}.

(** The local variable [response] of [evaluate_response]: it enters as the
    candidate's text and is rebound to the client's reply. *)
Inductive response_var :=
| Text (s : string)
| Reply (r : groq_client.response).

(** [_default_evaluation]: its first statement is [response.split()]. *)
Definition _default_evaluation (question : string) (response : response_var)
    (raw_llm_response : string) : result evaluation :=
  match response with
  | Reply _ => Raise (py.AttributeError "'dict' object has no attribute 'split'")
  | Text response =>
      let response_len := length (py.split response) in
      let score : Q :=
        if response_len <? 10 then 2%Q
        else if response_len <? 25 then 4%Q
        else if response_len <? 50 then 6%Q
        else if response_len <? 100 then 7%Q
        else 8%Q in
      Ok {| score := Some (json.Number score);
            strengths := Some ["Response provided"];
            weaknesses := Some ["Unable to perform detailed analysis"];
            feedback := Some "The system was unable to perform a detailed analysis of this response. Basic evaluation provided based on response length and structure.";
            error := Some "LLM evaluation failed";
            raw_llm_response := Some raw_llm_response;
            assessed_skill := None;
            skill_specific := None |}
  end.

(** "Ensure required fields are present". *)
Definition with_required_fields (r : evaluation) : evaluation :=
  {| score := Some (default (json.Number 5) (score r));
     strengths := Some (default [] (strengths r));
     weaknesses := Some (default [] (weaknesses r));
     feedback := Some (default "No detailed feedback available." (feedback r));
     error := error r;
     raw_llm_response := raw_llm_response r;
     assessed_skill := assessed_skill r;
     skill_specific := skill_specific r |}.

Section evaluator.
(** [self.groq_client.generate_response(prompt, temperature=0.3)]: the
    prompt is built from the question type, the job description, the
    question and the response. *)
Variable generate_response : string → string → string → string → groq_client.response.
(** [json.loads] of a text expected to hold an evaluation object. *)
Variable json_loads : string → json_doc evaluation.
Variable fenced_block : string → option string.

(** The body of the [try] block, after [response] has been rebound. *)
Definition evaluate_response_try (question : string) (response : response_var)
    (reply : groq_client.response) : result evaluation :=
  match reply with
  | groq_client.Error _ => _default_evaluation question response ""
  | groq_client.OtherBody => Raise (py.KeyError "choices")
  | groq_client.Content content =>
      match json_loads content with
      | Doc r => Ok (with_required_fields r)
      | OtherJSON => Raise (py.TypeError "not a dictionary")
      | JSONDecodeError =>
          let from_block :=
            match fenced_block content with
            | Some inner =>
                match json_loads inner with
                | Doc r => Some (with_required_fields r)
                | _ => None                      (* bare [except: pass] *)
                end
            | None => None
            end in
          match from_block with
          | Some r => Ok r
          | None =>
              (* [logger.error(f"... {str(e)}")]: [e] is a local of the
                 function that no handler has bound yet *)
              Raise (py.UnboundLocalError "e")
          end
      end
  end.

Definition evaluate_response (question response job_description question_type : string)
    : result evaluation :=
  let reply := generate_response question_type job_description question response in
  let response := Reply reply in
  py.try_except (evaluate_response_try question response reply)
                (λ e, _default_evaluation question response "").
End evaluator.

(** An element of [question_responses]: each key may be absent. *)
Record question_response := {
  item_question : option string;
  item_response : option string;
  item_type : option string;
}.

(** An element of the list returned by [evaluate_multiple_responses]. *)
Record evaluated_response := {
  evaluated_question : string;
  evaluated_text : string;
  evaluated_type : string;
  evaluated : evaluation;
}.

Section batch.
Variable generate_response : string → string → string → string → groq_client.response.
Variable json_loads : string → json_doc evaluation.
Variable fenced_block : string → option string.

(** One round of the loop [for item in question_responses]; an exception
    of [evaluate_response] ends the loop and the call. *)
Definition evaluate_item (job_description : string)
    (results : result (list evaluated_response)) (item : question_response)
    : result (list evaluated_response) :=
  match results with
  | Raise e => Raise e
  | Ok results =>
      let question := default "" (item_question item) in
      let response := default "" (item_response item) in
      let question_type := default "general" (item_type item) in
      match evaluate_response generate_response json_loads fenced_block
              question response job_description question_type with
      | Raise e => Raise e
      | Ok evaluation =>
          Ok (results ++ [ {| evaluated_question := question;
                              evaluated_text := response;
                              evaluated_type := question_type;
                              evaluated := evaluation |} ])
      end
  end.

Definition evaluate_multiple_responses (question_responses : list question_response)
    (job_description : string) : result (list evaluated_response) :=
  foldl (evaluate_item job_description) (Ok []) question_responses.
End batch.

End response_evaluator.

(** ** [ml/question_generator.py], continued: the rating methods

    They read the evaluation dictionaries of the evaluator.  A dictionary
    that is iterated (the skills of [skills_metadata], the entries of
    ["individual_skills"]) is the list of its items in insertion order; its
    keys are distinct. *)

Module rating_methods.
Import question_generator.

(** An element of [evaluations]: the keys ["skill"] and ["evaluation"] may
    be absent. *)
Record evaluation_item := {
  item_skill : option string;
  item_evaluation : option response_evaluator.evaluation;
}.

(** An entry of ["individual_skills"]. *)
Record individual_skill := {
  average_score : Q;
  star_rating : Z;
  proficiency_level : string;
  questions_answered : nat;
  individual_scores : list Q;
  feedback : list string;
  skill_summary : string;
}.

Record overall_rating := {
  overall_average_score : Q;
  overall_star_rating : Z;
  overall_proficiency_level : string;
  skills_count : nat;
}.

Record assessment_summary := {
  total_skills_assessed : nat;
  highest_rated_skill : option string;
  lowest_rated_skill : option string;
  skills_by_proficiency : list (string * list string);
}.

(** The dictionary returned by [calculate_individual_skill_ratings]. *)
Record individual_skill_ratings := {
  individual_skills : list (string * individual_skill);
  overall : overall_rating;
  summary : assessment_summary;
}.

(** One round of the loop [for eval_data in evaluations]: the item counts
    for [skill] when it is tagged with it and its evaluation has a score;
    its score (of whatever kind) and its evaluation are appended. *)
Definition scored_item (skill : string) (eval_data : evaluation_item)
    : option (json.value * response_evaluator.evaluation) :=
  if decide (item_skill eval_data = Some skill) then
    evaluation ← item_evaluation eval_data;
    score ← response_evaluator.score evaluation;
    Some (score, evaluation)
  else None.

(** [zip(skill_scores, skill_evaluations)] after the loop. *)
Definition skill_evaluations (skill : string) (evaluations : list evaluation_item)
    : list (json.value * response_evaluator.evaluation) :=
  omap (scored_item skill) evaluations.

(** The number a score stands for in a sum, if it is one. *)
Definition number_of (score : json.value) : option Q :=
  match score with
  | json.Number x => Some x
  | _ => None
  end.

(** [_group_skills_by_proficiency]: the six groups in their fixed order,
    each skill appended to the group of its level, empty groups removed. *)
Definition proficiency_groups : list (string * list string) :=
  [ ("Expert", []); ("Advanced", []); ("Intermediate", []); ("Beginner", []);
    ("Novice", []); ("Not Assessed", []) ].

Definition group_step (groups : result (list (string * list string)))
    (entry : string * individual_skill) : result (list (string * list string)) :=
  match groups with
  | Raise e => Raise e
  | Ok groups =>
      let proficiency := proficiency_level entry.2 in
      if decide (proficiency ∈ groups.*1) then
        Ok ((λ group : string * list string,
               if decide (group.1 = proficiency) then (group.1, group.2 ++ [entry.1])
               else group) <$> groups)
      else Raise (py.KeyError proficiency)
  end.

Definition _group_skills_by_proficiency (skill_ratings : list (string * individual_skill))
    : result (list (string * list string)) :=
  match foldl group_step (Ok proficiency_groups) skill_ratings with
  | Raise e => Raise e
  | Ok groups => Ok (filter (λ group : string * list string, group.2 ≠ []) groups)
  end.

Section ratings.
(** The message of the [TypeError] that [sum] raises on a score that is
    not a number: it names the type of the partial sum ([int] or [float]),
    which a rational does not record, and the type of the score. *)
Variable operand_error : list json.value → string.
(** Float arithmetic: [sum(l) / len(l)] and [round(x, 2)]. *)
Variable mean : list Q → Q.
Variable round2 : Q → Q.

(** The body of the loop [for skill, metadata in skills_metadata.items()]
    up to the entry it stores; the metadata is not read. *)
Definition rate_skill (skill : string) (evaluations : list evaluation_item)
    : result individual_skill :=
  let scored := skill_evaluations skill evaluations in
  let skill_scores := scored.*1 in
  match skill_scores with
  | [] =>
      Ok {| average_score := 0;
            star_rating := 1;
            proficiency_level := "Not Assessed";
            questions_answered := 0;
            individual_scores := [];
            feedback := [];
            skill_summary := skill +:+ ": Not assessed" |}
  | _ =>
      match mapM number_of skill_scores with
      | None => Raise (py.TypeError (operand_error skill_scores))
      | Some numbers =>
          let avg_score := mean numbers in
          let star_rating := _convert_score_to_stars avg_score in
          let proficiency_level := _determine_proficiency_level avg_score in
          let skill_feedback :=
            filter (λ feedback, py.truthy feedback = true)
                   ((λ eval_data : json.value * response_evaluator.evaluation,
                       default "" (response_evaluator.feedback eval_data.2)) <$> scored) in
          Ok {| average_score := round2 avg_score;
                star_rating := star_rating;
                proficiency_level := proficiency_level;
                questions_answered := length skill_scores;
                individual_scores := numbers;
                feedback := skill_feedback;
                skill_summary :=
                  skill +:+ ": " +:+ pretty star_rating +:+ "/5 stars ("
                    +:+ proficiency_level +:+ ")" |}
      end
  end.

Definition rate_step (evaluations : list evaluation_item)
    (skill_ratings : result (list (string * individual_skill)))
    (entry : string * skill_metadata) : result (list (string * individual_skill)) :=
  match skill_ratings with
  | Raise e => Raise e
  | Ok skill_ratings =>
      match rate_skill entry.1 evaluations with
      | Raise e => Raise e
      | Ok data => Ok (skill_ratings ++ [(entry.1, data)])
      end
  end.

Definition calculate_individual_skill_ratings (evaluations : list evaluation_item)
    (skills_metadata : list (string * skill_metadata)) : result individual_skill_ratings :=
  match foldl (rate_step evaluations) (Ok []) skills_metadata with
  | Raise e => Raise e
  | Ok skill_ratings =>
      let all_skill_scores :=
        filter (λ score, Qle_bool score 0 = false) (average_score <$> skill_ratings.*2) in
      let overall_score :=
        match all_skill_scores with
        | [] => 0%Q
        | _ => mean all_skill_scores
        end in
      let overall_stars := _convert_score_to_stars overall_score in
      let overall_proficiency := _determine_proficiency_level overall_score in
      match _group_skills_by_proficiency skill_ratings with
      | Raise e => Raise e
      | Ok groups =>
          Ok {| individual_skills := skill_ratings;
                overall :=
                  {| overall_average_score := round2 overall_score;
                     overall_star_rating := overall_stars;
                     overall_proficiency_level := overall_proficiency;
                     skills_count := length skill_ratings |};
                summary :=
                  {| total_skills_assessed :=
                       length (filter (λ s, 0 < questions_answered s) skill_ratings.*2);
                     highest_rated_skill :=
                       fst <$> py.max_by (λ x : string * individual_skill, average_score x.2)
                                 skill_ratings;
                     lowest_rated_skill :=
                       fst <$> py.min_by (λ x : string * individual_skill, average_score x.2)
                                 skill_ratings;
                     skills_by_proficiency := groups |} |}
      end
  end.
End ratings.

End rating_methods.

(** ** [services/interview_service.py] *)

Module interview_service.
Import response_evaluator.

(** The dictionary returned by [evaluate_skill_response]. *)
Record skill_evaluation := {
  success : bool;
  evaluation : option response_evaluator.evaluation;
  skill : option string;
  service_error : option string;
}.

Definition skill_context (skill : string) : string :=
  "This question specifically assesses the skill: " +:+ skill +:+ ". " +:+
  "Evaluate how well the response demonstrates knowledge and proficiency in " +:+ skill +:+ ".".

(** [str(e)] *)
Definition str_of_exn (e : exn) : string :=
  match e with
  | py.AttributeError msg => msg
  | py.KeyError key => "'" +:+ key +:+ "'"
  | py.TypeError msg => msg
  | py.UnboundLocalError name =>
      "cannot access local variable '" +:+ name +:+ "' where it is not associated with a value"
  | py.IndexError msg => msg
  | py.HTTPException _ detail => detail
  | py.IntegrityError msg => msg
  | py.ProgrammingError msg => msg
  | py.Exception msg => msg
  end.

Section service.
Variable generate_response : string → string → string → string → groq_client.response.
Variable json_loads : string → json_doc response_evaluator.evaluation.
Variable fenced_block : string → option string.

Definition evaluate_skill_response (question response skill question_type : string)
    : skill_evaluation :=
  match evaluate_response generate_response json_loads fenced_block
          question response (skill_context skill) question_type with
  | Ok evaluation =>
      {| success := true;
         evaluation :=
           Some {| score := score evaluation;
                   strengths := strengths evaluation;
                   weaknesses := weaknesses evaluation;
                   feedback := feedback evaluation;
                   error := error evaluation;
                   raw_llm_response := raw_llm_response evaluation;
                   assessed_skill := Some skill;
                   skill_specific := Some true |};
         skill := Some skill;
         service_error := None |}
  | Raise e =>
      {| success := false;
         evaluation :=
           Some {| score := Some (json.Number 5);
                   strengths := None;
                   weaknesses := None;
                   feedback := Some ("Unable to evaluate response for " +:+ skill +:+ " due to technical error.");
                   error := None;
                   raw_llm_response := None;
                   assessed_skill := Some skill;
                   skill_specific := Some true |};
         skill := None;
         service_error := Some (str_of_exn e) |}
  end.
End service.

(** The dictionaries added by [calculate_skill_based_ratings]. *)
Record assessment_details := {
  total_skills_defined : nat;
  skills_actually_assessed : nat;
  assessment_completion : string;
  skill_summary_lines : list string;
}.

Module recommendations.
Record t := {
  strengths : list string;
  improvement_areas : list string;
  focus_suggestions : list string;
}.
End recommendations.

(** What [calculate_skill_based_ratings] returns: the ratings with the two
    added keys, or the dictionary of its handler. *)
Inductive skill_based_ratings :=
| Rated (skill_ratings : rating_methods.individual_skill_ratings)
        (details : assessment_details) (recommended : recommendations.t)
| RatingError (individual_skills : list (string * rating_methods.individual_skill))
              (average_score : Q) (star_rating : Z) (proficiency_level : string)
              (error : string).

(** One round of the loop of [_generate_skill_recommendations]. *)
Definition recommendation_step (r : recommendations.t)
    (entry : string * rating_methods.individual_skill) : recommendations.t :=
  let '(skill, data) := entry in
  let star_rating := rating_methods.star_rating data in
  let r :=
    if (4 <=? star_rating)%Z then
      {| recommendations.strengths :=
           recommendations.strengths r ++
           ["Strong proficiency in " +:+ skill +:+ " (" +:+ pretty star_rating +:+ "/5 stars)"];
         recommendations.improvement_areas := recommendations.improvement_areas r;
         recommendations.focus_suggestions := recommendations.focus_suggestions r |}
    else if (star_rating <=? 2)%Z then
      {| recommendations.strengths := recommendations.strengths r;
         recommendations.improvement_areas :=
           recommendations.improvement_areas r ++
           [skill +:+ " needs development (" +:+ pretty star_rating +:+ "/5 stars)"];
         recommendations.focus_suggestions := recommendations.focus_suggestions r |}
    else r in
  let suggest (line : string) :=
    {| recommendations.strengths := recommendations.strengths r;
       recommendations.improvement_areas := recommendations.improvement_areas r;
       recommendations.focus_suggestions := recommendations.focus_suggestions r ++ [line] |} in
  let proficiency_level := rating_methods.proficiency_level data in
  if decide (proficiency_level = "Expert") then
    suggest ("Consider mentoring others in " +:+ skill)
  else if decide (proficiency_level = "Beginner") then
    suggest ("Invest time in foundational learning for " +:+ skill)
  else if decide (proficiency_level = "Intermediate") then
    suggest ("Practice advanced applications of " +:+ skill)
  else r.

Definition _generate_skill_recommendations
    (individual_skills : list (string * rating_methods.individual_skill))
    : recommendations.t :=
  foldl recommendation_step
    {| recommendations.strengths := []; recommendations.improvement_areas := [];
       recommendations.focus_suggestions := [] |}
    individual_skills.

Section rating_service.
Variable operand_error : list json.value → string.
Variable mean : list Q → Q.
Variable round2 : Q → Q.

Definition calculate_skill_based_ratings
    (evaluations : list rating_methods.evaluation_item)
    (skills_metadata : list (string * question_generator.skill_metadata))
    : skill_based_ratings :=
  match rating_methods.calculate_individual_skill_ratings operand_error mean round2
          evaluations skills_metadata with
  | Ok skill_ratings =>
      let individual_skills := rating_methods.individual_skills skill_ratings in
      let total_skills := length individual_skills in
      let assessed_skills :=
        length (filter (λ s, 0 < rating_methods.questions_answered s) individual_skills.*2) in
      let skill_summary :=
        (λ '(skill, data),
           skill +:+ ": " +:+ pretty (rating_methods.star_rating data) +:+ "/5 stars ("
             +:+ rating_methods.proficiency_level data +:+ ")") <$> individual_skills in
      Rated skill_ratings
        {| total_skills_defined := total_skills;
           skills_actually_assessed := assessed_skills;
           assessment_completion := pretty assessed_skills +:+ "/" +:+ pretty total_skills;
           skill_summary_lines := skill_summary |}
        (_generate_skill_recommendations individual_skills)
  | Raise e =>
      RatingError [] 0 1 "Error in Assessment" (str_of_exn e)
  end.
End rating_service.

End interview_service.

(** ** [database.py]: the two tables

    Each [execute_sql] call commits on its own, so a request is a sequence
    of reads and writes on the tables, and what was written before a
    failure stays written. *)

Module database.

(** An entry of ["skill_question_map"]. *)
Record skill_block := {
  start_index : nat;
  end_index : nat;
  question_count : Z;
  questions_completed : Z;
}.

(** An entry of ["skill_ratings"]. *)
Record skill_rating := {
  star_rating : Z;
  average_score : Q;
  completed_at : string;
}.

(** The card dictionaries written by [auto_generate_skill_cards]. *)
Record card := {
  skill_name : string;
  card_star_rating : Z;
  rarity : string;
  description : string;
  file_path : string;
  prompt_used : string;
}.

Record card_mapping := {
  mapping_generated_at : string;
  mapping_interview_id : Z;
  total_cards : nat;
  cards : gmap string card;
}.

Record generated_card := {
  generated_skill : string;
  generated_star_rating : Z;
  generated_rarity : string;
  generated_file_path : string;
  file_name : string;
  skill_description : string;
}.

Record failed_card := {
  failed_skill : string;
  failed_star_rating : Z;
  failed_error : string;
}.

Record manual_results := {
  success_count : nat;
  failure_count : nat;
  total_skills : nat;
  generated_cards : list generated_card;
  failed_cards : list failed_card;
  cards_directory : string;
  mapping_file : string;
  results_interview_id : Z;
}.

(** The ["card_generation"] block of the interview metadata. *)
Record card_generation_block := {
  generated_at : string;
  results : manual_results;
  mapping_file_content : card_mapping;
}.

(** The JSON document kept in [interviews.feedback]: each section is a key
    that may be absent. *)
Record metadata := {
  skills_assessed : option (list string);
  questions_per_skill : option Z;
  skill_question_map : option (gmap string skill_block);
  total_questions : option nat;
  skill_ratings : option (gmap string skill_rating);
  card_generation : option card_generation_block;
}.

(** [{}] *)
Definition no_metadata : metadata :=
  {| skills_assessed := None; questions_per_skill := None;
     skill_question_map := None; total_questions := None;
     skill_ratings := None; card_generation := None |}.

(** The column [interviews.feedback]: NULL, a text that is not JSON (the
    error message of a failed plan generation), or a metadata document. *)
Inductive feedback_cell :=
| Null
| Text (s : string)
| Json (m : metadata).

(** [feedback_data = {}] followed by the guarded [json.loads]. *)
Definition loads_feedback (c : feedback_cell) : metadata :=
  match c with
  | Json m => m
  | Null | Text _ => no_metadata
  end.

Module interview.
Record row := {
  id : Z;
  candidate_name : string;
  skill_area : string;
  status : string;
  feedback : feedback_cell;
  completed_at : option string;
}.
Definition set_status (s : string) (r : row) : row :=
  {| id := id r; candidate_name := candidate_name r; skill_area := skill_area r;
     status := s; feedback := feedback r; completed_at := completed_at r |}.
Definition set_feedback (f : feedback_cell) (r : row) : row :=
  {| id := id r; candidate_name := candidate_name r; skill_area := skill_area r;
     status := status r; feedback := f; completed_at := completed_at r |}.
Definition set_completed_at (t : string) (r : row) : row :=
  {| id := id r; candidate_name := candidate_name r; skill_area := skill_area r;
     status := status r; feedback := feedback r; completed_at := Some t |}.
End interview.

(** The column [interview_questions.evaluation]: the plan entry written
    when the question is inserted, later the evaluation of the response. *)
Inductive evaluation_cell :=
| PlanEntry (skill : string) (skill_index : Z) (global_question_order : Z)
| Evaluated (e : response_evaluator.evaluation).

(** The column [interview_questions.score].  It is declared [REAL], and
    SQLite keeps in it what it is given: NULL, a number, or a text that
    does not read as a number. *)
Inductive score_cell :=
| Real (x : Q)
| TextScore (s : string).

Module interview_question.
Record row := {
  id : Z;
  interview_id : Z;
  question : string;
  question_type : string;
  response : option string;
  evaluation : option evaluation_cell;
  score : option score_cell;
}.
Definition set_response (s : string) (r : row) : row :=
  {| id := id r; interview_id := interview_id r; question := question r;
     question_type := question_type r; response := Some s;
     evaluation := evaluation r; score := score r |}.
Definition set_evaluation (e : evaluation_cell) (s : option score_cell) (r : row) : row :=
  {| id := id r; interview_id := interview_id r; question := question r;
     question_type := question_type r; response := response r;
     evaluation := Some e; score := s |}.
End interview_question.

Record tables := {
  interviews : list interview.row;
  interview_questions : list interview_question.row;
}.

(** The message of [sqlite3] for a parameter of a type it cannot bind
    (wording of CPython 3.11 and later). *)
Definition binding_error (parameter : Z) (type_name : string) : string :=
  "Error binding parameter " +:+ pretty parameter +:+ ": type '" +:+ type_name
    +:+ "' is not supported".

Section affinity.
(** The number that SQLite makes of a text stored into a [REAL] column,
    for a text that reads as a number. *)
Variable numeric_text : string → option Q.
(** The text that SQLite makes of a number stored into a [TEXT] column. *)
Variable number_text : Q → string.

(** [score = ?] with the value of ["score"] as parameter 2 of the
    statement. *)
Definition bind_score (v : json.value) : result (option score_cell) :=
  match v with
  | json.Null => Ok None
  | json.Number x => Ok (Some (Real x))
  | json.String s =>
      Ok (Some (match numeric_text s with
                | Some x => Real x
                | None => TextScore s
                end))
  | json.Array => Raise (py.ProgrammingError (binding_error 2 "list"))
  | json.Object => Raise (py.ProgrammingError (binding_error 2 "dict"))
  end.

(** [question = ?] with the question as parameter 2 of the [INSERT]; the
    column is declared [TEXT NOT NULL]. *)
Definition bind_question (v : json.value) : result string :=
  match v with
  | json.Null =>
      Raise (py.IntegrityError "NOT NULL constraint failed: interview_questions.question")
  | json.Number x => Ok (number_text x)
  | json.String s => Ok s
  | json.Array => Raise (py.ProgrammingError (binding_error 2 "list"))
  | json.Object => Raise (py.ProgrammingError (binding_error 2 "dict"))
  end.
End affinity.

(** The state a request runs in: the tables, and how often the card
    generator has been invoked so far. *)
Record world := {
  db : tables;
  generator_calls : nat;
}.

Definition with_db (f : tables → tables) (w : world) : world :=
  {| db := f (db w); generator_calls := generator_calls w |}.

(** [UPDATE interviews SET ... WHERE id = ?] *)
Definition update_interview (interview_id : Z) (f : interview.row → interview.row)
    (t : tables) : tables :=
  {| interviews :=
       (λ r, if decide (interview.id r = interview_id) then f r else r) <$> interviews t;
     interview_questions := interview_questions t |}.

(** [UPDATE interview_questions SET ... WHERE id = ?] *)
Definition update_question (question_id : Z)
    (f : interview_question.row → interview_question.row) (t : tables) : tables :=
  {| interviews := interviews t;
     interview_questions :=
       (λ r, if decide (interview_question.id r = question_id) then f r else r)
         <$> interview_questions t |}.

(** The next [AUTOINCREMENT] key of [interview_questions]. *)
Definition next_question_id (t : tables) : Z :=
  (1 + foldr Z.max 0 (interview_question.id <$> interview_questions t))%Z.

(** [INSERT INTO interview_questions (interview_id, question, question_type,
    evaluation) VALUES (?, ?, ?, ?)] *)
Definition insert_question (interview_id : Z) (question question_type : string)
    (evaluation : evaluation_cell) (t : tables) : tables :=
  {| interviews := interviews t;
     interview_questions :=
       interview_questions t ++
       [ {| interview_question.id := next_question_id t;
            interview_question.interview_id := interview_id;
            interview_question.question := question;
            interview_question.question_type := question_type;
            interview_question.response := None;
            interview_question.evaluation := Some evaluation;
            interview_question.score := None |} ] |}.

(** [SELECT * FROM interviews WHERE id = ?] *)
Definition select_interview (interview_id : Z) (t : tables) : list interview.row :=
  filter (λ r, interview.id r = interview_id) (interviews t).

(** [SELECT ... FROM interview_questions WHERE interview_id = ?] *)
Definition questions_of (interview_id : Z) (t : tables) : list interview_question.row :=
  filter (λ r, interview_question.interview_id r = interview_id) (interview_questions t).

(** [... WHERE interview_id = ? AND response IS NOT NULL] *)
Definition answered_questions_of (interview_id : Z) (t : tables)
    : list interview_question.row :=
  filter (λ r, is_Some (interview_question.response r)) (questions_of interview_id t).

(** [... WHERE interview_id = ? AND question_type = ?] *)
Definition skill_questions_of (interview_id : Z) (skill : string) (t : tables)
    : list interview_question.row :=
  filter (λ r, interview_question.question_type r = skill) (questions_of interview_id t).

(** [... WHERE interview_id = ? AND question_type = ? AND response IS NOT NULL] *)
Definition answered_skill_questions_of (interview_id : Z) (skill : string) (t : tables)
    : list interview_question.row :=
  filter (λ r, is_Some (interview_question.response r))
         (skill_questions_of interview_id skill t).

(** [SELECT iq.*, i.id as interview_id, i.feedback as interview_metadata
    FROM interview_questions iq JOIN interviews i ON iq.interview_id = i.id
    WHERE iq.id = ?] *)
Definition select_question_with_interview (question_id : Z) (t : tables)
    : list (interview_question.row * interview.row) :=
  q ← filter (λ r, interview_question.id r = question_id) (interview_questions t);
  i ← select_interview (interview_question.interview_id q) t;
  [(q, i)].

(** *** Requests: state and exceptions *)

Definition request (A : Type) : Type := world → world * result A.

Definition ret {A} (a : A) : request A := λ w, (w, Ok a).
Definition raise {A} (e : exn) : request A := λ w, (w, Raise e).
Definition bind {A B} (c : request A) (k : A → request B) : request B :=
  λ w, match c w with
       | (w', Ok a) => k a w'
       | (w', Raise e) => (w', Raise e)
       end.
(** A read of the tables. *)
Definition query {A} (f : tables → A) : request A := λ w, (w, Ok (f (db w))).
(** A write to the tables. *)
Definition execute (f : tables → tables) : request unit := λ w, (with_db f w, Ok tt).
(** A computation that may raise. *)
Definition lift {A} (r : result A) : request A := λ w, (w, r).
(** [try: body  except Exception as e: handler(e)] around requests: what
    the body wrote before it raised stays written. *)
Definition try_except {A} (body : request A) (handler : exn → request A) : request A :=
  λ w, match body w with
       | (w', Ok a) => (w', Ok a)
       | (w', Raise e) => handler e w'
       end.

End database.

Notation "'do' x <- c ; k" := (database.bind c (λ x, k))
  (at level 10, x pattern, c at level 100, k at level 200,
   format "'[v' 'do'  x  <-  c ; '/' k ']'").
Notation "'exec' c ; k" := (database.bind c (λ _ : unit, k))
  (at level 10, c at level 100, k at level 200,
   format "'[v' 'exec'  c ; '/' k ']'").

(** ** [api/interviews.py] *)

Module interviews.
Import database.

(** The scoring policy of this module. *)
Definition convert_score_to_stars (score : Q) : Z :=
  if Qle_bool 9 score then 5
  else if Qle_bool 7 score then 4
  else if Qle_bool 5 score then 3
  else if Qle_bool 3 score then 2
  else 1.

(** The two dictionaries [check_and_update_skill_rating] can return. *)
Inductive skill_rating_update :=
| SkillCompleted (skill : string) (star_rating : Z) (average_score : Q)
                 (questions_answered : nat)                 (* "completed": True *)
| SkillIncomplete (skill : string) (questions_answered questions_total : nat).
                                                            (* "completed": False *)

Record interview_progress := {
  answered : nat;
  total : nat;
  completed : bool;
}.

(** The dictionary returned by [submit_skill_based_response]. *)
Record submit_reply := {
  question_id : Z;
  evaluation : response_evaluator.evaluation;
  skill_assessed : string;
  skill_rating_update_of : skill_rating_update;
  progress : interview_progress;
  next_step : string;
}.

(** What one attempt of [auto_generate_skill_cards] meets in the file
    system.  The generator itself catches its exceptions and returns a
    dictionary, which the caller does not read; what counts is what the
    file operations around it do:
      - [cards_dir.mkdir] raises, before the generator is invoked;
      - the generator has run, and a later file operation raises (the
        directory scan, or writing the mapping file);
      - all of them succeed, and the scan finds these recent image files. *)
Inductive generation :=
| DirectoryError (msg : string)
| MappingError (msg : string)
| NewFiles (new_files : list string).

(** The values of [card_generation_info]. *)
Inductive card_generation_info :=
| StoredBlock (block : card_generation_block)
| NotGenerated (reason : string)          (* {"cards_generated": False, "reason": ...} *)
| Generated (success_count failure_count : nat)
            (cards_directory mapping_file : string)
            (generated_cards : list generated_card)
            (mapping_content : card_mapping). (* {"cards_generated": True, ...} *)

(** The dictionary returned by [get_interview_results_with_auto_cards]. *)
Record results_reply := {
  interview_id : Z;
  candidate_name : string;
  status : string;
  completed_at : option string;
  skill_ratings : gmap string Z;
  overall_score : Z;
  overall_stars : Z;
  total_skills : nat;
  card_generation : option card_generation_info;
}.

Definition rarity_mapping (star_rating : Z) : string :=
  if decide (star_rating = 5%Z) then "Legendary"
  else if decide (star_rating = 4%Z) then "Epic"
  else if decide (star_rating = 3%Z) then "Rare"
  else if decide (star_rating = 2%Z) then "Uncommon"
  else "Common".

Definition skill_description_of (skill_name : string) (star_rating : Z) : string :=
  if decide (star_rating = 5%Z) then
    "Master-level expertise in " +:+ skill_name +:+ ". This legendary skill demonstrates exceptional proficiency and deep understanding."
  else if decide (star_rating = 4%Z) then
    "Advanced proficiency in " +:+ skill_name +:+ ". This epic skill shows strong capabilities and experience."
  else if decide (star_rating = 3%Z) then
    "Solid competence in " +:+ skill_name +:+ ". This rare skill indicates good knowledge and practical ability."
  else if decide (star_rating = 2%Z) then
    "Basic proficiency in " +:+ skill_name +:+ ". This uncommon skill shows foundational understanding."
  else
    "Entry-level knowledge in " +:+ skill_name +:+ ". This common skill represents initial learning and experience.".

(** The stored star ratings: the loop over
    [feedback_data["skill_ratings"].items()]. *)
Definition stored_star_ratings (feedback_data : metadata) : gmap string Z :=
  match database.skill_ratings feedback_data with
  | Some ratings => star_rating <$> ratings
  | None => ∅
  end.

(** A score as [sum] meets it: a number of the [REAL] column is a float,
    a text is a text. *)
Definition score_operand (c : score_cell) : py.operand :=
  match c with
  | Real x => py.Float x
  | TextScore s => py.Str s
  end.

(** [q["score"] or 0]: NULL, the number 0 and the empty text give the
    integer 0. *)
Definition score_or_0 (c : option score_cell) : py.operand :=
  match c with
  | None => py.Int 0
  | Some (Real x) => if Qeq_bool x 0 then py.Int 0 else py.Float x
  | Some (TextScore s) => if py.truthy s then py.Str s else py.Int 0
  end.

(** "If no stored skill ratings, calculate on the fly", first loop: the
    scores of the answered questions, grouped by skill.  The dictionary
    [skill_scores] is the list of its items in insertion order. *)
Definition skill_scores_step (skill_scores : list (string * list py.operand))
    (q : interview_question.row) : list (string * list py.operand) :=
  let skill := interview_question.question_type q in
  let score := score_or_0 (interview_question.score q) in
  if decide (skill ∈ skill_scores.*1) then
    (λ entry : string * list py.operand,
       if decide (entry.1 = skill) then (entry.1, entry.2 ++ [score]) else entry)
      <$> skill_scores
  else skill_scores ++ [(skill, [score])].

Definition skill_scores_of (questions : list interview_question.row)
    : list (string * list py.operand) :=
  foldl skill_scores_step [] questions.

(** [round(sum(skill_ratings.values()) / len(skill_ratings))] *)
Definition overall_stars_of (skill_ratings : gmap string Z) : Z :=
  py.round (py.mean (inject_Z <$> (map_to_list skill_ratings).*2)).

Section endpoints.
(** Collaborators of the question generator. *)
Variable questions_reply : string → string → Z → groq_client.response.
Variable loads_questions : string → json_doc (list json.value).
Variable fenced_block : string → option string.
Variable listed_questions : string → list string.
(** Collaborators of the response evaluator. *)
Variable evaluation_reply : string → string → string → string → groq_client.response.
Variable loads_evaluation : string → json_doc response_evaluator.evaluation.
(** The conversions of SQLite between texts and numbers. *)
Variable numeric_text : string → option Q.
Variable number_text : Q → string.
(** Float arithmetic: [sum(scores) / len(scores)] for the values of the
    scores, and [round(x, 1)]. *)
Variable mean : list Q → Q.
Variable round1 : Q → Q.
(** The module-level flag and generator object: [None], or the
    generator seen through what an attempt meets in the file system, which
    may depend on how often the generator has been invoked before. *)
Variable CARD_GENERATION_AVAILABLE : bool.
Variable card_generator : option (nat → gmap string Z → generation).
(** The file among the recent ones whose name matches a skill and a
    rarity (exact patterns first, then the partial match). *)
Variable matching_file : list string → string → string → option string.

(** One round of the loop [for skill_index, skill in enumerate(skill_list)]. *)
Definition plan_step (job_description : string) (questions_per_skill : Z)
    (st : list question_generator.question_data * gmap string skill_block)
    (skill : string)
    : list question_generator.question_data * gmap string skill_block :=
  let '(all_questions, skill_question_map) := st in
  let skill_questions :=
    question_generator.generate_skill_specific_questions
      questions_reply loads_questions fenced_block listed_questions
      skill job_description questions_per_skill in
  let start_index := length all_questions in
  let all_questions := all_questions ++ skill_questions in
  let end_index := length all_questions in
  (all_questions,
   <[skill := {| start_index := start_index;
                 end_index := end_index;
                 question_count := questions_per_skill;
                 questions_completed := 0 |}]> skill_question_map).

(** The plan: all questions and the skill-question map. *)
Definition plan (skills : string) (questions_per_skill : Z)
    : list question_generator.question_data * gmap string skill_block :=
  let skill_list := stripped_items skills in
  let job_description := "Assessment for skills: " +:+ py.join ", " skill_list in
  foldl (plan_step job_description questions_per_skill) ([], ∅) skill_list.

(** One round of the loop [for i, question_data in enumerate(all_questions)]:
    the [INSERT] raises when the question cannot be bound. *)
Definition store_question (interview_id : Z) (i : nat)
    (question_data : question_generator.question_data) : request unit :=
  do question_text <-
    lift (bind_question number_text (question_generator.question question_data));
  execute (insert_question interview_id question_text
             (question_generator.skill question_data)
             (PlanEntry (question_generator.skill question_data)
                        (question_generator.skill_index question_data)
                        (Z.of_nat i + 1))).

Definition store_questions (interview_id : Z)
    (all_questions : list question_generator.question_data) : request unit :=
  foldl (λ (stored : request unit) '(i, question_data),
           exec stored; store_question interview_id i question_data)
        (ret tt) (imap pair all_questions).

(** [generate_skill_based_questions]: the plan is stored question by
    question, then the metadata; when an [INSERT] raises, the handler marks
    the interview ['error'] and raises in turn, and the questions stored
    before stay. *)
Definition generate_skill_based_questions (interview_id : Z) (skills skill_area : string)
    (questions_per_skill : Z) : request unit :=
  try_except
    (let skill_list := stripped_items skills in
     let '(all_questions, skill_question_map) := plan skills questions_per_skill in
     exec store_questions interview_id all_questions;
     let skills_metadata :=
       {| skills_assessed := Some skill_list;
          questions_per_skill := Some questions_per_skill;
          skill_question_map := Some skill_question_map;
          total_questions := Some (length all_questions);
          database.skill_ratings := None;
          database.card_generation := None |} in
     execute (update_interview interview_id
                (λ r, interview.set_status "active"
                        (interview.set_feedback (Json skills_metadata) r))))
    (λ e,
       exec execute (update_interview interview_id
                       (λ r, interview.set_status "error"
                               (interview.set_feedback
                                  (Text ("Error generating questions: "
                                           +:+ interview_service.str_of_exn e)) r)));
       raise (py.Exception ("Failed to generate skill-based questions: "
                              +:+ interview_service.str_of_exn e))).

(** [store_skill_rating] *)
Definition store_skill_rating (now : string) (interview_id : Z) (skill : string)
    (star_rating : Z) (avg_score : Q) : request unit :=
  do interview <- query (select_interview interview_id);
  match interview with
  | [] => raise (py.IndexError "list index out of range")
  | interview :: _ =>
      let feedback_data := loads_feedback (interview.feedback interview) in
      let ratings := default ∅ (database.skill_ratings feedback_data) in
      let feedback_data :=
        {| skills_assessed := skills_assessed feedback_data;
           questions_per_skill := questions_per_skill feedback_data;
           skill_question_map := skill_question_map feedback_data;
           total_questions := total_questions feedback_data;
           database.skill_ratings :=
             Some (<[skill := {| star_rating := star_rating;
                                 average_score := avg_score;
                                 database.completed_at := now |}]> ratings);
           database.card_generation := database.card_generation feedback_data |} in
      execute (update_interview interview_id (interview.set_feedback (Json feedback_data)))
  end.

(** The non-null scores of the answered questions of a skill:
    [[q["score"] for q in skill_questions if q["score"] is not None]]. *)
Definition scores_of (skill_questions : list interview_question.row) : list score_cell :=
  omap interview_question.score skill_questions.

(** [sum(scores) / len(scores)]: [sum] raises on a text; the mean of the
    numbers is the interpreter's, taken of their values. *)
Definition average (scores : list py.operand) : result Q :=
  match py.numbers_of scores with
  | Raise e => Raise e
  | Ok numbers => Ok (mean (Qred <$> numbers))
  end.

(** [check_and_update_skill_rating] *)
Definition check_and_update_skill_rating (now : string) (interview_id : Z)
    (skill : string) : request skill_rating_update :=
  do skill_questions <- query (answered_skill_questions_of interview_id skill);
  do total_skill_questions <- query (λ t, length (skill_questions_of interview_id skill t));
  let answered_skill_questions := length skill_questions in
  if bool_decide (answered_skill_questions = total_skill_questions)
     && bool_decide (0 < answered_skill_questions)
  then
    match scores_of skill_questions with
    | [] => ret (SkillIncomplete skill answered_skill_questions total_skill_questions)
    | scores =>
        do avg_score <- lift (average (score_operand <$> scores));
        let star_rating := convert_score_to_stars avg_score in
        exec store_skill_rating now interview_id skill star_rating avg_score;
        ret (SkillCompleted skill star_rating (round1 avg_score) answered_skill_questions)
    end
  else ret (SkillIncomplete skill answered_skill_questions total_skill_questions).

(** [submit_skill_based_response] *)
Definition submit_skill_based_response (now : string) (question_id : Z)
    (response : string) : request submit_reply :=
  do question <- query (select_question_with_interview question_id);
  match question with
  | [] => raise (py.HTTPException 404 "Question not found")
  | (question_data, interview) :: _ =>
      let interview_id := interview.id interview in
      let skill := interview_question.question_type question_data in
      exec execute (update_question question_id (interview_question.set_response response));
      let evaluation_result :=
        interview_service.evaluate_skill_response
          evaluation_reply loads_evaluation fenced_block
          (interview_question.question question_data) response skill "skill_specific" in
      let evaluation :=
        default response_evaluator.empty
                (interview_service.evaluation evaluation_result) in
      do score <-
        lift (bind_score numeric_text
                (default (json.Number 0) (response_evaluator.score evaluation)));
      exec execute (update_question question_id
                      (interview_question.set_evaluation (Evaluated evaluation) score));
      do skill_rating_update <- check_and_update_skill_rating now interview_id skill;
      do all_questions <- query (λ t, length (questions_of interview_id t));
      do answered_questions <- query (λ t, length (answered_questions_of interview_id t));
      let interview_completed := bool_decide (all_questions = answered_questions) in
      exec (if interview_completed
            then execute (update_interview interview_id
                            (λ r, interview.set_status "completed"
                                    (interview.set_completed_at now r)))
            else ret tt);
      ret {| question_id := question_id;
             evaluation := evaluation;
             skill_assessed := skill;
             skill_rating_update_of := skill_rating_update;
             progress := {| answered := answered_questions;
                            total := all_questions;
                            completed := interview_completed |};
             next_step := if interview_completed
                          then "/api/interviews/" +:+ pretty interview_id +:+ "/results"
                          else "Continue to next question" |}
  end.

(** The loop [for skill_name, star_rating in skill_ratings.items()] of
    [auto_generate_skill_cards], over [(cards, generated_cards,
    failed_cards)]. *)
Definition card_step (new_files : list string)
    (st : gmap string card * list generated_card * list failed_card)
    (entry : string * Z)
    : gmap string card * list generated_card * list failed_card :=
  let '(cards, generated_cards, failed_cards) := st in
  let '(skill_name, star_rating) := entry in
  let expected_rarity := rarity_mapping star_rating in
  match matching_file new_files skill_name expected_rarity with
  | Some found_file =>
      let skill_description := skill_description_of skill_name star_rating in
      (<[found_file := {| skill_name := skill_name;
                          card_star_rating := star_rating;
                          rarity := expected_rarity;
                          description := skill_description;
                          file_path := "card_images/" +:+ found_file;
                          prompt_used := "AI-generated visualization of " +:+ skill_name
                                         +:+ " expertise at " +:+ expected_rarity +:+ " level" |}]>
         cards,
       generated_cards ++
         [ {| generated_skill := skill_name;
              generated_star_rating := star_rating;
              generated_rarity := expected_rarity;
              generated_file_path := "card_images/" +:+ found_file;
              file_name := found_file;
              skill_description := skill_description |} ],
       failed_cards)
  | None =>
      (cards, generated_cards,
       failed_cards ++
         [ {| failed_skill := skill_name;
              failed_star_rating := star_rating;
              failed_error := "No matching file found." |} ])
  end.

(** The second loop of the recomputation,
    [for skill, scores in skill_scores.items()], which ends at the first
    skill whose scores hold a text. *)
Definition rate_scores (skill_ratings : result (gmap string Z))
    (entry : string * list py.operand) : result (gmap string Z) :=
  match skill_ratings with
  | Raise e => Raise e
  | Ok skill_ratings =>
      match entry.2 with
      | [] => Ok skill_ratings
      | scores =>
          match average scores with
          | Raise e => Raise e
          | Ok avg_score => Ok (<[entry.1 := convert_score_to_stars avg_score]> skill_ratings)
          end
      end
  end.

Definition on_the_fly_ratings (questions : list interview_question.row)
    : result (gmap string Z) :=
  foldl rate_scores (Ok ∅) (skill_scores_of questions).

(** The file operations of an attempt up to the mapping file, with
    [card_generator.generate_cards_from_interview_results(skill_ratings)]
    in their middle: the generator is invoked unless the directory cannot
    be made. *)
Definition invoke_generator (generator : nat → gmap string Z → generation)
    (skill_ratings : gmap string Z) : request generation :=
  λ w, let outcome := generator (generator_calls w) skill_ratings in
       match outcome with
       | DirectoryError _ => (w, Ok outcome)
       | MappingError _ | NewFiles _ =>
           ({| db := db w; generator_calls := S (generator_calls w) |}, Ok outcome)
       end.

(** [auto_generate_skill_cards].  The skills are visited in the order
    in which the map enumerates them. *)
Definition auto_generate_skill_cards (now : string) (interview_id : Z)
    (skill_ratings : gmap string Z) : request card_generation_info :=
  if negb CARD_GENERATION_AVAILABLE then
    ret (NotGenerated "Card generation not available - import failed")
  else
    match card_generator with
    | None => ret (NotGenerated "Card generator not initialized")
    | Some generator =>
        do outcome <- invoke_generator generator skill_ratings;
        match outcome with
        | DirectoryError msg | MappingError msg =>
            ret (NotGenerated ("Generation failed: " +:+ msg))
        | NewFiles new_files =>
            let '(cards, generated_cards, failed_cards) :=
              foldl (card_step new_files) (∅, [], []) (map_to_list skill_ratings) in
            let card_mapping :=
              {| mapping_generated_at := now;
                 mapping_interview_id := interview_id;
                 total_cards := length generated_cards;
                 cards := cards |} in
            let json_file_path :=
              "card_images/skill_cards_interview_" +:+ pretty interview_id +:+ ".json" in
            let manual_results :=
              {| success_count := length generated_cards;
                 failure_count := length failed_cards;
                 database.total_skills := size skill_ratings;
                 generated_cards := generated_cards;
                 failed_cards := failed_cards;
                 cards_directory := "card_images";
                 mapping_file := json_file_path;
                 results_interview_id := interview_id |} in
            do interview <- query (select_interview interview_id);
            match interview with
            | [] => ret (NotGenerated "Generation failed: list index out of range")
            | interview :: _ =>
                let feedback_data := loads_feedback (interview.feedback interview) in
                let feedback_data :=
                  {| skills_assessed := skills_assessed feedback_data;
                     questions_per_skill := questions_per_skill feedback_data;
                     skill_question_map := skill_question_map feedback_data;
                     total_questions := total_questions feedback_data;
                     database.skill_ratings := database.skill_ratings feedback_data;
                     database.card_generation :=
                       Some {| generated_at := now;
                               results := manual_results;
                               mapping_file_content := card_mapping |} |} in
                exec execute (update_interview interview_id
                                (interview.set_feedback (Json feedback_data)));
                ret (Generated (success_count manual_results)
                               (failure_count manual_results)
                               (cards_directory manual_results)
                               (mapping_file manual_results)
                               (database.generated_cards manual_results)
                               card_mapping)
            end
        end
    end.

(** [get_interview_results_with_auto_cards] *)
Definition get_interview_results_with_auto_cards (now : string) (interview_id : Z)
    : request results_reply :=
  do interview <- query (select_interview interview_id);
  match interview with
  | [] => raise (py.HTTPException 404 "Interview not found")
  | interview_data :: _ =>
      let feedback_data := loads_feedback (interview.feedback interview_data) in
      let stored := stored_star_ratings feedback_data in
      do skill_ratings <-
        (if decide (stored = ∅)
         then do questions <- query (answered_questions_of interview_id);
              lift (on_the_fly_ratings questions)
         else ret stored);
      let overall_stars :=
        if decide (skill_ratings = ∅) then 1%Z else overall_stars_of skill_ratings in
      let overall_score :=
        if decide (skill_ratings = ∅) then 1%Z else (overall_stars * 2)%Z in
      do card_generation_info <-
        (if decide (skill_ratings = ∅) then ret None
         else
           let already := database.card_generation feedback_data in
           if negb (bool_decide (is_Some already)) && CARD_GENERATION_AVAILABLE
              && bool_decide (is_Some card_generator)
           then
             do info <- auto_generate_skill_cards now interview_id skill_ratings;
             ret (Some info)
           else if negb CARD_GENERATION_AVAILABLE then
             ret (Some (NotGenerated
                          "Card generation not available - check imports and API key"))
           else if negb (bool_decide (is_Some card_generator)) then
             ret (Some (NotGenerated "Card generator not initialized"))
           else ret (StoredBlock <$> already));
      ret {| interview_id := interview_id;
             candidate_name := interview.candidate_name interview_data;
             status := interview.status interview_data;
             completed_at := interview.completed_at interview_data;
             skill_ratings := skill_ratings;
             overall_score := overall_score;
             overall_stars := overall_stars;
             total_skills := size skill_ratings;
             card_generation := card_generation_info |}
  end.
End endpoints.

(** The file search of [auto_generate_skill_cards]: the cleaned skill
    name, the three expected file names, and the loop over the recent
    files, which stops at the first file that has one of these names or
    whose name contains a spelling of the skill and the rarity. *)
Definition clean_skill_name (skill_name : string) : string :=
  py.replace_char " " "_"
    (py.strip (py.keep (λ c, py.isalnum c
                             || bool_decide (c ∈ [" "%char; "-"%char; "_"%char]))
                       skill_name)).

Definition skill_spellings (skill_name : string) : list string :=
  [ clean_skill_name skill_name;
    py.replace_char " " "_" skill_name;
    py.replace_char " " "" skill_name ].

Definition possible_filenames (skill_name expected_rarity : string) : list string :=
  (λ spelling, spelling +:+ "_" +:+ expected_rarity +:+ "_skillcard.png")
    <$> skill_spellings skill_name.

Definition partial_match (skill_name expected_rarity name : string) : bool :=
  existsb (λ clean_skill,
             py.contains (py.lower clean_skill) (py.lower name)
             && py.contains (py.lower expected_rarity) (py.lower name))
          (skill_spellings skill_name).

Definition file_matches (skill_name expected_rarity name : string) : bool :=
  bool_decide (name ∈ possible_filenames skill_name expected_rarity)
  || partial_match skill_name expected_rarity name.

Definition find_matching_file (new_files : list string)
    (skill_name expected_rarity : string) : option string :=
  head (filter (λ name, file_matches skill_name expected_rarity name = true) new_files).

End interviews.

(** ** [ml/skill_card_generator.py]

    The two model calls and the file writes are collaborators; an
    exception of theirs is kept as the text [str(e)] that the callers
    read. *)

Module skill_card_generator.

Inductive attempt (A : Type) :=
| Done (a : A)
| Failed (error : string).
Arguments Done {A} a.
Arguments Failed {A} error.

(** [self.rarity_mapping.get(star_rating, "Common")] *)
Definition rarity_mapping (star_rating : Z) : string :=
  if decide (star_rating = 5%Z) then "Legendary"
  else if decide (star_rating = 4%Z) then "Epic"
  else if decide (star_rating = 3%Z) then "Rare"
  else if decide (star_rating = 2%Z) then "Uncommon"
  else "Common".

(** The file name built by [_generate_image]. *)
Definition clean_skill_name (skill_name : string) : string :=
  py.replace_char " " "_"
    (py.strip (py.keep (λ c, py.isalnum c
                             || bool_decide (c ∈ [" "%char; "-"%char; "_"%char]))
                       skill_name)).

Definition file_name_of (skill_name rarity_level file_extension : string) : string :=
  clean_skill_name skill_name +:+ "_" +:+ rarity_level +:+ "_skillcard" +:+ file_extension.

(** The dictionaries returned by [generate_skill_card]. *)
Inductive card_result :=
| CardGenerated (skill : string) (star_rating : Z)
                (rarity file_path file_name skill_description prompt_used : string)
| CardFailed (skill : string) (star_rating : Z) (error : string).

Definition succeeded (c : card_result) : bool :=
  match c with
  | CardGenerated _ _ _ _ _ _ _ => true
  | CardFailed _ _ _ => false
  end.

(** An entry of the mapping file, and the mapping file. *)
Record mapped_card := {
  skill_name : string;
  star_rating : Z;
  rarity : string;
  description : string;
  file_path : string;
  prompt_used : string;
}.

Record card_mapping := {
  generated_at : string;
  mapping_interview_id : option Z;
  total_cards : nat;
  cards : gmap string mapped_card;
}.

(** The dictionary of results, and what the call left in the mapping
    file. *)
Record generation_results := {
  total_skills : nat;
  generated_cards : list card_result;
  failed_cards : list card_result;
  cards_directory : string;
  interview_id : option Z;
  success_count : nat;
  failure_count : nat;
  mapping_file : option string;
  mapping_file_error : option string;
  written_mapping : option card_mapping;
}.

Inductive generation_outcome :=
| Unavailable (error : string)                  (* {"success": False, "error": ...} *)
| Results (results : generation_results).       (* {"success": True, ...} *)

Section generator.
Variable GENAI_AVAILABLE : bool.
(** The value returned by [_get_api_key]. *)
Variable api_key : string.
(** [_generate_prompt_and_description(skill_name, rarity_level)]: the
    image prompt and the description. *)
Variable prompt_and_description : string → string → attempt (string * string).
(** The image stream of [_generate_image] for a prompt: the file extension
    guessed for the first chunk with image data ([".png"] when none is
    guessed), or the failure of the call or of a stream without image. *)
Variable image_extension : string → attempt string.
(** Writing a file under [card_images]: the text of the exception, if
    any. *)
Variable write_error : string → option string.
(** [datetime.now()], as ISO text and as the stamp of a file name. *)
Variable now : string.
Variable timestamp : string.

Definition _save_binary_file (file_name : string) : attempt string :=
  let file_path := "card_images/" +:+ file_name in
  match write_error file_path with
  | Some error => Failed error
  | None => Done file_path
  end.

Definition _generate_image (prompt skill_name rarity_level skill_description : string)
    : attempt (string * string * string) :=
  match image_extension prompt with
  | Failed error => Failed error
  | Done file_extension =>
      let file_name := file_name_of skill_name rarity_level file_extension in
      match _save_binary_file file_name with
      | Failed error => Failed error
      | Done file_path => Done (file_path, file_name, skill_description)
      end
  end.

Definition generate_skill_card (skill_name : string) (star_rating : Z) : card_result :=
  let rarity_level := rarity_mapping star_rating in
  match prompt_and_description skill_name rarity_level with
  | Failed error => CardFailed skill_name star_rating error
  | Done (image_prompt, skill_description) =>
      match _generate_image image_prompt skill_name rarity_level skill_description with
      | Failed error => CardFailed skill_name star_rating error
      | Done (file_path, file_name, _) =>
          CardGenerated skill_name star_rating rarity_level file_path file_name
            skill_description image_prompt
      end
  end.

(** The entries written by [_save_card_mapping_json]; a card dictionary
    without a key gets the default of its [get]. *)
Definition mapping_step (cards : gmap string mapped_card) (card : card_result)
    : gmap string mapped_card :=
  match card with
  | CardGenerated skill star_rating rarity file_path file_name skill_description prompt_used =>
      <[file_name := {| skill_name := skill; star_rating := star_rating; rarity := rarity;
                        description := skill_description; file_path := file_path;
                        prompt_used := prompt_used |}]> cards
  | CardFailed skill star_rating _ =>
      <["" := {| skill_name := skill; star_rating := star_rating; rarity := "Common";
                 description := ""; file_path := ""; prompt_used := "" |}]> cards
  end.

Definition _save_card_mapping_json (generated_cards : list card_result)
    (interview_id : option Z) : attempt (string * card_mapping) :=
  let card_mapping :=
    {| generated_at := now;
       mapping_interview_id := interview_id;
       total_cards := length generated_cards;
       cards := foldl mapping_step ∅ generated_cards |} in
  let json_filename :=
    match interview_id with
    | Some id =>
        if decide (id = 0%Z) then "skill_cards_" +:+ timestamp +:+ ".json"
        else "skill_cards_interview_" +:+ pretty id +:+ ".json"
    | None => "skill_cards_" +:+ timestamp +:+ ".json"
    end in
  let json_file_path := "card_images/" +:+ json_filename in
  match write_error json_file_path with
  | Some error => Failed error
  | None => Done (json_file_path, card_mapping)
  end.

Definition generate_cards_from_interview_results (skill_ratings : list (string * Z))
    (interview_id : option Z) : generation_outcome :=
  if negb GENAI_AVAILABLE then
    Unavailable "google-genai package not installed. Please install it with: pip install google-genai"
  else if negb (py.truthy api_key) then
    Unavailable "GOOGLE_API_KEY environment variable not set"
  else
    let '(generated_cards, failed_cards) :=
      foldl (λ '(generated_cards, failed_cards) '(skill_name, star_rating),
               let card_result := generate_skill_card skill_name star_rating in
               if succeeded card_result then (generated_cards ++ [card_result], failed_cards)
               else (generated_cards, failed_cards ++ [card_result]))
            ([], []) skill_ratings in
    let saved :=
      match generated_cards with
      | [] => None
      | _ => Some (_save_card_mapping_json generated_cards interview_id)
      end in
    Results
      {| total_skills := length skill_ratings;
         generated_cards := generated_cards;
         failed_cards := failed_cards;
         cards_directory := "card_images";
         interview_id := interview_id;
         success_count := length generated_cards;
         failure_count := length failed_cards;
         mapping_file :=
           match saved with Some (Done (path, _)) => Some path | _ => None end;
         mapping_file_error :=
           match saved with Some (Failed error) => Some error | _ => None end;
         written_mapping :=
           match saved with Some (Done (_, mapping)) => Some mapping | _ => None end |}.
End generator.

End skill_card_generator.

(** * The specification's side

    Definitions that follow the wording of the specification, and the
    concrete collaborators and states of the scenarios. *)

(** The wording of the specification: the skills in their order of first
    appearance, each normalized name once, in the spelling of its first
    occurrence.  An item is kept exactly when no item at an earlier position
    has the same lower-case form. *)
Definition first_seen_order (skills : list string) : list string :=
  omap (λ '(i, skill),
          if decide (py.lower skill ∈ py.lower <$> take i skills) then None
          else Some skill)
       (imap pair skills).

(** A text made of blanks only. *)
Fixpoint only_blanks (s : string) : bool :=
  match s with
  | EmptyString => true
  | String c s' => py.isspace c && only_blanks s'
  end.


(** The upstream evaluation failed: the call returned an error, a body
    without content, or a content from which no evaluation object can be
    decoded, neither directly nor from a fenced block. *)
Definition upstream_failed (json_loads : string → json_doc response_evaluator.evaluation)
    (fenced_block : string → option string) (reply : groq_client.response) : bool :=
  match reply with
  | groq_client.Error _ | groq_client.OtherBody => true
  | groq_client.Content content =>
      match json_loads content with
      | Doc _ => false
      | OtherJSON => true
      | JSONDecodeError =>
          match fenced_block content with
          | Some inner => match json_loads inner with Doc _ => false | _ => true end
          | None => true
          end
      end
  end.

(** The score in 1..10 that the length heuristic assigns to a text. *)
Definition heuristic_score (response : string) : Q :=
  let n := length (py.split response) in
  if n <? 10 then 2%Q else if n <? 25 then 4%Q else if n <? 50 then 6%Q
  else if n <? 100 then 7%Q else 8%Q.

(** Scenario: the language-model service is down, every call returns
    [{"error": "API error: 500"}]. *)
Module upstream_down.
Definition questions_reply (skill job_description : string) (n : Z) : groq_client.response :=
  groq_client.Error "API error: 500".
Definition evaluation_reply (question_type job_description question response : string)
    : groq_client.response :=
  groq_client.Error "API error: 500".
Definition loads_questions (text : string) : json_doc (list json.value) := JSONDecodeError.
Definition loads_evaluation (text : string) : json_doc response_evaluator.evaluation :=
  JSONDecodeError.
Definition fenced_block (text : string) : option string := None.
Definition listed_questions (text : string) : list string := [].
End upstream_down.

(** The skill tag and the in-skill index of a batch of [n] questions. *)
Definition batch_tags (skill : string) (n : Z) : list (string * Z) :=
  (λ i : nat, (skill, Z.of_nat i + 1)%Z) <$> seq 0 (Z.to_nat n).

Definition tags_of (questions : list question_generator.question_data)
    : list (string * Z) :=
  (λ q, (question_generator.skill q, question_generator.skill_index q)) <$> questions.

(** The block recorded for the skill at position [j] of the skill list. *)
Definition block_at (n : Z) (j : nat) : database.skill_block :=
  {| database.start_index := Z.to_nat n * j;
     database.end_index := Z.to_nat n * S j;
     database.question_count := n;
     database.questions_completed := 0 |}.

(** The question rows that a request has appended, each as its interview,
    its question type and its plan entry. *)
Definition appended_rows (w w' : database.world)
    : list (Z * string * option database.evaluation_cell) :=
  (λ r, (database.interview_question.interview_id r,
         database.interview_question.question_type r,
         database.interview_question.evaluation r))
  <$> drop (length (database.interview_questions (database.db w)))
           (database.interview_questions (database.db w')).

(** What [store_questions] writes for a question with a given tag at a
    given position: the skill as question type, and the plan entry with the
    1-based global order. *)
Definition plan_row (interview_id : Z) (i : nat) (tag : string * Z)
    : Z * string * option database.evaluation_cell :=
  (interview_id, tag.1, Some (database.PlanEntry tag.1 tag.2 (Z.of_nat i + 1))).

(** The metadata stored for an interview. *)
Definition metadata_of (interview_id : Z) (w : database.world) : option database.metadata :=
  r ← head (database.select_interview interview_id (database.db w));
  match database.interview.feedback r with
  | database.Json m => Some m
  | _ => None
  end.

Definition status_of (interview_id : Z) (w : database.world) : option string :=
  database.interview.status <$> head (database.select_interview interview_id (database.db w)).

(** The 1-based positions that a block spans in the global question
    list: from [start_index + 1] to [end_index]. *)
Definition positions_of (b : database.skill_block) : list nat :=
  seq (S (database.start_index b)) (database.end_index b - database.start_index b).

(** The skill-question map stored for an interview. *)
Definition stored_blocks (interview_id : Z) (w : database.world)
    : option (gmap string database.skill_block) :=
  m ← metadata_of interview_id w;
  database.skill_question_map m.

(** The metadata document written for a stored plan. *)
Definition plan_metadata (skills : string) (n : Z)
    (p : list question_generator.question_data * gmap string database.skill_block)
    : database.metadata :=
  {| database.skills_assessed := Some (stripped_items skills);
     database.questions_per_skill := Some n;
     database.skill_question_map := Some p.2;
     database.total_questions := Some (length p.1);
     database.skill_ratings := None;
     database.card_generation := None |}.

(** The block recorded for a skill, as the pair (start_index, end_index). *)
Definition block_of (interview_id : Z) (skill : string) (w : database.world)
    : option (nat * nat) :=
  m ← metadata_of interview_id w;
  blocks ← database.skill_question_map m;
  b ← blocks !! skill;
  Some (database.start_index b, database.end_index b).

(** Scenario: the conversions of SQLite on the values that the scenarios
    store.  A text of decimal digits reads as that number, and the scenarios
    bind no other text that reads as a number; a whole number prints in
    decimal, and the scenarios store no other number as a text. *)
Module sqlite.
Definition digit (c : ascii) : option Z :=
  let n := N_of_ascii c in
  if ((48 <=? n)%N && (n <=? 57)%N) then Some (Z.of_N n - 48)%Z else None.
Fixpoint digits (acc : Z) (s : string) : option Z :=
  match s with
  | EmptyString => Some acc
  | String c s' => d ← digit c; digits (10 * acc + d) s'
  end.
Definition numeric_text (s : string) : option Q :=
  match s with
  | EmptyString => None
  | _ => inject_Z <$> digits 0 s
  end.
Definition number_text (x : Q) : string := pretty (Qfloor x).
End sqlite.

(** Scenario: float arithmetic on the scores of the scenarios.  These are
    whole numbers with means such as 8 and 9/2, all of them floats, so the
    sums, quotients and roundings of the interpreter are exact on them. *)
Module exact.
Definition mean (scores : list Q) : Q := py.mean scores.
Definition round1 (x : Q) : Q := (inject_Z (py.round (x * 10)) / 10)%Q.
End exact.

(** Scenario: one pending interview, number 1, and no question yet. *)
Module scenario.
Definition pending : database.world :=
  {| database.db :=
       {| database.interviews :=
            [ {| database.interview.id := 1;
                 database.interview.candidate_name := "Ada";
                 database.interview.skill_area := "general: SQL,Excel";
                 database.interview.status := "pending";
                 database.interview.feedback := database.Null;
                 database.interview.completed_at := None |} ];
          database.interview_questions := [] |};
     database.generator_calls := 0 |}.

(** The plan of "SQL,Excel" with two questions per skill, generated while
    the language-model service is down. *)
Definition started : database.world :=
  (interviews.generate_skill_based_questions
     upstream_down.questions_reply upstream_down.loads_questions
     upstream_down.fenced_block upstream_down.listed_questions sqlite.number_text
     1 "SQL,Excel" "general" 2 pending).1.
End scenario.

(** The rating stored for a skill of an interview. *)
Definition stored_rating (interview_id : Z) (skill : string) (w : database.world)
    : option database.skill_rating :=
  m ← metadata_of interview_id w;
  ratings ← database.skill_ratings m;
  ratings !! skill.

(** The metadata with one skill rating written into its ["skill_ratings"]
    section, all other sections as they were. *)
Definition with_skill_rating (skill : string) (rating : database.skill_rating)
    (m : database.metadata) : database.metadata :=
  {| database.skills_assessed := database.skills_assessed m;
     database.questions_per_skill := database.questions_per_skill m;
     database.skill_question_map := database.skill_question_map m;
     database.total_questions := database.total_questions m;
     database.skill_ratings :=
       Some (<[skill := rating]> (default ∅ (database.skill_ratings m)));
     database.card_generation := database.card_generation m |}.

(** The number that an operand of [sum] contributes, if it is one. *)
Definition operand_number (o : py.operand) : option Q :=
  match o with
  | py.Int n => Some (inject_Z n)
  | py.Float x => Some x
  | py.Str _ => None
  end.

(** The number in a score cell, if it holds one. *)
Definition number_of_cell (c : database.score_cell) : option Q :=
  match c with
  | database.Real x => Some x
  | database.TextScore _ => None
  end.

(** The score cell holds a text. *)
Definition is_text (c : option database.score_cell) : Prop :=
  match c with
  | Some (database.TextScore _) => True
  | _ => False
  end.

Global Instance is_text_dec c : Decision (is_text c).
Proof. destruct c as [[]|]; cbn; apply _. Defined.

(** The rating computed from the numbers of a skill at a given time: the
    stars of their mean, and the mean. *)
Definition rating_of (mean : list Q → Q) (numbers : list Q) (now : string)
    : database.skill_rating :=
  {| database.star_rating := interviews.convert_score_to_stars (mean (Qred <$> numbers));
     database.average_score := mean (Qred <$> numbers);
     database.completed_at := now |}.

(** The evaluation that a submission stores:
    [evaluation_result.get("evaluation", {})]. *)
Definition submitted_evaluation
    (evaluation_reply : string → string → string → string → groq_client.response)
    (loads_evaluation : string → json_doc response_evaluator.evaluation)
    (fenced_block : string → option string)
    (question response skill : string) : response_evaluator.evaluation :=
  default response_evaluator.empty
    (interview_service.evaluation
       (interview_service.evaluate_skill_response
          evaluation_reply loads_evaluation fenced_block
          question response skill "skill_specific")).

(** The score that a submission writes into the question row:
    [evaluation.get("score", 0)] of that evaluation, as SQLite binds it. *)
Definition submitted_score
    (evaluation_reply : string → string → string → string → groq_client.response)
    (loads_evaluation : string → json_doc response_evaluator.evaluation)
    (fenced_block : string → option string)
    (numeric_text : string → option Q)
    (question response skill : string) : result (option database.score_cell) :=
  database.bind_score numeric_text
    (default (json.Number 0)
       (response_evaluator.score
          (submitted_evaluation evaluation_reply loads_evaluation fenced_block
             question response skill))).

(** Completed interviews stay completed from one state to another. *)
Definition completed_preserved (w w' : database.world) : Prop :=
  ∀ interview_id,
    status_of interview_id w = Some "completed" →
    status_of interview_id w' = Some "completed".

(** Scenario: a scripted evaluation service.  It answers with the
    candidate's text as content, and the decoder reads the words "nine",
    "seven" and "two" as evaluation objects with that score, and the words
    "eight of ten" as an evaluation object whose score is the text
    ["8/10"]. *)
Module scripted.
Definition evaluation_reply (question_type job_description question response : string)
    : groq_client.response :=
  groq_client.Content response.
Definition scored (score : json.value) : response_evaluator.evaluation :=
  {| response_evaluator.score := Some score;
     response_evaluator.strengths := None;
     response_evaluator.weaknesses := None;
     response_evaluator.feedback := None;
     response_evaluator.error := None;
     response_evaluator.raw_llm_response := None;
     response_evaluator.assessed_skill := None;
     response_evaluator.skill_specific := None |}.
Definition loads_evaluation (text : string) : json_doc response_evaluator.evaluation :=
  if decide (text = "nine") then Doc (scored (json.Number 9))
  else if decide (text = "seven") then Doc (scored (json.Number 7))
  else if decide (text = "two") then Doc (scored (json.Number 2))
  else if decide (text = "eight of ten") then Doc (scored (json.String "8/10"))
  else JSONDecodeError.
Definition fenced_block (text : string) : option string := None.

(** A submission at 10:00, 10:05, ... with this service. *)
Definition submit_request (now : string) (question_id : Z) (response : string)
    : database.request interviews.submit_reply :=
  interviews.submit_skill_based_response fenced_block evaluation_reply loads_evaluation
    sqlite.numeric_text exact.mean exact.round1 now question_id response.
Definition submit (now : string) (question_id : Z) (response : string)
    (w : database.world) : database.world :=
  (submit_request now question_id response w).1.
End scripted.

(** What a submission writes into the question rows: first the response,
    then, in one statement, the evaluation and its score. *)
Definition record_text (question_id : Z) (response : string) (t : database.tables)
    : database.tables :=
  database.update_question question_id
    (database.interview_question.set_response response) t.

Definition record_response (question_id : Z) (response : string)
    (evaluation : response_evaluator.evaluation) (score : option database.score_cell)
    (t : database.tables) : database.tables :=
  database.update_question question_id
    (database.interview_question.set_evaluation (database.Evaluated evaluation) score)
    (record_text question_id response t).

(** The write that marks an interview completed. *)
Definition mark_completed (now : string) (interview_id : Z) (w : database.world)
    : database.world :=
  database.with_db
    (database.update_interview interview_id
       (λ r, database.interview.set_status "completed"
               (database.interview.set_completed_at now r)))
    w.

(** The write that stores a skill rating into the metadata of an interview
    row. *)
Definition write_rating (interview_id : Z) (skill : string) (rating : database.skill_rating)
    (interview : database.interview.row) (w : database.world) : database.world :=
  database.with_db
    (database.update_interview interview_id
       (database.interview.set_feedback
          (database.Json
             (with_skill_rating skill rating
                (database.loads_feedback (database.interview.feedback interview))))))
    w.

(** A sequence of submissions, each with its time, question and response. *)
Definition submit_all
    (fenced_block : string → option string)
    (evaluation_reply : string → string → string → string → groq_client.response)
    (loads_evaluation : string → json_doc response_evaluator.evaluation)
    (numeric_text : string → option Q) (mean : list Q → Q) (round1 : Q → Q)
    (submissions : list (string * Z * string)) (w : database.world) : database.world :=
  foldl (λ w '(now, question_id, response),
           (interviews.submit_skill_based_response
              fenced_block evaluation_reply loads_evaluation numeric_text mean round1
              now question_id response w).1)
        w submissions.

(** The two sources of star ratings of the results endpoint: the stored
    ratings, and the recomputation from the answered questions. *)
Definition stored_path (interview_id : Z) (w : database.world) : gmap string Z :=
  match database.select_interview interview_id (database.db w) with
  | interview_data :: _ =>
      interviews.stored_star_ratings
        (database.loads_feedback (database.interview.feedback interview_data))
  | [] => ∅
  end.

Definition fly_path (mean : list Q → Q) (interview_id : Z) (w : database.world)
    : result (gmap string Z) :=
  interviews.on_the_fly_ratings mean
    (database.answered_questions_of interview_id (database.db w)).

(** The scores of the questions of one skill as the recomputation adds
    them up, in row order. *)
Definition skill_operands (skill : string) (questions : list database.interview_question.row)
    : list py.operand :=
  (λ q, interviews.score_or_0 (database.interview_question.score q))
  <$> filter (λ q, database.interview_question.question_type q = skill) questions.

(** The skills of some questions, each once, in the order of their first
    question. *)
Definition seen_skills (questions : list database.interview_question.row) : list string :=
  foldl (λ skills q,
           let skill := database.interview_question.question_type q in
           if decide (skill ∈ skills) then skills else skills ++ [skill])
        [] questions.

(** The row of an answered question: response, evaluation and score set. *)
Definition answered_row (response : string) (e : database.evaluation_cell)
    (s : option database.score_cell)
    (r : database.interview_question.row) : database.interview_question.row :=
  database.interview_question.set_evaluation e s
    (database.interview_question.set_response response r).

(** The stars and the average (in lowest terms) of the rating stored for a
    skill. *)
Definition rating_summary (interview_id : Z) (skill : string) (w : database.world)
    : option (Z * Q) :=
  r ← stored_rating interview_id skill w;
  Some (database.star_rating r, Qred (database.average_score r)).

(** Scenario: the interview of [scenario.started] (questions 1, 2 on SQL and
    3, 4 on Excel), answered against the scripted evaluation service. *)
Module journey.
Definition sql_half : database.world := scripted.submit "10:00" 1 "nine" scenario.started.
Definition sql_done : database.world := scripted.submit "10:05" 2 "seven" sql_half.
Definition excel_half : database.world := scripted.submit "10:10" 3 "seven" sql_done.
Definition finished : database.world := scripted.submit "10:15" 4 "nine" excel_half.
(** A second response to question 1 once SQL is rated. *)
Definition sql_again : database.world := scripted.submit "10:20" 1 "two" sql_done.
(** A second response to question 1 once SQL is rated, evaluated with the
    text score ["8/10"], and then the two responses on Excel. *)
Definition sql_text : database.world := scripted.submit "10:20" 1 "eight of ten" sql_done.
Definition text_finished : database.world :=
  scripted.submit "10:30" 4 "nine" (scripted.submit "10:25" 3 "seven" sql_text).
End journey.

(** The star ratings that the results endpoint works with: the stored ones
    if there are any, else the recomputed ones. *)
Definition ratings_read (mean : list Q → Q) (interview_id : Z)
    (interview_data : database.interview.row) (t : database.tables)
    : result (gmap string Z) :=
  let stored :=
    interviews.stored_star_ratings
      (database.loads_feedback (database.interview.feedback interview_data)) in
  if decide (stored = ∅)
  then interviews.on_the_fly_ratings mean (database.answered_questions_of interview_id t)
  else Ok stored.

(** The card-generation block stored for an interview. *)
Definition stored_cards (interview_id : Z) (w : database.world)
    : option database.card_generation_block :=
  m ← metadata_of interview_id w;
  database.card_generation m.

(** Scenario: card generation for the finished interview. *)
Module cards.
(** A card directory whose files cannot be written: the generator runs
    and saves no image, then writing the mapping file raises. *)
Definition read_only (call : nat) (skill_ratings : gmap string Z) : interviews.generation :=
  interviews.MappingError
    "[Errno 13] Permission denied: 'card_images/skill_cards_interview_1.json'".
(** An image service that cannot be reached: the generator fails for
    every skill and leaves no file; the file operations succeed. *)
Definition unreachable (call : nat) (skill_ratings : gmap string Z) : interviews.generation :=
  interviews.NewFiles [].
(** An image service that leaves one card per skill. *)
Definition working (call : nat) (skill_ratings : gmap string Z) : interviews.generation :=
  interviews.NewFiles ["SQL_Epic_skillcard.png"; "Excel_Epic_skillcard.png"].
(** The exact file-name pattern only. *)
Definition matching_file (new_files : list string) (skill_name expected_rarity : string)
    : option string :=
  let name := skill_name +:+ "_" +:+ expected_rarity +:+ "_skillcard.png" in
  if decide (name ∈ new_files) then Some name else None.

Definition fetch
    (card_generator : option (nat → gmap string Z → interviews.generation))
    (now : string) (w : database.world)
    : database.world * result interviews.results_reply :=
  interviews.get_interview_results_with_auto_cards
    exact.mean (bool_decide (is_Some card_generator)) card_generator matching_file now 1 w.

(** What a fetch shows of card generation: the reply's card information
    reduced to its kind and reason, the stored block's presence, and the
    number of generator invocations so far. *)
Definition observe (r : database.world * result interviews.results_reply)
    : option string * bool * nat :=
  (match r.2 with
   | Ok reply =>
       match interviews.card_generation reply with
       | Some (interviews.StoredBlock _) => Some "stored block"
       | Some (interviews.NotGenerated reason) => Some reason
       | Some (interviews.Generated _ _ _ _ _ _) => Some "cards_generated"
       | None => None
       end
   | Raise _ => None
   end,
   bool_decide (is_Some (stored_cards 1 r.1)),
   database.generator_calls r.1).
End cards.

(** ** The life of an interview

    Once [/start] has created an interview and its plan, two endpoints
    write to it: the submission of a response and the fetch of the
    results. *)

(** The numbers among the scores of some question rows, in row order. *)
Definition numbers_of_rows (rows : list database.interview_question.row) : list Q :=
  omap number_of_cell (interviews.scores_of rows).

(** Every one of the rows is answered and holds a number as its score. *)
Definition numerically_scored (rows : list database.interview_question.row) : Prop :=
  Forall (λ q, is_Some (database.interview_question.response q) ∧
               ∃ x, database.interview_question.score q = Some (database.Real x))
         rows.

(** Every one of the rows is answered and its score is not NULL. *)
Definition fully_scored (rows : list database.interview_question.row) : Prop :=
  Forall (λ q, is_Some (database.interview_question.response q) ∧
               is_Some (database.interview_question.score q))
         rows.

(** The rows of a skill among some question rows. *)
Definition rows_of_skill (skill : string) (rows : list database.interview_question.row)
    : list database.interview_question.row :=
  filter (λ q, database.interview_question.question_type q = skill) rows.

(** The interview as [/start] leaves it, whether the plan could be stored
    or not: its row exists, no rating is stored, and none of its questions
    has a response or a score. *)
Definition fresh_plan (interview_id : Z) (w : database.world) : Prop :=
  database.select_interview interview_id (database.db w) ≠ [] ∧
  stored_path interview_id w = ∅ ∧
  Forall (λ q, database.interview_question.response q = None ∧
               database.interview_question.score q = None)
         (database.questions_of interview_id (database.db w)).

(** The keys of the question rows are distinct ([PRIMARY KEY]). *)
Definition distinct_keys (w : database.world) : Prop :=
  NoDup (database.interview_question.id
           <$> database.interview_questions (database.db w)).

(** The stored ratings are in step with the question rows: a question
    without response has no score, every rated skill has a question, and a
    skill whose questions are all answered with numbers as scores is rated
    with the stars of the mean of these numbers. *)
Definition ratings_match (mean : list Q → Q)
    (rows : list database.interview_question.row) (stored : gmap string Z) : Prop :=
  (∀ q, q ∈ rows → database.interview_question.response q = None →
        database.interview_question.score q = None) ∧
  (∀ skill, is_Some (stored !! skill) → rows_of_skill skill rows ≠ []) ∧
  (∀ skill, rows_of_skill skill rows ≠ [] →
            numerically_scored (rows_of_skill skill rows) →
            stored !! skill
            = Some (interviews.convert_score_to_stars
                      (mean (Qred <$> numbers_of_rows (rows_of_skill skill rows))))).

Definition in_step (mean : list Q → Q) (interview_id : Z) (w : database.world) : Prop :=
  database.select_interview interview_id (database.db w) ≠ [] ∧
  distinct_keys w ∧
  ratings_match mean (database.questions_of interview_id (database.db w))
    (stored_path interview_id w).

Module api.
(** A request: the submission of a response, with the language-model
    service as it answers during the request, or a fetch of the results,
    with the card generator as it is during the request. *)
Inductive call :=
| SubmitResponse
    (evaluation_reply : string → string → string → string → groq_client.response)
    (now : string) (question_id : Z) (response : string)
| FetchResults
    (card_generator : option (nat → gmap string Z → interviews.generation))
    (now : string) (interview_id : Z).

Section serve.
Variable fenced_block : string → option string.
Variable loads_evaluation : string → json_doc response_evaluator.evaluation.
Variable numeric_text : string → option Q.
Variable mean : list Q → Q.
Variable round1 : Q → Q.
Variable CARD_GENERATION_AVAILABLE : bool.
Variable matching_file : list string → string → string → option string.

(** The state after a request, whatever it returned or raised. *)
Definition serve (w : database.world) (c : call) : database.world :=
  match c with
  | SubmitResponse evaluation_reply now question_id response =>
      (interviews.submit_skill_based_response
         fenced_block evaluation_reply loads_evaluation numeric_text mean round1
         now question_id response w).1
  | FetchResults card_generator now interview_id =>
      (interviews.get_interview_results_with_auto_cards
         mean CARD_GENERATION_AVAILABLE card_generator matching_file
         now interview_id w).1
  end.

Definition serve_all (calls : list call) (w : database.world) : database.world :=
  foldl serve w calls.
End serve.
End api.

(** Scenario: the four submissions of [journey.finished], with a fetch of
    the results after the second and after the last. *)
Definition journey_calls : list api.call :=
  [ api.SubmitResponse scripted.evaluation_reply "10:00" 1 "nine";
    api.SubmitResponse scripted.evaluation_reply "10:05" 2 "seven";
    api.FetchResults (Some cards.working) "10:07" 1;
    api.SubmitResponse scripted.evaluation_reply "10:10" 3 "seven";
    api.SubmitResponse scripted.evaluation_reply "10:15" 4 "nine";
    api.FetchResults (Some cards.working) "10:17" 1 ].

Definition journey_end : database.world :=
  api.serve_all scripted.fenced_block scripted.loads_evaluation sqlite.numeric_text
    exact.mean exact.round1 true cards.matching_file journey_calls scenario.started.

(** * Further definitions

    Notions used by the properties that go beyond the specification's
    sentences. *)

(** Some character of the text satisfies [P]. *)
Fixpoint has_char (P : ascii → bool) (s : string) : bool :=
  match s with
  | EmptyString => false
  | String c s' => P c || has_char P s'
  end.

Definition is_comma (c : ascii) : bool := bool_decide (c = ","%char).

(** The text does not begin with a blank. *)
Definition starts_clean (s : string) : Prop :=
  match s with
  | EmptyString => True
  | String c _ => py.isspace c = false
  end.

(** The columns of an interview row other than [feedback]. *)
Definition interview_columns (r : database.interview.row)
    : Z * string * string * string * option string :=
  (database.interview.id r, database.interview.candidate_name r,
   database.interview.skill_area r, database.interview.status r,
   database.interview.completed_at r).

(** The columns of a question row that are written once, at insertion. *)
Definition question_columns (r : database.interview_question.row)
    : Z * Z * string * string :=
  (database.interview_question.id r, database.interview_question.interview_id r,
   database.interview_question.question r, database.interview_question.question_type r).

(** The rating entries of a metadata document, none if the section is
    absent. *)
Definition ratings_of (m : database.metadata) : gmap string database.skill_rating :=
  default ∅ (database.skill_ratings m).

(** The sections of a metadata document other than ["skill_ratings"]. *)
Definition plan_sections (m : database.metadata) :=
  (database.skills_assessed m, database.questions_per_skill m,
   database.skill_question_map m, database.total_questions m,
   database.card_generation m).

(** The columns of an interview row that no request of the workflow
    writes. *)
Definition interview_identity (r : database.interview.row) : Z * string * string :=
  (database.interview.id r, database.interview.candidate_name r,
   database.interview.skill_area r).

(** What a submission for question [question_id] of interview
    [interview_id] may have written between two states: nothing of the
    other interviews, no identity column, no insertion-time column of a
    question, nothing of a question row with another key, and it did not
    invoke the card generator. *)
Definition submission_writes (question_id interview_id : Z) (w w' : database.world) : Prop :=
  database.generator_calls w' = database.generator_calls w ∧
  (∀ i, i ≠ interview_id →
        database.select_interview i (database.db w')
        = database.select_interview i (database.db w)) ∧
  interview_identity <$> database.interviews (database.db w')
  = interview_identity <$> database.interviews (database.db w) ∧
  question_columns <$> database.interview_questions (database.db w')
  = question_columns <$> database.interview_questions (database.db w) ∧
  filter (λ r, database.interview_question.id r ≠ question_id)
         (database.interview_questions (database.db w'))
  = filter (λ r, database.interview_question.id r ≠ question_id)
           (database.interview_questions (database.db w)).

(** The completion time stored for an interview. *)
Definition completed_at_of (interview_id : Z) (w : database.world) : option (option string) :=
  database.interview.completed_at
    <$> head (database.select_interview interview_id (database.db w)).

(** The metadata with the card-generation block set, all other sections
    as they were. *)
Definition with_card_generation (block : database.card_generation_block)
    (m : database.metadata) : database.metadata :=
  {| database.skills_assessed := database.skills_assessed m;
     database.questions_per_skill := database.questions_per_skill m;
     database.skill_question_map := database.skill_question_map m;
     database.total_questions := database.total_questions m;
     database.skill_ratings := database.skill_ratings m;
     database.card_generation := Some block |}.

(** The feedback column of an interview. *)
Definition feedback_of (interview_id : Z) (w : database.world)
    : option database.feedback_cell :=
  database.interview.feedback
    <$> head (database.select_interview interview_id (database.db w)).

(** What a results fetch for [interview_id] may have written between two
    states: no question row, no column of an interview other than the
    feedback of that interview.  That feedback is as it was, or it is the
    metadata document it held with a card-generation block set; a feedback
    that held no metadata document (NULL, or the text of an error) is then
    replaced by a document with that block alone.  The card generator was
    invoked at most once. *)
Definition fetch_writes (interview_id : Z) (w w' : database.world) : Prop :=
  database.interview_questions (database.db w')
  = database.interview_questions (database.db w) ∧
  interview_columns <$> database.interviews (database.db w')
  = interview_columns <$> database.interviews (database.db w) ∧
  (∀ i, i ≠ interview_id →
        database.select_interview i (database.db w')
        = database.select_interview i (database.db w)) ∧
  (feedback_of interview_id w' = feedback_of interview_id w ∨
   ∃ old block,
     feedback_of interview_id w = Some old ∧
     feedback_of interview_id w'
     = Some (database.Json (with_card_generation block (database.loads_feedback old)))) ∧
  database.generator_calls w ≤ database.generator_calls w'
  ≤ S (database.generator_calls w).

(** What the loop of [auto_generate_skill_cards] has produced after the
    entries [entries]: every entry is in exactly one of the two lists, the
    mapping has one key per file name found, and every card carries the
    rarity and description of its star rating. *)
Definition card_run_ok (matching_file : list string → string → string → option string)
    (new_files : list string) (entries : list (string * Z))
    (st : gmap string database.card * list database.generated_card
          * list database.failed_card) : Prop :=
  let '(cards, generated_cards, failed_cards) := st in
  (database.generated_skill <$> generated_cards)
    ++ (database.failed_skill <$> failed_cards) ≡ₚ entries.*1 ∧
  dom cards = list_to_set (database.file_name <$> generated_cards) ∧
  (∀ c, c ∈ generated_cards →
        (database.generated_skill c, database.generated_star_rating c) ∈ entries ∧
        database.generated_rarity c
        = interviews.rarity_mapping (database.generated_star_rating c) ∧
        database.generated_file_path c = "card_images/" +:+ database.file_name c ∧
        database.skill_description c
        = interviews.skill_description_of (database.generated_skill c)
            (database.generated_star_rating c) ∧
        matching_file new_files (database.generated_skill c) (database.generated_rarity c)
        = Some (database.file_name c)) ∧
  (∀ f, f ∈ failed_cards →
        (database.failed_skill f, database.failed_star_rating f) ∈ entries ∧
        matching_file new_files (database.failed_skill f)
          (interviews.rarity_mapping (database.failed_star_rating f)) = None).

(** The metadata entry that corresponds to a block of the plan: its size
    and the indices it spans. *)
Definition block_metadata (b : database.skill_block) : question_generator.skill_metadata :=
  {| question_generator.question_count := database.end_index b - database.start_index b;
     question_generator.question_indices :=
       seq (database.start_index b) (database.end_index b - database.start_index b) |}.

(** The metadata entry of the skill at position [j] when every skill gets
    [n] questions. *)
Definition metadata_at (n : Z) (j : nat) : question_generator.skill_metadata :=
  {| question_generator.question_count := Z.to_nat n;
     question_generator.question_indices := seq (Z.to_nat n * j) (Z.to_nat n) |}.

(** Whether the upstream evaluation of one item of a batch fails. *)
Definition item_failed
    (generate_response : string → string → string → string → groq_client.response)
    (json_loads : string → json_doc response_evaluator.evaluation)
    (fenced_block : string → option string) (job_description : string)
    (item : response_evaluator.question_response) : bool :=
  upstream_failed json_loads fenced_block
    (generate_response
       (default "general" (response_evaluator.item_type item)) job_description
       (default "" (response_evaluator.item_question item))
       (default "" (response_evaluator.item_response item))).

(** What the batch holds for one item. *)
Definition echoes (item : response_evaluator.question_response)
    (r : response_evaluator.evaluated_response) : Prop :=
  response_evaluator.evaluated_question r
    = default "" (response_evaluator.item_question item) ∧
  response_evaluator.evaluated_text r
    = default "" (response_evaluator.item_response item) ∧
  response_evaluator.evaluated_type r
    = default "general" (response_evaluator.item_type item) ∧
  ∃ d, response_evaluator.evaluated r = response_evaluator.with_required_fields d.

(** The proficiency level that goes with a star rating of an assessed
    skill. *)
Definition level_of_stars (stars : Z) : string :=
  if decide (stars = 5%Z) then "Expert"
  else if decide (stars = 4%Z) then "Advanced"
  else if decide (stars = 3%Z) then "Intermediate"
  else if decide (stars = 2%Z) then "Beginner"
  else "Novice".

(** Some item tagged with the skill carries a score that is not a
    number. *)
Definition badly_scored (skill : string)
    (evaluations : list rating_methods.evaluation_item) : Prop :=
  Exists (λ score, rating_methods.number_of score = None)
         (rating_methods.skill_evaluations skill evaluations).*1.

(** What an entry of ["individual_skills"] says about its skill: how many
    items count for it, their scores, and a star rating with its level. *)
Definition rates (evaluations : list rating_methods.evaluation_item)
    (entry : string * rating_methods.individual_skill) : Prop :=
  let scores := (rating_methods.skill_evaluations entry.1 evaluations).*1 in
  rating_methods.questions_answered entry.2 = length scores ∧
  json.Number <$> rating_methods.individual_scores entry.2 = scores ∧
  length (rating_methods.feedback entry.2) ≤ length scores ∧
  (1 <= rating_methods.star_rating entry.2 <= 5)%Z ∧
  rating_methods.proficiency_level entry.2
  = (if decide (scores = []) then "Not Assessed"
     else level_of_stars (rating_methods.star_rating entry.2)) ∧
  (scores = [] → rating_methods.star_rating entry.2 = 1%Z ∧
                 rating_methods.average_score entry.2 = 0%Q).

(** The skills of one proficiency level, in the order of the ratings. *)
Definition skills_at (level : string)
    (skill_ratings : list (string * rating_methods.individual_skill)) : list string :=
  (filter (λ entry : string * rating_methods.individual_skill,
             rating_methods.proficiency_level entry.2 = level) skill_ratings).*1.

(** The recommendation lines of a rated skill. *)
Definition strength_line (entry : string * rating_methods.individual_skill)
    : option string :=
  if (4 <=? rating_methods.star_rating entry.2)%Z then
    Some ("Strong proficiency in " +:+ entry.1 +:+ " ("
            +:+ pretty (rating_methods.star_rating entry.2) +:+ "/5 stars)")
  else None.

Definition improvement_line (entry : string * rating_methods.individual_skill)
    : option string :=
  if (rating_methods.star_rating entry.2 <=? 2)%Z then
    Some (entry.1 +:+ " needs development ("
            +:+ pretty (rating_methods.star_rating entry.2) +:+ "/5 stars)")
  else None.

Definition focus_line (entry : string * rating_methods.individual_skill)
    : option string :=
  let level := rating_methods.proficiency_level entry.2 in
  if decide (level = "Expert") then Some ("Consider mentoring others in " +:+ entry.1)
  else if decide (level = "Beginner") then
    Some ("Invest time in foundational learning for " +:+ entry.1)
  else if decide (level = "Intermediate") then
    Some ("Practice advanced applications of " +:+ entry.1)
  else None.

(** The focus suggestion in terms of the star rating: an assessed skill
    with 5, 2 or 3 stars has one. *)
Definition focus_by_stars (entry : string * rating_methods.individual_skill)
    : option string :=
  let stars := rating_methods.star_rating entry.2 in
  if decide (rating_methods.questions_answered entry.2 = 0) then None
  else if decide (stars = 5%Z) then Some ("Consider mentoring others in " +:+ entry.1)
  else if decide (stars = 2%Z) then
    Some ("Invest time in foundational learning for " +:+ entry.1)
  else if decide (stars = 3%Z) then
    Some ("Practice advanced applications of " +:+ entry.1)
  else None.

(** A skill of the metadata with at least one item that counts for it. *)
Definition assessed (evaluations : list rating_methods.evaluation_item)
    (entry : string * question_generator.skill_metadata) : Prop :=
  rating_methods.skill_evaluations entry.1 evaluations ≠ [].

(** * Properties *)

(** ** Scoring policy *)

Lemma Qle_bool_false (x y : Q) : Qle_bool x y = false → (y < x)%Q.
Proof.
  intros H. apply Qnot_le_lt. intros Hle.
  apply Qle_bool_iff in Hle. congruence.
Qed.

(** C1.  For every score the two implementations of the scoring policy
    return the same star rating, and rating and proficiency label are the
    ones of the band the score lies in: 5/Expert from 9, 4/Advanced from 7,
    3/Intermediate from 5, 2/Beginner from 3, 1/Novice below 3. *)
Theorem scoring_policy_bands (s : Q) :
  let stars := question_generator._convert_score_to_stars s in
  let level := question_generator._determine_proficiency_level s in
  interviews.convert_score_to_stars s = stars ∧
  ((9 <= s)%Q ∧ stars = 5%Z ∧ level = "Expert" ∨
   (7 <= s < 9)%Q ∧ stars = 4%Z ∧ level = "Advanced" ∨
   (5 <= s < 7)%Q ∧ stars = 3%Z ∧ level = "Intermediate" ∨
   (3 <= s < 5)%Q ∧ stars = 2%Z ∧ level = "Beginner" ∨
   (s < 3)%Q ∧ stars = 1%Z ∧ level = "Novice").
Proof.
  cbv zeta. split; [reflexivity|].
  unfold question_generator._convert_score_to_stars,
    question_generator._determine_proficiency_level.
  destruct (Qle_bool 9 s) eqn:H9.
  { left. apply Qle_bool_iff in H9. auto. }
  apply Qle_bool_false in H9.
  destruct (Qle_bool 7 s) eqn:H7.
  { right; left. apply Qle_bool_iff in H7. auto. }
  apply Qle_bool_false in H7.
  destruct (Qle_bool 5 s) eqn:H5.
  { right; right; left. apply Qle_bool_iff in H5. auto. }
  apply Qle_bool_false in H5.
  destruct (Qle_bool 3 s) eqn:H3.
  { right; right; right; left. apply Qle_bool_iff in H3. auto. }
  apply Qle_bool_false in H3.
  right; right; right; right. auto.
Qed.

(** The sample points of the specification. *)
Example scoring_policy_samples :
  interviews.convert_score_to_stars <$> [9; 8999 # 1000; 7; 6999 # 1000; 5; 3; 2999 # 1000]%Q
  = [5; 4; 4; 3; 3; 2; 1]%Z.
Proof. reflexivity. Qed.

(** ** Skill parsing *)

Section first_seen_order.
Implicit Types (skills : list string) (skill : string).

Lemma list_omap_ext_elem {A B} (f g : A → option B) (l : list A) :
  (∀ x, x ∈ l → f x = g x) → omap f l = omap g l.
Proof.
  induction l as [|a l IH]; intros Hfg; [done|].
  cbn. rewrite (Hfg a) by constructor.
  rewrite IH; [done|]. intros x Hx. apply Hfg. by constructor.
Qed.

Lemma first_seen_order_snoc skills skill :
  first_seen_order (skills ++ [skill]) =
  first_seen_order skills ++
    (if decide (py.lower skill ∈ py.lower <$> skills) then [] else [skill]).
Proof.
  unfold first_seen_order.
  rewrite imap_app, omap_app. f_equal.
  - apply list_omap_ext_elem. intros [i x] Hix.
    apply elem_of_lookup_imap in Hix as (j & y & [= -> ->] & Hj).
    apply lookup_lt_Some in Hj.
    by rewrite take_app_le by lia.
  - cbn. rewrite Nat.add_0_r, take_app_length.
    by destruct (decide _).
Qed.

Lemma first_seen_order_subseteq skills : first_seen_order skills ⊆ skills.
Proof.
  induction skills as [|skill skills IH] using rev_ind; [done|].
  rewrite first_seen_order_snoc. destruct (decide _); set_solver.
Qed.

Lemma first_seen_order_NoDup skills : NoDup (py.lower <$> first_seen_order skills).
Proof.
  induction skills as [|skill skills IH] using rev_ind; [constructor|].
  rewrite first_seen_order_snoc. destruct (decide _) as [|Hnew].
  - by rewrite app_nil_r.
  - rewrite fmap_app. apply NoDup_app. split_and!; [done| |apply NoDup_singleton].
    intros k Hk Hk'. apply list_elem_of_singleton in Hk' as ->.
    apply Hnew. apply list_elem_of_fmap in Hk as (y & -> & Hy).
    apply list_elem_of_fmap. exists y. split; [done|].
    by apply first_seen_order_subseteq.
Qed.

Lemma first_seen_order_covers skills skill :
  skill ∈ skills → py.lower skill ∈ py.lower <$> first_seen_order skills.
Proof.
  revert skill.
  induction skills as [|x skills IH] using rev_ind; intros skill Hin.
  { by apply elem_of_nil in Hin. }
  rewrite first_seen_order_snoc, fmap_app.
  apply elem_of_app in Hin as [Hin|Hin].
  - apply elem_of_app. left. by apply IH.
  - apply list_elem_of_singleton in Hin as ->.
    apply elem_of_app. destruct (decide _) as [Hseen|Hnew].
    + left. apply list_elem_of_fmap in Hseen as (y & -> & Hy). by apply IH.
    + right. cbn. by apply list_elem_of_singleton.
Qed.

(** The loop of [parse_skills] from any point on: [seen] holds the
    normalized names of the items read so far, [unique_skills] their
    first-seen order. *)
Lemma parse_skills_loop done_ todo :
  foldl question_generator.parse_skills_step
        (list_to_set (py.lower <$> done_), first_seen_order done_) todo
  = (list_to_set (py.lower <$> (done_ ++ todo)), first_seen_order (done_ ++ todo)).
Proof.
  revert done_. induction todo as [|skill todo IH]; intros done_.
  { by rewrite app_nil_r. }
  cbn [foldl].
  replace (done_ ++ skill :: todo) with ((done_ ++ [skill]) ++ todo)
    by (by rewrite <- app_assoc).
  rewrite <- IH. f_equal.
  unfold question_generator.parse_skills_step.
  rewrite first_seen_order_snoc, fmap_app, list_to_set_app_L.
  destruct (decide (py.lower skill ∈ _)) as [Hseen|Hnew].
  - rewrite decide_True by (by apply elem_of_list_to_set in Hseen).
    rewrite app_nil_r. f_equal. cbn. set_solver.
  - rewrite decide_False by (by rewrite elem_of_list_to_set in Hnew).
    f_equal. cbn. set_solver.
Qed.

Lemma parse_skills_nonempty skills_input :
  skills_input ≠ "" →
  question_generator.parse_skills skills_input
  = first_seen_order (stripped_items skills_input).
Proof.
  intros Hne. unfold question_generator.parse_skills.
  destruct skills_input as [|c s]; [done|]. cbn [py.truthy negb].
  change (∅ : gset string, @nil string)
    with (list_to_set (py.lower <$> []) : gset string, first_seen_order []).
  by rewrite parse_skills_loop.
Qed.
End first_seen_order.

(** C5.  For every input, the parsed skill list has no two entries with the
    same lower-case form, holds the lower-case form of every non-blank item
    of the input, and is the list of the items in first-seen order with the
    spelling of their first occurrence (the empty input alone gives the
    default list instead); the example of the specification parses to
    Python, Cooking. *)
Theorem parse_skills_first_seen (skills_input : string) :
  let out := question_generator.parse_skills skills_input in
  NoDup (py.lower <$> out) ∧
  (∀ skill, skill ∈ stripped_items skills_input → py.lower skill ∈ py.lower <$> out) ∧
  (out = first_seen_order (stripped_items skills_input) ∨
   skills_input = "" ∧ out = ["general skills"]) ∧
  question_generator.parse_skills "Python, python , Cooking,Python" = ["Python"; "Cooking"].
Proof.
  cbv zeta. destruct (decide (skills_input = "")) as [->|Hne].
  - split_and!; [apply NoDup_singleton| |by right|by vm_compute].
    intros skill Hin. vm_compute in Hin. by apply elem_of_nil in Hin.
  - rewrite parse_skills_nonempty by done.
    split_and!; [apply first_seen_order_NoDup| |by left|by vm_compute].
    intros skill. apply first_seen_order_covers.
Qed.

Lemma only_blanks_no_comma s :
  only_blanks s = true → py.split_comma s = [s].
Proof.
  unfold py.split_comma. induction s as [|c s IH]; [done|].
  cbn. intros [Hc Hs]%andb_prop. rewrite IH by done.
  rewrite bool_decide_eq_false_2; [done|]. intros ->. by vm_compute in Hc.
Qed.

Lemma only_blanks_lstrip s : only_blanks s = true → py.lstrip s = "".
Proof.
  induction s as [|c s IH]; [done|].
  cbn. intros [Hc Hs]%andb_prop. rewrite Hc. by apply IH.
Qed.

Lemma parse_skills_blank s :
  s ≠ "" → only_blanks s = true → question_generator.parse_skills s = [].
Proof.
  intros Hne Hs. rewrite parse_skills_nonempty by done.
  unfold stripped_items. rewrite only_blanks_no_comma by done.
  cbn. unfold py.strip. by rewrite only_blanks_lstrip.
Qed.

(** C7.  The empty input gives the default list, but an input of blanks
    gives the empty list: the default is chosen before the items are
    stripped, by the truth value of the raw input. *)
Theorem parse_skills_whitespace_only :
  question_generator.parse_skills "" = ["general skills"] ∧
  question_generator.parse_skills "   " = [] ∧
  question_generator.parse_skills " , ," = [].
Proof. by vm_compute. Qed.

(** ** Evaluation fallback *)

Section evaluator_facts.
Variable generate_response : string → string → string → string → groq_client.response.
Variable json_loads : string → json_doc response_evaluator.evaluation.
Variable fenced_block : string → option string.

(** The heuristic itself, given the candidate's text, is well formed: a
    score among 2, 4, 6, 7, 8 that depends on the word count only, and the
    [error] field set. *)
Lemma default_evaluation_text question response raw :
  ∃ e, response_evaluator._default_evaluation question
         (response_evaluator.Text response) raw = Ok e ∧
       response_evaluator.score e = Some (json.Number (heuristic_score response)) ∧
       (1 <= heuristic_score response <= 10)%Q ∧
       response_evaluator.error e = Some "LLM evaluation failed" ∧
       response_evaluator.raw_llm_response e = Some raw.
Proof.
  eexists. split; [reflexivity|]. cbn. split_and!; try done;
    unfold heuristic_score; repeat case_match; by vm_compute.
Qed.

(** Given the client's reply instead, its first statement raises. *)
Lemma default_evaluation_reply question reply raw :
  response_evaluator._default_evaluation question (response_evaluator.Reply reply) raw
  = Raise (py.AttributeError "'dict' object has no attribute 'split'").
Proof. reflexivity. Qed.

(** Whenever the upstream evaluation fails, [evaluate_response] raises:
    every failure path ends in [_default_evaluation] applied to the
    rebound [response]. *)
Lemma evaluate_response_failure_raises question response job_description question_type :
  upstream_failed json_loads fenced_block
    (generate_response question_type job_description question response) = true →
  response_evaluator.evaluate_response generate_response json_loads fenced_block
    question response job_description question_type
  = Raise (py.AttributeError "'dict' object has no attribute 'split'").
Proof.
  unfold response_evaluator.evaluate_response, response_evaluator.evaluate_response_try,
    upstream_failed.
  destruct (generate_response _ _ _ _) as [msg|content|]; cbn; [done| |done].
  destruct (json_loads content); cbn; [|done|done].
  destruct (fenced_block content) as [inner|]; cbn; [|done].
  by destruct (json_loads inner).
Qed.

(** Otherwise it returns the decoded object with its required fields. *)
Lemma evaluate_response_success question response job_description question_type :
  upstream_failed json_loads fenced_block
    (generate_response question_type job_description question response) = false →
  ∃ r, response_evaluator.evaluate_response generate_response json_loads fenced_block
         question response job_description question_type
       = Ok (response_evaluator.with_required_fields r).
Proof.
  unfold response_evaluator.evaluate_response, response_evaluator.evaluate_response_try,
    upstream_failed.
  destruct (generate_response _ _ _ _) as [msg|content|]; cbn; [done| |done].
  destruct (json_loads content) as [| |r]; cbn; [|done|by eauto].
  destruct (fenced_block content) as [inner|]; cbn; [|done].
  destruct (json_loads inner) as [| |r]; cbn; by eauto.
Qed.

(** The service wrapper turns the exception into a fixed score of 5 whose
    payload has no [error] field. *)
Lemma evaluate_skill_response_failure question response skill question_type :
  upstream_failed json_loads fenced_block
    (generate_response question_type (interview_service.skill_context skill)
       question response) = true →
  let r := interview_service.evaluate_skill_response
             generate_response json_loads fenced_block
             question response skill question_type in
  interview_service.success r = false ∧
  ∃ e, interview_service.evaluation r = Some e ∧
       response_evaluator.score e = Some (json.Number 5) ∧
       response_evaluator.error e = None.
Proof.
  intros Hfail. cbv zeta. unfold interview_service.evaluate_skill_response.
  rewrite evaluate_response_failure_raises by done. cbn. eauto.
Qed.
End evaluator_facts.

(** C2.  With the evaluation service down, [evaluate_response] does not
    return the length heuristic for a nine-word and a twelve-word answer: it
    raises, because the fallback is handed the client's reply in place of
    the answer.  The service wrapper then stores the fixed score 5 for both,
    without an [error] field, where the heuristic gives 2 and 4. *)
Theorem evaluate_response_fallback_raises :
  let short := "I have used joins in a few small projects" in
  let long := "I have used inner and outer joins daily for about five years" in
  let evaluate_response :=
    response_evaluator.evaluate_response upstream_down.evaluation_reply
      upstream_down.loads_evaluation upstream_down.fenced_block in
  let evaluate_skill_response :=
    interview_service.evaluate_skill_response upstream_down.evaluation_reply
      upstream_down.loads_evaluation upstream_down.fenced_block in
  let stored response :=
    e ← interview_service.evaluation
          (evaluate_skill_response "What is a join?" response "SQL" "skill_specific");
    Some (response_evaluator.score e, response_evaluator.error e) in
  evaluate_response "What is a join?" short "" "general"
    = Raise (py.AttributeError "'dict' object has no attribute 'split'") ∧
  evaluate_response "What is a join?" long "" "general"
    = Raise (py.AttributeError "'dict' object has no attribute 'split'") ∧
  (heuristic_score short, heuristic_score long) = (2%Q, 4%Q) ∧
  stored short = Some (Some (json.Number 5), None) ∧
  stored long = Some (Some (json.Number 5), None).
Proof. by vm_compute. Qed.

(** ** Question plan *)

Section plan_facts.
Variable questions_reply : string → string → Z → groq_client.response.
Variable loads_questions : string → json_doc (list json.value).
Variable fenced_block : string → option string.
Variable listed_questions : string → list string.

Abbreviation generate_skill_specific_questions :=
  (question_generator.generate_skill_specific_questions
     questions_reply loads_questions fenced_block listed_questions).
Abbreviation plan_step :=
  (interviews.plan_step questions_reply loads_questions fenced_block listed_questions).
Abbreviation plan :=
  (interviews.plan questions_reply loads_questions fenced_block listed_questions).

Lemma fallback_tags skill n :
  tags_of (question_generator._fallback_skill_questions skill n) = batch_tags skill n.
Proof.
  unfold tags_of, question_generator._fallback_skill_questions, batch_tags.
  by rewrite <- list_fmap_compose.
Qed.

Lemma skill_questions_of_tags skill n questions :
  (0 <= n)%Z → question_generator.enough n questions = true →
  tags_of (question_generator.skill_questions_of skill n questions) = batch_tags skill n.
Proof.
  unfold question_generator.enough, question_generator.skill_questions_of,
    tags_of, batch_tags, py.slice_to.
  intros Hn Hlen%Z.leb_le.
  rewrite (proj2 (Z.leb_le 0 n)) by done.
  rewrite fmap_imap.
  rewrite (imap_seq_0 _ (λ i, (skill, (Z.of_nat i + 1)%Z))).
  rewrite length_take. do 2 f_equal. lia.
Qed.

Lemma enough_texts n (questions : list string) :
  question_generator.enough n (json.String <$> questions)
  = question_generator.enough n questions.
Proof. unfold question_generator.enough. by rewrite length_fmap. Qed.

(** Whatever the upstream returns, a batch has exactly the requested
    number of questions, tagged with the skill and numbered from 1. *)
Lemma generate_skill_specific_questions_tags skill job_description n :
  (0 <= n)%Z →
  tags_of (generate_skill_specific_questions skill job_description n)
  = batch_tags skill n.
Proof.
  intros Hn. unfold question_generator.generate_skill_specific_questions.
  repeat case_match; simplify_eq;
    auto using fallback_tags, skill_questions_of_tags;
    apply skill_questions_of_tags; by rewrite ?enough_texts.
Qed.

Lemma batch_tags_length skill n : length (batch_tags skill n) = Z.to_nat n.
Proof. unfold batch_tags. by rewrite length_fmap, length_seq. Qed.

Lemma generate_skill_specific_questions_length skill job_description n :
  (0 <= n)%Z →
  length (generate_skill_specific_questions skill job_description n) = Z.to_nat n.
Proof.
  intros Hn.
  rewrite <- (batch_tags_length skill n),
    <- (generate_skill_specific_questions_tags skill job_description n Hn).
  unfold tags_of. by rewrite length_fmap.
Qed.

Section fold.
Variable job_description : string.
Variable n : Z.
Hypothesis n_nonneg : (0 <= n)%Z.

Abbreviation run := (foldl (plan_step job_description n) ([], ∅)).

Lemma plan_snoc skill_list skill :
  run (skill_list ++ [skill]) = plan_step job_description n (run skill_list) skill.
Proof. by rewrite foldl_app. Qed.

Lemma plan_length skill_list :
  length (run skill_list).1 = Z.to_nat n * length skill_list.
Proof.
  induction skill_list as [|skill skill_list IH] using rev_ind; [cbn; lia|].
  rewrite plan_snoc. destruct (run skill_list) as [all_questions m].
  cbn in *. rewrite !length_app, IH, generate_skill_specific_questions_length by done.
  cbn. lia.
Qed.

Lemma plan_map_snoc skill_list skill :
  (run (skill_list ++ [skill])).2
  = <[skill := block_at n (length skill_list)]> (run skill_list).2.
Proof.
  rewrite plan_snoc. pose proof (plan_length skill_list) as Hlen.
  destruct (run skill_list) as [all_questions m]. cbn in *.
  f_equal. unfold block_at. f_equal.
  - done.
  - rewrite length_app, Hlen, generate_skill_specific_questions_length by done. lia.
Qed.

Lemma plan_tags skill_list :
  tags_of (run skill_list).1 = skill_list ≫= (λ skill, batch_tags skill n).
Proof.
  induction skill_list as [|skill skill_list IH] using rev_ind; [done|].
  rewrite plan_snoc. destruct (run skill_list) as [all_questions m].
  cbn in *. unfold tags_of in *. rewrite fmap_app, IH, bind_app.
  f_equal. cbn. rewrite app_nil_r.
  by apply generate_skill_specific_questions_tags.
Qed.

(** The map entry of a skill describes its last occurrence. *)
Lemma plan_map_last before skill after :
  skill ∉ after →
  (run (before ++ skill :: after)).2 !! skill = Some (block_at n (length before)).
Proof.
  induction after as [|x after IH] using rev_ind; intros Hnotin.
  - rewrite plan_map_snoc. by rewrite lookup_insert_eq.
  - replace (before ++ skill :: after ++ [x]) with ((before ++ skill :: after) ++ [x])
      by (by rewrite <- app_assoc).
    rewrite plan_map_snoc, lookup_insert_ne; [apply IH|]; set_solver.
Qed.

(** Every entry of the map is the block of a last occurrence. *)
Lemma plan_map_entries skill_list skill b :
  (run skill_list).2 !! skill = Some b →
  ∃ j, skill_list !! j = Some skill ∧ (skill ∉ drop (S j) skill_list) ∧ b = block_at n j.
Proof.
  revert b. induction skill_list as [|x skill_list IH] using rev_ind; intros b.
  { cbn. by rewrite lookup_empty. }
  rewrite plan_map_snoc. destruct (decide (x = skill)) as [->|Hne].
  - rewrite lookup_insert_eq. intros [= <-]. exists (length skill_list).
    split_and!; [by rewrite lookup_app_r, Nat.sub_diag by lia| |done].
    rewrite drop_ge by (rewrite length_app; cbn; lia). apply not_elem_of_nil.
  - rewrite lookup_insert_ne by done. intros (j & Hj & Hlast & ->)%IH.
    exists j. split_and!; [by apply lookup_app_l_Some| |done].
    pose proof (lookup_lt_Some _ _ _ Hj).
    rewrite drop_app_le by lia. set_solver.
Qed.
End fold.

End plan_facts.

(** ** Requests on the tables *)

Section request_facts.
Import database.

Lemma filter_fmap_commute {A} (P : A → Prop) `{!∀ x, Decision (P x)} (g : A → A)
    (l : list A) :
  (∀ x, P (g x) ↔ P x) → filter P (g <$> l) = g <$> filter P l.
Proof.
  intros Hg. induction l as [|a l IH]; [done|].
  cbn [fmap list_fmap]. rewrite !filter_cons.
  destruct (decide (P (g a))) as [Hga|Hga], (decide (P a)) as [Ha|Ha];
    cbn [fmap list_fmap]; rewrite ?IH; try done; exfalso; naive_solver.
Qed.

Lemma filter_all {A} (P : A → Prop) `{!∀ x, Decision (P x)} (l : list A) :
  (∀ x, x ∈ l → P x) → filter P l = l.
Proof.
  induction l as [|a l IH]; intros Hall; [done|].
  rewrite filter_cons_True by (apply Hall; left).
  rewrite IH; [done|]. intros x Hx. apply Hall. by right.
Qed.

Lemma filter_length_eq {A} (P : A → Prop) `{!∀ x, Decision (P x)} (l : list A) :
  length (filter P l) = length l → filter P l = l.
Proof.
  induction l as [|a l IH]; [done|]. rewrite filter_cons.
  destruct (decide (P a)); cbn [length].
  - intros [= Hlen]. by rewrite IH.
  - intros Hlen. pose proof (length_filter P l). lia.
Qed.

(** Updating question rows leaves the interviews alone, and conversely. *)
Lemma interviews_update_question question_id f t :
  interviews (update_question question_id f t) = interviews t.
Proof. done. Qed.

Lemma questions_update_interview interview_id f t :
  interview_questions (update_interview interview_id f t) = interview_questions t.
Proof. done. Qed.

Lemma select_interview_update_question interview_id question_id f t :
  select_interview interview_id (update_question question_id f t)
  = select_interview interview_id t.
Proof. done. Qed.

(** An interview update that keeps the keys acts row by row on a
    selection. *)
Lemma select_interview_update interview_id i f t :
  (∀ r, interview.id (f r) = interview.id r) →
  select_interview interview_id (update_interview i f t)
  = (λ r, if decide (interview.id r = i) then f r else r) <$> select_interview interview_id t.
Proof.
  intros Hf. unfold select_interview, update_interview. cbn.
  apply filter_fmap_commute. intros r. destruct (decide _); by rewrite ?Hf.
Qed.

Lemma status_of_update_question interview_id question_id f w :
  status_of interview_id (with_db (update_question question_id f) w)
  = status_of interview_id w.
Proof. done. Qed.

Lemma status_of_set_feedback interview_id i c w :
  status_of interview_id
    (with_db (update_interview i (interview.set_feedback c)) w)
  = status_of interview_id w.
Proof.
  unfold status_of, with_db. cbn [db]. rewrite select_interview_update by done.
  destruct (select_interview interview_id (db w)) as [|r l]; [done|].
  cbn. by destruct (decide _).
Qed.

Lemma status_of_set_completed interview_id i now w :
  status_of interview_id
    (with_db (update_interview i
                (λ r, interview.set_status "completed" (interview.set_completed_at now r)))
             w)
  = if decide (interview_id = i)
    then (λ _, "completed") <$> status_of interview_id w
    else status_of interview_id w.
Proof.
  unfold status_of, with_db. cbn [db]. rewrite select_interview_update by done.
  destruct (select_interview interview_id (db w)) as [|r l] eqn:Hsel.
  { by destruct (decide _). }
  assert (interview.id r = interview_id) as Hr.
  { assert (r ∈ select_interview interview_id (db w)) as Hin by (rewrite Hsel; left).
    by apply list_elem_of_filter in Hin as [? _]. }
  cbn. rewrite Hr. by destruct (decide _).
Qed.

Lemma select_interview_id interview_id t r :
  r ∈ select_interview interview_id t → interview.id r = interview_id.
Proof. by intros [? _]%list_elem_of_filter. Qed.

(** The first row of an interview after an update of that interview. *)
Lemma head_select_interview_update interview_id f t r rest :
  (∀ r, interview.id (f r) = interview.id r) →
  select_interview interview_id t = r :: rest →
  head (select_interview interview_id (update_interview interview_id f t)) = Some (f r).
Proof.
  intros Hf Hsel. rewrite select_interview_update, Hsel by done. cbn.
  rewrite decide_True; [done|].
  apply (select_interview_id interview_id t). rewrite Hsel. left.
Qed.

Global Instance completed_preserved_preorder : PreOrder completed_preserved.
Proof.
  split; [by intros w i|].
  intros w1 w2 w3 H12 H23 i Hi. by apply H23, H12.
Qed.
End request_facts.

(** ** Storing the plan *)

Section store_facts.
Import database.
Variable number_text : Q → string.

Abbreviation store_questions := (interviews.store_questions number_text).
Abbreviation store_question := (interviews.store_question number_text).
Abbreviation binds q :=
  (bind_question number_text (question_generator.question q)).

(** What a stored question row shows of the plan. *)
Abbreviation row_summary :=
  (λ r : interview_question.row,
     (interview_question.interview_id r, interview_question.question_type r,
      interview_question.evaluation r)).

Lemma appended_rows_app w w' rows :
  interview_questions (db w') = interview_questions (db w) ++ rows →
  appended_rows w w' = row_summary <$> rows.
Proof. intros Hrows. unfold appended_rows. by rewrite Hrows, drop_app_length. Qed.

Lemma store_questions_snoc interview_id all_questions q w :
  store_questions interview_id (all_questions ++ [q]) w
  = match store_questions interview_id all_questions w with
    | (w1, Ok _) => store_question interview_id (length all_questions) q w1
    | (w1, Raise e) => (w1, Raise e)
    end.
Proof.
  unfold interviews.store_questions. rewrite imap_app.
  rewrite (foldl_app (A:=request unit)). cbn [imap foldl].
  rewrite Nat.add_0_r. unfold bind at 1.
  done.
Qed.

(** The loop that stores the plan inserts the questions in order, each with
    its skill as question type and its plan entry, and stops at the first
    question that cannot be bound. *)
Lemma store_questions_rows interview_id all_questions w :
  let '(w', outcome) := store_questions interview_id all_questions w in
  interviews (db w') = interviews (db w) ∧
  generator_calls w' = generator_calls w ∧
  ∃ k rows,
    interview_questions (db w') = interview_questions (db w) ++ rows ∧
    row_summary <$> rows
    = imap (plan_row interview_id) (tags_of (take k all_questions)) ∧
    Forall (λ q, ∃ text, binds q = Ok text) (take k all_questions) ∧
    match outcome with
    | Ok _ => k = length all_questions
    | Raise e => ∃ q, all_questions !! k = Some q ∧ binds q = Raise e
    end.
Proof.
  induction all_questions as [|q all_questions IH] using rev_ind.
  { cbn. split_and!; [done..|]. exists 0, []. by rewrite app_nil_r. }
  rewrite store_questions_snoc.
  destruct (store_questions interview_id all_questions w) as [w1 [[]|e]].
  - destruct IH as (Hi & Hc & k & rows & Hrows & Hsum & Hbinds & ->).
    rewrite firstn_all in Hsum, Hbinds.
    unfold interviews.store_question, bind, lift, execute.
    destruct (binds q) as [text|e] eqn:Hq.
    + cbn [fst snd db with_db interviews generator_calls insert_question
           interview_questions].
      split_and!; [done..|].
      eexists (length (all_questions ++ [q])), _. rewrite firstn_all.
      split_and!; [by rewrite Hrows, <- app_assoc| | |done].
      * unfold tags_of in *. rewrite !fmap_app, imap_app, Hsum. cbn.
        by rewrite length_fmap, Nat.add_0_r.
      * apply Forall_app. split; [done|]. repeat constructor. by eauto.
    + cbn [fst snd]. split_and!; [done..|].
      exists (length all_questions), rows.
      rewrite take_app_length. split_and!; [done..|].
      exists q. by rewrite lookup_app_r, Nat.sub_diag by lia.
  - destruct IH as (Hi & Hc & k & rows & Hrows & Hsum & Hbinds & q' & Hq' & He).
    pose proof (lookup_lt_Some _ _ _ Hq') as Hk.
    split_and!; [done..|]. exists k, rows.
    rewrite take_app_le by lia. split_and!; [done..|].
    exists q'. split; [|done]. by apply lookup_app_l_Some.
Qed.
End store_facts.

Section plan_claims.
Import database.
Variable questions_reply : string → string → Z → groq_client.response.
Variable loads_questions : string → json_doc (list json.value).
Variable fenced_block : string → option string.
Variable listed_questions : string → list string.
Variable number_text : Q → string.

Abbreviation plan :=
  (interviews.plan questions_reply loads_questions fenced_block listed_questions).
Abbreviation generate :=
  (interviews.generate_skill_based_questions
     questions_reply loads_questions fenced_block listed_questions number_text).

(** [generate_skill_based_questions], outcome by outcome. *)
Lemma generate_unfold interview_id skills skill_area n w :
  generate interview_id skills skill_area n w
  = match interviews.store_questions number_text interview_id (plan skills n).1 w with
    | (w1, Ok _) =>
        (with_db (update_interview interview_id
                    (λ r, interview.set_status "active"
                            (interview.set_feedback
                               (Json (plan_metadata skills n (plan skills n))) r)))
                 w1, Ok tt)
    | (w1, Raise e) =>
        (with_db (update_interview interview_id
                    (λ r, interview.set_status "error"
                            (interview.set_feedback
                               (Text ("Error generating questions: "
                                        +:+ interview_service.str_of_exn e)) r)))
                 w1,
         Raise (py.Exception ("Failed to generate skill-based questions: "
                                +:+ interview_service.str_of_exn e)))
    end.
Proof.
  unfold interviews.generate_skill_based_questions, try_except, plan_metadata.
  destruct (plan skills n) as [all_questions skill_question_map].
  unfold bind at 1. cbn [fst snd].
  by destruct (interviews.store_questions _ _ _ _) as [w1 [[]|e]].
Qed.

(** What the entry point leaves in the tables: the questions of the plan in
    order, all of them when it returns, those before the first question that
    cannot be bound when it raises; and the status and the feedback of
    the interview, if it exists. *)
Lemma generate_stores interview_id skills skill_area n w :
  let '(w', outcome) := generate interview_id skills skill_area n w in
  ∃ k,
    appended_rows w w'
    = imap (plan_row interview_id) (tags_of (take k (plan skills n).1)) ∧
    match outcome with
    | Ok _ =>
        k = length (plan skills n).1 ∧
        status_of interview_id w'
        = (λ _, "active") <$> status_of interview_id w ∧
        metadata_of interview_id w'
        = (λ _, plan_metadata skills n (plan skills n)) <$> status_of interview_id w
    | Raise _ =>
        (∃ q, (plan skills n).1 !! k = Some q ∧
              ∀ text, bind_question number_text (question_generator.question q)
                      ≠ Ok text) ∧
        status_of interview_id w'
        = (λ _, "error") <$> status_of interview_id w ∧
        metadata_of interview_id w' = None
    end.
Proof.
  rewrite generate_unfold.
  pose proof (store_questions_rows number_text interview_id (plan skills n).1 w) as H.
  destruct (interviews.store_questions _ _ _ _) as [w1 outcome].
  destruct H as (Hi & _ & k & rows & Hrows & Hsum & _ & Hout).
  assert (select_interview interview_id (db w1) = select_interview interview_id (db w))
    as Hsel by (unfold select_interview; by rewrite Hi).
  unfold status_of, metadata_of.
  destruct outcome as [[]|e]; exists k; (split; [by rewrite <- Hsum; apply appended_rows_app|]).
  - split; [done|]. unfold with_db. cbn [db].
    destruct (select_interview interview_id (db w)) as [|r rest] eqn:Hw.
    + rewrite select_interview_update, Hsel by done. done.
    + rewrite (head_select_interview_update _ _ _ r rest) by (by rewrite ?Hsel). done.
  - destruct Hout as (q & Hq & He). split.
    { exists q. split; [done|]. intros text. by rewrite He. }
    unfold with_db. cbn [db].
    destruct (select_interview interview_id (db w)) as [|r rest] eqn:Hw.
    + rewrite select_interview_update, Hsel by done. done.
    + rewrite (head_select_interview_update _ _ _ r rest) by (by rewrite ?Hsel). done.
Qed.

(** C6.  For the skills "SQL,Excel" with two questions per skill, whatever
    the question service returns, the plan has exactly 4 questions, the
    first two on SQL and the last two on Excel, and the blocks of the
    skill-question map span the positions 1, 2 for SQL and 3, 4 for Excel
    of the global question list, counted from 1; the map holds them as
    [start_index] 0, [end_index] 2 and [start_index] 2, [end_index] 4.
    When the entry point returns, it has stored these four questions in
    this order, with the global orders 1, 2 for SQL and 3, 4 for Excel,
    and this map in the metadata of the interview; it raises only when a
    question of the plan cannot be stored. *)
Theorem plan_sql_excel (skill_area : string) (interview_id : Z) (w : world) :
  let '(all_questions, skill_question_map) := plan "SQL,Excel" 2 in
  length all_questions = 4 ∧
  question_generator.skill <$> all_questions = ["SQL"; "SQL"; "Excel"; "Excel"] ∧
  positions_of <$> skill_question_map = {[ "SQL" := [1; 2]; "Excel" := [3; 4] ]} ∧
  skill_question_map =
    {[ "SQL" := {| start_index := 0; end_index := 2;
                   question_count := 2; questions_completed := 0 |};
       "Excel" := {| start_index := 2; end_index := 4;
                     question_count := 2; questions_completed := 0 |} ]} ∧
  let '(w', outcome) := generate interview_id "SQL,Excel" skill_area 2 w in
  match outcome with
  | Ok _ =>
      appended_rows w w' =
        [ (interview_id, "SQL", Some (PlanEntry "SQL" 1 1));
          (interview_id, "SQL", Some (PlanEntry "SQL" 2 2));
          (interview_id, "Excel", Some (PlanEntry "Excel" 1 3));
          (interview_id, "Excel", Some (PlanEntry "Excel" 2 4)) ] ∧
      stored_blocks interview_id w'
      = (λ _, skill_question_map) <$> status_of interview_id w
  | Raise _ =>
      ∃ q, q ∈ all_questions ∧
           ∀ text, bind_question number_text (question_generator.question q) ≠ Ok text
  end.
Proof.
  pose proof (generate_stores interview_id "SQL,Excel" skill_area 2 w) as Hstores.
  unfold interviews.plan in *.
  change (stripped_items "SQL,Excel") with ["SQL"; "Excel"] in *.
  set (job_description := _ +:+ _) in *.
  pose proof (plan_length questions_reply loads_questions fenced_block listed_questions
                job_description 2 ltac:(lia) ["SQL"; "Excel"]) as Hlen.
  pose proof (plan_tags questions_reply loads_questions fenced_block listed_questions
                job_description 2 ltac:(lia) ["SQL"; "Excel"]) as Htags.
  pose proof (plan_map_snoc questions_reply loads_questions fenced_block listed_questions
                job_description 2 ltac:(lia) ["SQL"] "Excel") as Hmap2.
  pose proof (plan_map_snoc questions_reply loads_questions fenced_block listed_questions
                job_description 2 ltac:(lia) [] "SQL") as Hmap1.
  change ([] ++ ["SQL"]) with ["SQL"] in Hmap1.
  change (["SQL"] ++ ["Excel"]) with ["SQL"; "Excel"] in Hmap2.
  rewrite Hmap1 in Hmap2. clear Hmap1.
  destruct (foldl _ _ ["SQL"; "Excel"]) as [all_questions skill_question_map].
  cbn [fst snd] in *.
  change (["SQL"; "Excel"] ≫= (λ skill, batch_tags skill 2))
    with [("SQL", 1%Z); ("SQL", 2%Z); ("Excel", 1%Z); ("Excel", 2%Z)] in Htags.
  split_and!.
  - exact Hlen.
  - transitivity ((tags_of all_questions).*1); [|by rewrite Htags].
    unfold tags_of. by rewrite <- list_fmap_compose.
  - rewrite Hmap2. apply map_eq. intros k. by vm_compute.
  - rewrite Hmap2. apply map_eq. intros k. by vm_compute.
  - destruct (generate _ _ _ _ _) as [w' [[]|e]].
    + destruct Hstores as (k & Hrows & -> & _ & Hmeta).
      rewrite firstn_all, Htags in Hrows. split; [exact Hrows|].
      unfold stored_blocks. rewrite Hmeta. by destruct (status_of interview_id w).
    + destruct Hstores as (k & _ & (q & Hq & Hfails) & _).
      exists q. split; [|done]. by eapply list_elem_of_lookup_2.
Qed.

Lemma length_filter_plan_rows interview_id skill (g : nat → nat) (tags : list (string * Z)) :
  length (filter (λ row : Z * string * option evaluation_cell, row.1.2 = skill)
                 (imap (λ i, plan_row interview_id (g i)) tags))
  = length (filter (λ tag : string * Z, tag.1 = skill) tags).
Proof.
  revert g. induction tags as [|tag tags IH]; intros g; [done|].
  cbn [imap]. rewrite !filter_cons.
  change ((plan_row interview_id (g 0) tag).1.2) with tag.1.
  destruct (decide (tag.1 = skill)); cbn [length]; by rewrite <- (IH (g ∘ S)).
Qed.

Lemma filter_batch_tags skill n :
  filter (λ tag : string * Z, tag.1 = skill) (batch_tags skill n) = batch_tags skill n.
Proof.
  unfold batch_tags. induction (seq 0 (Z.to_nat n)) as [|i l IH]; [done|].
  cbn [fmap list_fmap]. rewrite filter_cons_True by done. by rewrite IH.
Qed.

(** C10, as the code has it.  When a skill occurs again later in the raw
    skill string, at least one question is asked per skill and the entry
    point returns, then for every occurrence of every skill a batch of
    questions has been inserted, the stored skill-question map has one
    entry for the repeated skill, the block of its last occurrence, some
    inserted question lies in no recorded block, and the question count of
    the entry is below the number of questions inserted for the skill. *)
Theorem duplicate_skill_blocks (skills : string) (n : Z) (before after : list string)
    (skill skill_area : string) (interview_id : Z) (w : world) :
  stripped_items skills = before ++ skill :: after →
  skill ∈ before → skill ∉ after → (0 < n)%Z →
  select_interview interview_id (db w) ≠ [] →
  (generate interview_id skills skill_area n w).2 = Ok tt →
  let w' := (generate interview_id skills skill_area n w).1 in
  let rows := appended_rows w w' in
  let of_skill := filter (λ row, row.1.2 = skill) rows in
  rows = imap (plan_row interview_id) (stripped_items skills ≫= λ s, batch_tags s n) ∧
  length rows = Z.to_nat n * length (stripped_items skills) ∧
  2 * Z.to_nat n ≤ length of_skill ∧
  ∃ blocks block,
    stored_blocks interview_id w' = Some blocks ∧
    blocks !! skill = Some block ∧
    block = block_at n (length before) ∧
    (∃ p, p < length rows ∧
          ∀ k b, blocks !! k = Some b → ¬ (start_index b ≤ p < end_index b)) ∧
    (question_count block < Z.of_nat (length of_skill))%Z.
Proof.
  intros Hlist Hdup Hlast Hn Hsel Hok. cbv zeta.
  pose proof (generate_stores interview_id skills skill_area n w) as Hstores.
  destruct (generate interview_id skills skill_area n w) as [w' outcome].
  cbn [fst snd] in *. subst outcome.
  destruct Hstores as (k & Hrows & -> & _ & Hmeta).
  rewrite firstn_all in Hrows.
  unfold interviews.plan in *. set (job_description := _ +:+ _) in *.
  rewrite Hlist in *.
  assert (0 <= n)%Z as Hn0 by lia.
  pose proof (plan_length questions_reply loads_questions fenced_block listed_questions
                job_description n Hn0 (before ++ skill :: after)) as Hlen.
  pose proof (plan_tags questions_reply loads_questions fenced_block listed_questions
                job_description n Hn0 (before ++ skill :: after)) as Htags.
  pose proof (plan_map_last questions_reply loads_questions fenced_block listed_questions
                job_description n Hn0 before skill after Hlast) as Hmap.
  pose proof (plan_map_entries questions_reply loads_questions fenced_block
                listed_questions job_description n Hn0 (before ++ skill :: after))
    as Hentries.
  destruct (foldl _ _ (before ++ skill :: after)) as [all_questions skill_question_map].
  cbn [fst snd] in *. rewrite Htags in Hrows.
  assert (length (appended_rows w w') = Z.to_nat n * length (before ++ skill :: after))
    as Hcount.
  { rewrite Hrows, length_imap, <- Htags. unfold tags_of. by rewrite length_fmap. }
  apply list_elem_of_split in Hdup as (b1 & b2 & ->).
  assert (2 * Z.to_nat n
          ≤ length (filter (λ row : Z * string * option evaluation_cell, row.1.2 = skill)
                           (appended_rows w w'))) as Hskill.
  { rewrite Hrows.
    rewrite (length_filter_plan_rows interview_id skill (λ i, i)).
    rewrite !bind_app, !bind_cons, !filter_app, !length_app, !filter_batch_tags,
      !batch_tags_length. lia. }
  split_and!; [done|done|done|].
  exists skill_question_map, (block_at n (length (b1 ++ skill :: b2))).
  split_and!; [|done|done| |].
  - unfold stored_blocks. rewrite Hmeta.
    unfold status_of. by destruct (select_interview interview_id (db w)).
  - exists (Z.to_nat n * length b1). split.
    { rewrite Hcount. repeat (rewrite ?length_app; cbn [length]). nia. }
    intros key b (j & Hj & Hnotlater & ->)%Hentries [Hlo Hhi]. cbn in Hlo, Hhi.
    assert (j = length b1) as -> by nia.
    rewrite <- !app_assoc in Hj, Hnotlater.
    rewrite lookup_app_r, Nat.sub_diag in Hj by lia. cbn in Hj. simplify_eq.
    apply Hnotlater.
    rewrite drop_app_ge by lia.
    replace (S (length b1) - length b1) with 1 by lia. cbn. rewrite drop_0. set_solver.
  - cbn. lia.
Qed.
End plan_claims.

(** The numbers stored for the scenario of C6: the blocks are kept
    0-based and end-exclusive. *)
Example stored_blocks_sql_excel :
  block_of 1 "SQL" scenario.started = Some (0, 2) ∧
  block_of 1 "Excel" scenario.started = Some (2, 4) ∧
  positions_of <$> default ∅ (stored_blocks 1 scenario.started)
  = {[ "SQL" := [1; 2]; "Excel" := [3; 4] ]}.
Proof. by vm_compute. Qed.

(** C10, as stated, fails: with no question per skill the entry point
    returns for the raw skill string "SQL,SQL", inserts no question and
    stores the one block (0, 0) with question count 0, so no inserted
    question lies outside the recorded blocks and the count is not below
    the number of questions of the skill. *)
Lemma duplicate_skill_without_questions :
  let run :=
    interviews.generate_skill_based_questions
      upstream_down.questions_reply upstream_down.loads_questions
      upstream_down.fenced_block upstream_down.listed_questions sqlite.number_text
      1 "SQL,SQL" "general" 0 scenario.pending in
  let rows := appended_rows scenario.pending run.1 in
  run.2 = Ok tt ∧
  rows = [] ∧
  block_of 1 "SQL" run.1 = Some (0, 0) ∧
  ¬ (∃ p, p < length rows) ∧
  ¬ (∃ blocks block,
       stored_blocks 1 run.1 = Some blocks ∧ blocks !! "SQL" = Some block ∧
       (database.question_count block
        < Z.of_nat (length (filter (λ row, row.1.2 = "SQL") rows)))%Z).
Proof.
  cbv zeta. split_and!; [by vm_compute..| |].
  - intros [p Hp]. vm_compute in Hp. lia.
  - intros (blocks & block & Hblocks & Hblock & Hlt).
    vm_compute in Hblocks. simplify_eq. vm_compute in Hblock. simplify_eq.
    vm_compute in Hlt. done.
Qed.

(** C10 at the raw skill string "SQL,SQL" with two questions per skill. *)
Lemma duplicate_skill_blocks_witness :
  let run :=
    interviews.generate_skill_based_questions
      upstream_down.questions_reply upstream_down.loads_questions
      upstream_down.fenced_block upstream_down.listed_questions sqlite.number_text
      1 "SQL,SQL" "general" 2 scenario.pending in
  length (appended_rows scenario.pending run.1) = 4 ∧
  ∃ blocks, stored_blocks 1 run.1 = Some blocks ∧
            blocks !! "SQL" = Some (block_at 2 1).
Proof.
  pose proof (duplicate_skill_blocks
                upstream_down.questions_reply upstream_down.loads_questions
                upstream_down.fenced_block upstream_down.listed_questions
                sqlite.number_text
                "SQL,SQL" 2 ["SQL"] [] "SQL" "general" 1 scenario.pending
                eq_refl ltac:(by apply list_elem_of_singleton)
                ltac:(apply not_elem_of_nil) ltac:(lia)
                ltac:(by vm_compute) ltac:(by vm_compute)) as H.
  cbv zeta in *. destruct H as (_ & Hlen & _ & blocks & block & Hblocks & Hblock & -> & _).
  split; [exact Hlen|]. by exists blocks.
Defined.

(** ** Rating aggregation and progress *)

Section sum_facts.

Lemma numbers_from_Ok (float_so_far : bool) (l : list py.operand) (numbers : list Q) :
  py.numbers_from float_so_far l = Ok numbers ↔ mapM operand_number l = Some numbers.
Proof.
  revert float_so_far numbers.
  induction l as [|o l IH]; intros float_so_far numbers; cbn.
  { split; intros [= <-]; done. }
  destruct o as [n|x|s]; cbn.
  - specialize (IH float_so_far). destruct (py.numbers_from float_so_far l) as [ns|e].
    + rewrite (proj1 (IH ns) eq_refl). cbn. split; intros [= <-]; done.
    + destruct (mapM operand_number l) as [ns|]; cbn; [|done].
      by pose proof (proj2 (IH ns) eq_refl).
  - specialize (IH true). destruct (py.numbers_from true l) as [ns|e].
    + rewrite (proj1 (IH ns) eq_refl). cbn. split; intros [= <-]; done.
    + destruct (mapM operand_number l) as [ns|]; cbn; [|done].
      by pose proof (proj2 (IH ns) eq_refl).
  - done.
Qed.

Lemma numbers_from_Raise (float_so_far : bool) (l : list py.operand) (e : exn) :
  py.numbers_from float_so_far l = Raise e →
  (∃ msg, e = py.TypeError msg) ∧ Exists (λ o, ∃ s, o = py.Str s) l.
Proof.
  revert float_so_far. induction l as [|o l IH]; intros float_so_far; cbn; [done|].
  destruct o as [n|x|s].
  - destruct (py.numbers_from float_so_far l) eqn:Hl; [done|]. intros [= <-].
    destruct (IH _ Hl). split; [done|]. by right.
  - destruct (py.numbers_from true l) eqn:Hl; [done|]. intros [= <-].
    destruct (IH _ Hl). split; [done|]. by right.
  - intros [= <-]. split; [by eauto|]. left. by eauto.
Qed.

(** The scores of a list of cells add up exactly when none of them is a
    text. *)
Lemma numbers_of_cells (scores : list database.score_cell) :
  match py.numbers_of (interviews.score_operand <$> scores) with
  | Ok numbers => mapM number_of_cell scores = Some numbers
  | Raise e =>
      (∃ msg, e = py.TypeError msg) ∧ Exists (λ c, is_text (Some c)) scores
  end.
Proof.
  unfold py.numbers_of.
  destruct (py.numbers_from false _) as [numbers|e] eqn:Hsum.
  - apply numbers_from_Ok in Hsum. rewrite <- Hsum. clear Hsum.
    induction scores as [|c scores IH]; [done|].
    cbn. rewrite IH. by destruct c.
  - apply numbers_from_Raise in Hsum as [Hmsg Htext]. split; [done|].
    apply Exists_exists in Htext as (o & Ho & s & ->).
    apply list_elem_of_fmap in Ho as (c & Hc & Hin).
    apply Exists_exists. exists c. split; [done|]. by destruct c.
Qed.
End sum_facts.

Section submission_facts.
Import database.
Variable fenced_block : string → option string.
Variable evaluation_reply : string → string → string → string → groq_client.response.
Variable loads_evaluation : string → json_doc response_evaluator.evaluation.
Variable numeric_text : string → option Q.
Variable mean : list Q → Q.
Variable round1 : Q → Q.

Abbreviation submit :=
  (interviews.submit_skill_based_response fenced_block evaluation_reply loads_evaluation
     numeric_text mean round1).
Abbreviation check_and_update := (interviews.check_and_update_skill_rating mean round1).
Abbreviation evaluation_of question_data response :=
  (submitted_evaluation evaluation_reply loads_evaluation fenced_block
     (interview_question.question question_data) response
     (interview_question.question_type question_data)).
Abbreviation score_of question_data response :=
  (submitted_score evaluation_reply loads_evaluation fenced_block numeric_text
     (interview_question.question question_data) response
     (interview_question.question_type question_data)).

(** [check_and_update_skill_rating], step by step. *)
Lemma check_and_update_unfold now interview_id skill w :
  check_and_update now interview_id skill w =
  let skill_questions := answered_skill_questions_of interview_id skill (db w) in
  let total := length (skill_questions_of interview_id skill (db w)) in
  if bool_decide (length skill_questions = total) && bool_decide (0 < length skill_questions)
  then
    match interviews.scores_of skill_questions with
    | [] => (w, Ok (interviews.SkillIncomplete skill (length skill_questions) total))
    | (_ :: _) as scores =>
        match py.numbers_of (interviews.score_operand <$> scores) with
        | Raise e => (w, Raise e)
        | Ok numbers =>
            match select_interview interview_id (db w) with
            | [] => (w, Raise (py.IndexError "list index out of range"))
            | interview :: _ =>
                (write_rating interview_id skill (rating_of mean numbers now) interview w,
                 Ok (interviews.SkillCompleted skill
                       (interviews.convert_score_to_stars (mean (Qred <$> numbers)))
                       (round1 (mean (Qred <$> numbers)))
                       (length skill_questions)))
            end
        end
    end
  else (w, Ok (interviews.SkillIncomplete skill (length skill_questions) total)).
Proof.
  unfold interviews.check_and_update_skill_rating, interviews.store_skill_rating,
    interviews.average, bind, query, execute, ret, raise, lift.
  cbv zeta. destruct (_ && _); [|done].
  destruct (interviews.scores_of _); [done|].
  destruct (py.numbers_of _); [|done].
  by destruct (select_interview _ _).
Qed.

(** [submit_skill_based_response], step by step. *)
Lemma submit_unfold now question_id response w :
  submit now question_id response w =
  match select_question_with_interview question_id (db w) with
  | [] => (w, Raise (py.HTTPException 404 "Question not found"))
  | (question_data, interview) :: _ =>
      let interview_id := interview.id interview in
      let skill := interview_question.question_type question_data in
      let evaluation := evaluation_of question_data response in
      match score_of question_data response with
      | Raise e => (with_db (record_text question_id response) w, Raise e)
      | Ok score =>
          match check_and_update now interview_id skill
                  (with_db (record_response question_id response evaluation score) w) with
          | (w3, Raise e) => (w3, Raise e)
          | (w3, Ok skill_rating_update) =>
              let total := length (questions_of interview_id (db w3)) in
              let answered := length (answered_questions_of interview_id (db w3)) in
              let completed := bool_decide (total = answered) in
              (if completed then mark_completed now interview_id w3 else w3,
               Ok {| interviews.question_id := question_id;
                     interviews.evaluation := evaluation;
                     interviews.skill_assessed := skill;
                     interviews.skill_rating_update_of := skill_rating_update;
                     interviews.progress :=
                       {| interviews.answered := answered;
                          interviews.total := total;
                          interviews.completed := completed |};
                     interviews.next_step :=
                       if completed
                       then "/api/interviews/" +:+ pretty interview_id +:+ "/results"
                       else "Continue to next question" |})
          end
      end
  end.
Proof.
  unfold interviews.submit_skill_based_response.
  unfold bind at 1. unfold query at 1. cbn [fst snd].
  destruct (select_question_with_interview question_id (db w)) as [|[qd i] rest]; [done|].
  unfold bind at 1. unfold execute at 1.
  unfold bind at 1. unfold lift at 1.
  unfold submitted_score, submitted_evaluation. cbv zeta.
  destruct (bind_score numeric_text _) as [score|e]; [|done].
  unfold bind at 1. unfold execute at 1.
  unfold bind at 1.
  replace (with_db _ (with_db _ w))
    with (with_db (record_response question_id response
                     (evaluation_of qd response) score) w)
    by (by destruct w).
  unfold submitted_evaluation.
  destruct (interviews.check_and_update_skill_rating _ _ _ _ _ _) as [w3 [upd|e]]; [|done].
  unfold bind, query, execute, ret. cbn [fst snd db].
  by destruct (bool_decide _).
Qed.

(** The first row of the join: a question with the submitted key, of an
    existing interview. *)
Lemma join_first question_id t question_data interview rest :
  select_question_with_interview question_id t = (question_data, interview) :: rest →
  question_data ∈ interview_questions t ∧
  interview_question.id question_data = question_id ∧
  interview.id interview = interview_question.interview_id question_data ∧
  interview ∈ select_interview (interview.id interview) t.
Proof.
  intros Hjoin.
  assert ((question_data, interview) ∈ select_question_with_interview question_id t)
    as Hin by (rewrite Hjoin; left).
  unfold select_question_with_interview in Hin.
  apply list_elem_of_bind in Hin as (q & Hin & Hq).
  apply list_elem_of_bind in Hin as (i & Hin & Hi).
  apply list_elem_of_singleton in Hin as [= -> ->].
  apply list_elem_of_filter in Hq as [Hid Hq].
  pose proof Hi as Hi'. apply list_elem_of_filter in Hi' as [Hiid _].
  by rewrite Hiid.
Qed.

Lemma check_and_update_questions now interview_id skill w :
  interview_questions (db (check_and_update now interview_id skill w).1)
  = interview_questions (db w).
Proof.
  rewrite check_and_update_unfold. cbv zeta.
  repeat case_match; try done.
Qed.

Lemma check_and_update_status now interview_id skill w i :
  status_of i (check_and_update now interview_id skill w).1 = status_of i w.
Proof.
  rewrite check_and_update_unfold. cbv zeta.
  repeat case_match; try done. cbn [fst].
  unfold write_rating. by rewrite status_of_set_feedback.
Qed.

Lemma check_and_update_preserved now interview_id skill w :
  completed_preserved w (check_and_update now interview_id skill w).1.
Proof. intros i. by rewrite check_and_update_status. Qed.

Lemma status_of_is_Some interview_id w :
  select_interview interview_id (db w) ≠ [] → is_Some (status_of interview_id w).
Proof.
  unfold status_of. by destruct (select_interview _ _).
Qed.

(** With the interview present, the check returns normally unless the
    skill is fully answered and one of its scores is a text; then [sum]
    raises a [TypeError] and nothing is written. *)
Lemma check_and_update_outcome now interview_id skill w :
  select_interview interview_id (db w) ≠ [] →
  let '(w', outcome) := check_and_update now interview_id skill w in
  match outcome with
  | Ok _ => True
  | Raise e =>
      w' = w ∧ (∃ msg, e = py.TypeError msg) ∧
      answered_skill_questions_of interview_id skill (db w)
      = skill_questions_of interview_id skill (db w) ∧
      Exists (λ r, is_text (interview_question.score r))
             (skill_questions_of interview_id skill (db w))
  end.
Proof.
  intros Hsel. rewrite check_and_update_unfold. cbv zeta.
  destruct (bool_decide (_ = _)) eqn:Hall; [|done]. cbn [andb].
  destruct (bool_decide (0 < _)); [|done].
  destruct (interviews.scores_of _) as [|c scores] eqn:Hscores; [done|].
  pose proof (numbers_of_cells (c :: scores)) as Hsum.
  destruct (py.numbers_of _) as [numbers|e].
  { by destruct (select_interview _ _). }
  destruct Hsum as [Hmsg Htext]. apply bool_decide_eq_true in Hall.
  assert (answered_skill_questions_of interview_id skill (db w)
          = skill_questions_of interview_id skill (db w)) as Hanswered.
  { unfold answered_skill_questions_of in *.
    by apply filter_length_eq in Hall. }
  split_and!; [done|done|done|].
  rewrite <- Hscores, Hanswered in Htext. unfold interviews.scores_of in Htext.
  apply Exists_exists in Htext as (c' & Hc' & Htext).
  apply list_elem_of_omap in Hc' as (r & Hr & Hscore).
  apply Exists_exists. exists r. split; [done|]. by rewrite Hscore.
Qed.

Lemma status_of_record question_id response evaluation score w i :
  status_of i (with_db (record_response question_id response evaluation score) w)
  = status_of i w.
Proof. reflexivity. Qed.

Lemma status_of_record_text question_id response w i :
  status_of i (with_db (record_text question_id response) w) = status_of i w.
Proof. reflexivity. Qed.

Lemma mark_completed_preserved now interview_id w :
  completed_preserved w (mark_completed now interview_id w).
Proof.
  intros i Hi. unfold mark_completed. rewrite status_of_set_completed.
  destruct (decide _); by rewrite ?Hi.
Qed.

Lemma submit_preserved now question_id response w :
  completed_preserved w (submit now question_id response w).1.
Proof.
  rewrite submit_unfold.
  destruct (select_question_with_interview _ _) as [|[qd i] rest]; [done|].
  cbv zeta. destruct (score_of qd response) as [score|e]; [|by intros j].
  pose proof (check_and_update_preserved now (interview.id i)
                (interview_question.question_type qd)
                (with_db (record_response question_id response
                            (evaluation_of qd response) score) w)) as Hcheck.
  destruct (check_and_update _ _ _ _) as [w3 [upd|e]]; cbn [fst] in *.
  - etrans; [|etrans; [exact Hcheck|]].
    + intros j. by rewrite status_of_record.
    + destruct (bool_decide _); [apply mark_completed_preserved|done].
  - etrans; [|exact Hcheck].
    intros j. by rewrite status_of_record.
Qed.

Lemma submit_all_preserved submissions w :
  completed_preserved w
    (submit_all fenced_block evaluation_reply loads_evaluation numeric_text mean round1
       submissions w).
Proof.
  unfold submit_all. revert w.
  induction submissions as [|[[now question_id] response] l IH]; intros w; [done|].
  cbn [foldl]. etrans; [apply submit_preserved|apply IH].
Qed.

End submission_facts.

(** ** The recomputation of the ratings *)

Section fly_facts.
Import database.
Variable mean : list Q → Q.

Abbreviation average := (interviews.average mean).
Abbreviation rate_scores := (interviews.rate_scores mean).
Abbreviation on_the_fly_ratings := (interviews.on_the_fly_ratings mean).
Abbreviation type_of := interview_question.question_type.

Lemma skill_operands_snoc skill questions q :
  skill_operands skill (questions ++ [q])
  = skill_operands skill questions
    ++ (if decide (type_of q = skill)
        then [interviews.score_or_0 (interview_question.score q)] else []).
Proof.
  unfold skill_operands. rewrite filter_app, fmap_app, filter_cons, filter_nil.
  by destruct (decide _).
Qed.

Lemma seen_skills_snoc questions q :
  seen_skills (questions ++ [q])
  = if decide (type_of q ∈ seen_skills questions) then seen_skills questions
    else seen_skills questions ++ [type_of q].
Proof. unfold seen_skills. by rewrite foldl_app. Qed.

Lemma elem_of_seen_skills questions skill :
  skill ∈ seen_skills questions ↔ skill_operands skill questions ≠ [].
Proof.
  induction questions as [|q questions IH] using rev_ind.
  { split; [by intros ?%elem_of_nil|done]. }
  rewrite seen_skills_snoc, skill_operands_snoc.
  destruct (decide (type_of q = skill)) as [<-|Hne].
  - split; [intros _; by destruct (skill_operands _ _)|intros _].
    destruct (decide _); [done|]. apply elem_of_app. right. left.
  - rewrite app_nil_r, <- IH. destruct (decide _); [done|].
    rewrite elem_of_app, list_elem_of_singleton. naive_solver.
Qed.

(** The first loop of the recomputation: one entry per skill, in the
    order of the first question of each skill, with the scores of the skill
    in row order. *)
Lemma skill_scores_of_seen questions :
  interviews.skill_scores_of questions
  = (λ skill, (skill, skill_operands skill questions)) <$> seen_skills questions.
Proof.
  induction questions as [|q questions IH] using rev_ind; [done|].
  unfold interviews.skill_scores_of. rewrite foldl_app. cbn [foldl].
  fold (interviews.skill_scores_of questions). rewrite IH.
  unfold interviews.skill_scores_step. cbv zeta.
  rewrite <- list_fmap_compose, seen_skills_snoc.
  change ((fst ∘ _) <$> seen_skills questions) with (id <$> seen_skills questions).
  rewrite list_fmap_id.
  destruct (decide (type_of q ∈ seen_skills questions)) as [Hseen|Hnew].
  - rewrite <- list_fmap_compose. apply list_fmap_ext. intros _ skill _. cbn.
    rewrite skill_operands_snoc.
    destruct (decide (skill = type_of q)) as [->|Hne].
    + by rewrite decide_True.
    + rewrite decide_False by done. by rewrite app_nil_r.
  - rewrite fmap_app. cbn [fmap list_fmap]. f_equal.
    + apply list_fmap_ext. intros i skill Hskill%list_elem_of_lookup_2.
      cbn. rewrite skill_operands_snoc.
      rewrite decide_False; [by rewrite app_nil_r|]. by intros <-.
    + rewrite skill_operands_snoc, decide_True by done.
      assert (skill_operands (type_of q) questions = []) as ->; [|done].
      destruct (skill_operands (type_of q) questions) eqn:Hops; [done|].
      exfalso. apply Hnew, elem_of_seen_skills. by rewrite Hops.
Qed.

Lemma rate_scores_raise e l : foldl rate_scores (Raise e) l = Raise e.
Proof. by induction l. Qed.

(** The second loop, when it ends with an exception: the scores of some
    skill do not add up. *)
Lemma rate_scores_fold_Raise (l : list (string * list py.operand)) m0 e :
  foldl rate_scores (Ok m0) l = Raise e →
  ∃ entry, entry ∈ l ∧ py.numbers_of entry.2 = Raise e.
Proof.
  revert m0. induction l as [|[skill ops] l IH]; intros m0; [done|].
  cbn [foldl]. unfold interviews.rate_scores at 2. cbn [fst snd].
  destruct ops as [|o ops].
  { intros (entry & ? & ?)%IH. exists entry. split; [by right|done]. }
  unfold interviews.average.
  destruct (py.numbers_of (o :: ops)) as [numbers|e'] eqn:Hsum.
  - intros (entry & ? & ?)%IH. exists entry. split; [by right|done].
  - rewrite rate_scores_raise. intros [= <-]. exists (skill, o :: ops). split; [left|done].
Qed.

(** The second loop, when every skill's scores add up. *)
Lemma rate_scores_fold_Ok (numbers : string → list Q) (ops : string → list py.operand)
    (skills : list string) m0 :
  (∀ skill, skill ∈ skills →
            ops skill ≠ [] ∧ py.numbers_of (ops skill) = Ok (numbers skill)) →
  foldl rate_scores (Ok m0) ((λ skill, (skill, ops skill)) <$> skills)
  = Ok (foldl (λ m skill,
                 <[skill := interviews.convert_score_to_stars
                              (mean (Qred <$> numbers skill))]> m)
              m0 skills).
Proof.
  revert m0. induction skills as [|skill skills IH]; intros m0 Hall; [done|].
  cbn [fmap list_fmap foldl]. unfold interviews.rate_scores at 2. cbn [fst snd].
  destruct (Hall skill) as [Hne Hsum]; [left|].
  destruct (ops skill) as [|o l]; [done|].
  unfold interviews.average. rewrite Hsum. apply IH.
  intros s Hs. apply Hall. by right.
Qed.

Lemma lookup_foldl_insert {A} (f : string → A) (skills : list string)
    (m0 : gmap string A) (skill : string) :
  foldl (λ m s, <[s := f s]> m) m0 skills !! skill
  = if decide (skill ∈ skills) then Some (f skill) else m0 !! skill.
Proof.
  induction skills as [|s skills IH] using rev_ind.
  { by rewrite decide_False by apply not_elem_of_nil. }
  rewrite foldl_app. cbn [foldl].
  destruct (decide (s = skill)) as [->|Hne].
  - rewrite lookup_insert_eq, decide_True; [done|]. apply elem_of_app. right. left.
  - rewrite lookup_insert_ne, IH by done.
    destruct (decide (skill ∈ skills)).
    + rewrite decide_True; [done|]. apply elem_of_app. by left.
    + rewrite decide_False; [done|].
      rewrite elem_of_app, list_elem_of_singleton. naive_solver.
Qed.

(** Every recomputed rating is a star rating. *)
Lemma rate_scores_fold_range (l : list (string * list py.operand)) m0 m :
  map_Forall (λ _ stars, 1 <= stars <= 5)%Z m0 →
  foldl rate_scores (Ok m0) l = Ok m →
  map_Forall (λ _ stars, 1 <= stars <= 5)%Z m.
Proof.
  revert m0. induction l as [|[skill ops] l IH]; intros m0 Hm0; cbn [foldl].
  { by intros [= <-]. }
  unfold interviews.rate_scores at 2. cbn [fst snd].
  destruct ops as [|o ops]; [by apply IH|].
  destruct (average (o :: ops)) as [avg|e]; [|by rewrite rate_scores_raise].
  apply IH. apply map_Forall_insert_2; [|done].
  unfold interviews.convert_score_to_stars. repeat case_match; lia.
Qed.

Lemma on_the_fly_range questions ratings :
  on_the_fly_ratings questions = Ok ratings →
  map_Forall (λ _ stars, 1 <= stars <= 5)%Z ratings.
Proof. apply rate_scores_fold_range, map_Forall_empty. Qed.

(** The recomputation raises only a [TypeError], and only when some
    question holds a text as its score. *)
Lemma on_the_fly_Raise questions e :
  on_the_fly_ratings questions = Raise e →
  (∃ msg, e = py.TypeError msg) ∧
  Exists (λ q, is_text (interview_question.score q)) questions.
Proof.
  unfold interviews.on_the_fly_ratings. rewrite skill_scores_of_seen.
  intros ([skill ops] & Hin & Hsum)%rate_scores_fold_Raise.
  apply list_elem_of_fmap in Hin as (skill' & [= -> ->] & _). cbn [snd] in Hsum.
  apply numbers_from_Raise in Hsum as [Hmsg Htext]. split; [done|].
  apply Exists_exists in Htext as (o & Ho & s & ->).
  apply list_elem_of_fmap in Ho as (q & Hq & Hin).
  apply list_elem_of_filter in Hin as [_ Hin].
  apply Exists_exists. exists q. split; [done|].
  destruct (interview_question.score q) as [[x|s']|]; cbn in *; [|done|done].
  by destruct (Qeq_bool x 0).
Qed.

(** A number of the [REAL] column has the same value for both paths. *)
Lemma score_or_0_value (x : Q) :
  Qred <$> operand_number (interviews.score_or_0 (Some (Real x))) = Some (Qred x).
Proof.
  cbn. destruct (Qeq_bool x 0) eqn:H0; cbn; [|done].
  f_equal. apply Qred_complete. symmetry. by apply Qeq_bool_iff.
Qed.

(** For questions whose scores are numbers, the scores of a skill add up
    for both paths, to the same values. *)
Lemma numeric_operands skill questions :
  Forall (λ q, ∃ x, interview_question.score q = Some (Real x)) questions →
  ∃ numbers fly_numbers,
    mapM number_of_cell
         (interviews.scores_of (filter (λ q, type_of q = skill) questions))
    = Some numbers ∧
    py.numbers_of (skill_operands skill questions) = Ok fly_numbers ∧
    Qred <$> fly_numbers = Qred <$> numbers.
Proof.
  intros Hall. unfold skill_operands, py.numbers_of.
  assert (Forall (λ q, ∃ x, interview_question.score q = Some (Real x))
                 (filter (λ q, type_of q = skill) questions)) as Hskill.
  { apply Forall_forall. intros q [_ Hq]%list_elem_of_filter.
    by apply (proj1 (Forall_forall _ _) Hall). }
  clear Hall. induction Hskill as [|q l [x Hx] _ (numbers & fly & Hn & Hf & Heq)].
  { by exists [], []. }
  apply numbers_from_Ok in Hf.
  pose proof (score_or_0_value x) as Hvalue.
  destruct (operand_number (interviews.score_or_0 (Some (Real x)))) as [y|] eqn:Hy;
    [|done].
  injection Hvalue as Hvalue.
  exists (x :: numbers), (y :: fly). split_and!.
  - unfold interviews.scores_of in *. cbn. rewrite Hx. cbn. by rewrite Hn.
  - apply numbers_from_Ok. cbn. rewrite Hx, Hy. cbn. by rewrite Hf.
  - cbn. by rewrite Hvalue, Heq.
Qed.
End fly_facts.

Section rating_facts.
Import database.

Lemma metadata_of_write_rating interview_id skill rating interview rest w :
  select_interview interview_id (db w) = interview :: rest →
  metadata_of interview_id (write_rating interview_id skill rating interview w)
  = Some (with_skill_rating skill rating (loads_feedback (interview.feedback interview))).
Proof.
  intros Hsel. unfold metadata_of, write_rating, with_db. cbn [db].
  rewrite select_interview_update, Hsel by done. cbn.
  assert (interview.id interview = interview_id) as ->.
  { assert (interview ∈ select_interview interview_id (db w)) as Hin
      by (rewrite Hsel; left).
    by apply list_elem_of_filter in Hin as [? _]. }
  by rewrite decide_True.
Qed.

Lemma stored_rating_write_rating interview_id skill rating interview rest w :
  select_interview interview_id (db w) = interview :: rest →
  stored_rating interview_id skill (write_rating interview_id skill rating interview w)
  = Some rating.
Proof.
  intros Hsel. unfold stored_rating.
  rewrite (metadata_of_write_rating _ _ _ _ _ _ Hsel). cbn.
  by rewrite lookup_insert_eq.
Qed.

Lemma stored_path_metadata interview_id w :
  stored_path interview_id w =
  match metadata_of interview_id w with
  | Some m => interviews.stored_star_ratings m
  | None => ∅
  end.
Proof.
  unfold stored_path, metadata_of.
  destruct (select_interview _ _) as [|r l]; [done|]. cbn.
  by destruct (interview.feedback r).
Qed.

Lemma stored_path_lookup interview_id skill w :
  stored_path interview_id w !! skill
  = star_rating <$> stored_rating interview_id skill w.
Proof.
  rewrite stored_path_metadata. unfold stored_rating, interviews.stored_star_ratings.
  destruct (metadata_of _ _) as [m|]; cbn; [|done].
  destruct (skill_ratings m) as [ratings|]; cbn; [|done].
  by rewrite lookup_fmap.
Qed.
End rating_facts.

Section resubmission_facts.
Import database.
Variable fenced_block : string → option string.
Variable evaluation_reply : string → string → string → string → groq_client.response.
Variable loads_evaluation : string → json_doc response_evaluator.evaluation.
Variable numeric_text : string → option Q.
Variable mean : list Q → Q.
Variable round1 : Q → Q.

Abbreviation submit' :=
  (interviews.submit_skill_based_response fenced_block evaluation_reply loads_evaluation
     numeric_text mean round1).

(** The rows after a submission whose score is bound: the rows with the
    submitted key are answered, the others are as before. *)
Lemma record_rows question_id response evaluation score t :
  interview_questions (record_response question_id response evaluation score t)
  = (λ r, if decide (interview_question.id r = question_id)
          then answered_row response (Evaluated evaluation) score r
          else r) <$> interview_questions t.
Proof.
  unfold record_response, record_text, update_question. cbn [interview_questions].
  rewrite <- list_fmap_compose. apply list_fmap_ext. intros _ r _. cbn.
  destruct (decide (interview_question.id r = question_id)) as [Hid|Hid].
  - by rewrite decide_True.
  - by rewrite decide_False.
Qed.

Lemma skill_questions_of_fmap interview_id skill g rows rows' :
  (∀ r, interview_question.interview_id (g r) = interview_question.interview_id r) →
  (∀ r, interview_question.question_type (g r) = interview_question.question_type r) →
  rows' = g <$> rows →
  skill_questions_of interview_id skill {| interviews := []; interview_questions := rows' |}
  = g <$> skill_questions_of interview_id skill
            {| interviews := []; interview_questions := rows |}.
Proof.
  intros Hid Htype ->. unfold skill_questions_of, questions_of. cbn.
  rewrite <- !filter_fmap_commute; [done|..]; intros r; by rewrite ?Hid, ?Htype.
Qed.

Lemma skill_questions_of_rows interview_id skill t :
  skill_questions_of interview_id skill t
  = skill_questions_of interview_id skill
      {| interviews := []; interview_questions := interview_questions t |}.
Proof. done. Qed.

Lemma metadata_of_mark_completed now i interview_id w :
  metadata_of interview_id (mark_completed now i w)
  = metadata_of interview_id w.
Proof.
  unfold metadata_of, mark_completed, with_db. cbn [db].
  rewrite select_interview_update by done.
  destruct (select_interview interview_id (db w)) as [|r l]; [done|].
  cbn. by destruct (decide _).
Qed.

Lemma scores_of_nonempty (l : list interview_question.row) r c :
  r ∈ l → interview_question.score r = Some c → interviews.scores_of l ≠ [].
Proof.
  intros Hr Hc Hnil.
  assert (c ∈ interviews.scores_of l) as Hin.
  { unfold interviews.scores_of. apply list_elem_of_omap. eauto. }
  rewrite Hnil in Hin. by apply elem_of_nil in Hin.
Qed.

(** Scores none of which is a text add up. *)
Lemma scores_of_numbers (l : list interview_question.row) :
  (∀ r, r ∈ l → ¬ is_text (interview_question.score r)) →
  ∃ numbers,
    py.numbers_of (interviews.score_operand <$> interviews.scores_of l) = Ok numbers ∧
    mapM number_of_cell (interviews.scores_of l) = Some numbers.
Proof.
  intros Hall. pose proof (numbers_of_cells (interviews.scores_of l)) as Hsum.
  destruct (py.numbers_of _) as [numbers|e]; [by eauto|].
  destruct Hsum as [_ Htext]. exfalso.
  apply Exists_exists in Htext as (c & Hc & Htext).
  apply list_elem_of_omap in Hc as (r & Hr & Hscore).
  apply (Hall r Hr). by rewrite Hscore.
Qed.

(** C3, as the code has it.  When all questions of a skill are answered
    and none of the other questions of the skill holds a text as its score,
    a further response to one of them, evaluated with a numeric score, is
    recorded in the question rows, the submission reports the skill as
    completed, and the stored rating of the skill is overwritten by the
    rating recomputed from the scores stored after the submission. *)
Theorem resubmission_recomputes_rating (now : string) (question_id : Z)
    (response : string) (w : world)
    (question_data : interview_question.row) (interview : interview.row)
    (rest : list (interview_question.row * interview.row)) (q : Q) :
  select_question_with_interview question_id (db w) = (question_data, interview) :: rest →
  (∀ r, r ∈ skill_questions_of (interview.id interview)
              (interview_question.question_type question_data) (db w) →
        is_Some (interview_question.response r) ∧
        (interview_question.id r ≠ question_id →
         ¬ is_text (interview_question.score r))) →
  submitted_score evaluation_reply loads_evaluation fenced_block numeric_text
    (interview_question.question question_data) response
    (interview_question.question_type question_data) = Ok (Some (Real q)) →
  let interview_id := interview.id interview in
  let skill := interview_question.question_type question_data in
  let evaluation :=
    submitted_evaluation evaluation_reply loads_evaluation fenced_block
      (interview_question.question question_data) response skill in
  let '(w', outcome) := submit' now question_id response w in
  let scores :=
    interviews.scores_of (answered_skill_questions_of interview_id skill (db w')) in
  ∃ numbers,
    mapM number_of_cell scores = Some numbers ∧
    (∃ reply avg n,
        outcome = Ok reply ∧
        interviews.skill_rating_update_of reply
        = interviews.SkillCompleted skill
            (interviews.convert_score_to_stars (mean (Qred <$> numbers))) avg n) ∧
    interview_questions (db w')
      = interview_questions
          (record_response question_id response evaluation (Some (Real q)) (db w)) ∧
    stored_rating interview_id skill w' = Some (rating_of mean numbers now).
Proof.
  intros Hjoin Hanswered Hscore. cbv zeta.
  rewrite submit_unfold, Hjoin. cbv zeta. rewrite Hscore.
  apply join_first in Hjoin as (Hqd & Hqid & Hiid & Hi).
  set (interview_id := interview.id interview) in *.
  set (skill := interview_question.question_type question_data) in *.
  set (evaluation := submitted_evaluation _ _ _ _ _ _).
  set (w2 := with_db (record_response question_id response evaluation (Some (Real q))) w).
  rewrite check_and_update_unfold. cbv zeta.
  pose proof (record_rows question_id response evaluation (Some (Real q)) (db w)) as Hrows.
  set (g := λ r, if decide (interview_question.id r = question_id)
                 then answered_row response _ _ r else r) in Hrows.
  assert (skill_questions_of interview_id skill (db w2)
          = g <$> skill_questions_of interview_id skill (db w)) as Hskill.
  { rewrite (skill_questions_of_rows _ _ (db w2)), (skill_questions_of_rows _ _ (db w)).
    apply skill_questions_of_fmap; [| |exact Hrows];
      intros r; unfold g; by destruct (decide _). }
  assert (answered_skill_questions_of interview_id skill (db w2)
          = skill_questions_of interview_id skill (db w2)) as Hall.
  { unfold answered_skill_questions_of. apply filter_all. rewrite Hskill.
    intros r (r0 & -> & Hr0)%list_elem_of_fmap. unfold g.
    destruct (decide _); [by eexists|by apply Hanswered]. }
  assert (question_data ∈ skill_questions_of interview_id skill (db w)) as Hin.
  { unfold skill_questions_of, questions_of.
    apply list_elem_of_filter. split; [done|].
    apply list_elem_of_filter. split; [by rewrite Hiid|done]. }
  assert (g question_data ∈ skill_questions_of interview_id skill (db w2)) as Hin2.
  { rewrite Hskill. by apply list_elem_of_fmap_2. }
  assert (interview_question.score (g question_data) = Some (Real q)) as Hq.
  { unfold g. by rewrite decide_True by done. }
  rewrite Hall.
  rewrite bool_decide_eq_true_2 by done.
  rewrite bool_decide_eq_true_2
    by (destruct (skill_questions_of interview_id skill (db w2));
        [by apply elem_of_nil in Hin2|cbn; lia]).
  cbn [andb].
  pose proof (scores_of_nonempty _ _ _ Hin2 Hq) as Hne.
  destruct (scores_of_numbers (skill_questions_of interview_id skill (db w2)))
    as (numbers & Hsum & Hnumbers).
  { rewrite Hskill. intros r (r0 & -> & Hr0)%list_elem_of_fmap. unfold g.
    destruct (decide _) as [|Hother]; [cbn; tauto|].
    by apply (Hanswered r0 Hr0). }
  destruct (interviews.scores_of _) as [|s scores] eqn:Hscores; [done|].
  rewrite Hsum.
  destruct (select_interview interview_id (db w2)) as [|i2 rest2] eqn:Hsel.
  { unfold w2, with_db, record_response, record_text in Hsel. cbn [db] in Hsel.
    rewrite !select_interview_update_question in Hsel.
    rewrite Hsel in Hi. by apply elem_of_nil in Hi. }
  set (w3 := write_rating interview_id skill _ i2 w2).
  assert (interview_questions (db w3) = interview_questions (db w2)) as Hq3 by done.
  assert (answered_skill_questions_of interview_id skill (db w3)
          = skill_questions_of interview_id skill (db w2)) as Hall3.
  { rewrite <- Hall. done. }
  assert (stored_rating interview_id skill w3 = Some (rating_of mean numbers now))
    as Hstored by (by eapply stored_rating_write_rating).
  assert (interviews.scores_of
            (answered_skill_questions_of interview_id skill (db w3)) = s :: scores)
    as Hscores3 by (by rewrite Hall3).
  exists numbers.
  destruct (bool_decide _).
  - assert (interview_questions (db (mark_completed now interview_id w3))
            = interview_questions (db w3)) as Hq4 by done.
    unfold answered_skill_questions_of, skill_questions_of, questions_of in *.
    rewrite Hq4, Hscores3.
    split_and!; [done|do 3 eexists; split; reflexivity|reflexivity|].
    unfold stored_rating in *. by rewrite metadata_of_mark_completed.
  - rewrite Hscores3.
    split_and!; [done|do 3 eexists; split; reflexivity|reflexivity|done].
Qed.
End resubmission_facts.

(** ** The end-to-end scenario *)

(** The interview of the specification's scenario: active until the last
    question is answered; SQL rated 4 stars with average 8 after its two
    responses. *)
Example journey_statuses :
  status_of 1 <$>
    [scenario.pending; scenario.started; journey.sql_half; journey.sql_done;
     journey.excel_half; journey.finished]
  = [Some "pending"; Some "active"; Some "active"; Some "active"; Some "active";
     Some "completed"] ∧
  rating_summary 1 "SQL" journey.sql_half = None ∧
  rating_summary 1 "SQL" journey.sql_done = Some (4%Z, 8%Q) ∧
  rating_summary 1 "Excel" journey.finished = Some (4%Z, 8%Q).
Proof. by vm_compute. Qed.

(** C3, as stated, fails: with both SQL questions answered and the SQL rating
    stored as 4 stars, average 8, a second response to question 1 that is
    evaluated with score 2 changes the stored rating to 2 stars, average
    9/2. *)
Lemma resubmission_changes_rating :
  database.interview_question.response
    <$> database.skill_questions_of 1 "SQL" (database.db journey.sql_done)
  = [Some "nine"; Some "seven"] ∧
  rating_summary 1 "SQL" journey.sql_done = Some (4%Z, 8%Q) ∧
  rating_summary 1 "SQL" journey.sql_again = Some (2%Z, 9 # 2) ∧
  rating_summary 1 "SQL" journey.sql_again ≠ rating_summary 1 "SQL" journey.sql_done.
Proof. by vm_compute. Qed.

(** The recomputation of C3 at that second response. *)
Lemma resubmission_recomputes_rating_witness :
  ∃ numbers,
    mapM number_of_cell
         (interviews.scores_of
            (database.answered_skill_questions_of 1 "SQL" (database.db journey.sql_again)))
    = Some numbers ∧
    stored_rating 1 "SQL" journey.sql_again = Some (rating_of exact.mean numbers "10:20").
Proof.
  eassert (database.select_question_with_interview 1 (database.db journey.sql_done)
           = (_, _) :: _) as Hjoin by (vm_compute; reflexivity).
  pose proof (resubmission_recomputes_rating
                scripted.fenced_block scripted.evaluation_reply scripted.loads_evaluation
                sqlite.numeric_text exact.mean exact.round1
                "10:20" 1 "two" journey.sql_done _ _ _ 2%Q Hjoin) as H.
  cbv zeta in H. unfold journey.sql_again, scripted.submit, scripted.submit_request.
  destruct (interviews.submit_skill_based_response _ _ _ _ _ _ _ _ _ _) as [w' outcome].
  destruct H as (numbers & Hnumbers & _ & _ & Hstored); [|by vm_compute|by exists numbers].
  apply Forall_forall. vm_compute.
  repeat (constructor; [split; [by eexists|by intros _ []]|]). constructor.
Defined.


(** ** Card generation *)

Section card_facts.
Import database.
Variable mean : list Q → Q.
Variable matching_file : list string → string → string → option string.

Abbreviation fetch_results CARD_GENERATION_AVAILABLE card_generator :=
  (interviews.get_interview_results_with_auto_cards
     mean CARD_GENERATION_AVAILABLE card_generator matching_file).

Lemma stored_cards_select interview_id w interview_data rest :
  select_interview interview_id (db w) = interview_data :: rest →
  stored_cards interview_id w
  = card_generation (loads_feedback (interview.feedback interview_data)).
Proof.
  intros Hsel. unfold stored_cards, metadata_of. rewrite Hsel. cbn.
  by destruct (interview.feedback interview_data).
Qed.

Lemma bool_decide_is_Some {A} (o : option A) :
  bool_decide (is_Some o) = match o with Some _ => true | None => false end.
Proof.
  destruct o; [by apply bool_decide_eq_true_2|].
  apply bool_decide_eq_false_2. by intros [? ?].
Qed.

(** The star ratings of a results reply are the stored ones if there are
    any, else the ones recomputed on the fly. *)
Lemma ratings_read_paths interview_id w interview_data rest :
  select_interview interview_id (db w) = interview_data :: rest →
  ratings_read mean interview_id interview_data (db w)
  = if decide (stored_path interview_id w = ∅)
    then fly_path mean interview_id w else Ok (stored_path interview_id w).
Proof.
  intros Hsel. unfold ratings_read, stored_path, fly_path. by rewrite Hsel.
Qed.

(** [auto_generate_skill_cards], outcome by outcome. *)
Lemma auto_generate_unfold (CARD_GENERATION_AVAILABLE : bool)
    (card_generator : option (nat → gmap string Z → interviews.generation))
    (now : string) (interview_id : Z) (skill_ratings : gmap string Z) (w : world) :
  let '(w', outcome) :=
    interviews.auto_generate_skill_cards CARD_GENERATION_AVAILABLE card_generator
      matching_file now interview_id skill_ratings w in
  (∃ reason, outcome = Ok (interviews.NotGenerated reason) ∧ db w' = db w ∧
             generator_calls w ≤ generator_calls w' ≤ S (generator_calls w)) ∨
  (∃ generator new_files interview rest,
     card_generator = Some generator ∧
     generator (generator_calls w) skill_ratings = interviews.NewFiles new_files ∧
     select_interview interview_id (db w) = interview :: rest ∧
     let '(cards, generated_cards, failed_cards) :=
       foldl (interviews.card_step matching_file new_files) (∅, [], [])
             (map_to_list skill_ratings) in
     let mapping :=
       {| mapping_generated_at := now; mapping_interview_id := interview_id;
          total_cards := length generated_cards; cards := cards |} in
     let json_file_path :=
       "card_images/skill_cards_interview_" +:+ pretty interview_id +:+ ".json" in
     let block :=
       {| generated_at := now;
          results :=
            {| success_count := length generated_cards;
               failure_count := length failed_cards;
               total_skills := size skill_ratings;
               generated_cards := generated_cards;
               failed_cards := failed_cards;
               cards_directory := "card_images";
               mapping_file := json_file_path;
               results_interview_id := interview_id |};
          mapping_file_content := mapping |} in
     outcome = Ok (interviews.Generated (length generated_cards) (length failed_cards)
                     "card_images" json_file_path generated_cards mapping) ∧
     w' = with_db (update_interview interview_id
                     (interview.set_feedback
                        (Json (with_card_generation block
                                 (loads_feedback (interview.feedback interview))))))
            {| db := db w; generator_calls := S (generator_calls w) |}).
Proof.
  unfold interviews.auto_generate_skill_cards, interviews.invoke_generator.
  destruct CARD_GENERATION_AVAILABLE; cbn [negb].
  2:{ left. eexists. split_and!; [done|done|lia|lia]. }
  destruct card_generator as [generator|].
  2:{ left. eexists. split_and!; [done|done|lia|lia]. }
  unfold bind, query, execute, ret. cbn [fst snd db generator_calls].
  destruct (generator (generator_calls w) skill_ratings) as [msg|msg|new_files] eqn:Hrun.
  { left. eexists. split_and!; [done|done|cbn; lia|cbn; lia]. }
  { left. eexists. split_and!; [done|done|cbn; lia|cbn; lia]. }
  destruct (foldl _ _ (map_to_list skill_ratings)) as [[cards generated] failed] eqn:Hfold.
  cbn [fst snd db].
  destruct (select_interview interview_id (db w)) as [|interview rest] eqn:Hsel.
  { left. eexists. split_and!; [done|done|cbn; lia|cbn; lia]. }
  right. exists generator, new_files, interview, rest. split_and!; [done..|].
  by rewrite Hfold.
Qed.

(** [get_interview_results_with_auto_cards], step by step. *)
Lemma results_unfold (CARD_GENERATION_AVAILABLE : bool)
    (card_generator : option (nat → gmap string Z → interviews.generation))
    (now : string) (interview_id : Z) (w : world) :
  fetch_results CARD_GENERATION_AVAILABLE card_generator now interview_id w =
  match select_interview interview_id (db w) with
  | [] => (w, Raise (py.HTTPException 404 "Interview not found"))
  | interview_data :: _ =>
      let feedback_data := loads_feedback (interview.feedback interview_data) in
      match ratings_read mean interview_id interview_data (db w) with
      | Raise e => (w, Raise e)
      | Ok ratings =>
          let reply overall_score overall_stars info :=
            {| interviews.interview_id := interview_id;
               interviews.candidate_name := interview.candidate_name interview_data;
               interviews.status := interview.status interview_data;
               interviews.completed_at := interview.completed_at interview_data;
               interviews.skill_ratings := ratings;
               interviews.overall_score := overall_score;
               interviews.overall_stars := overall_stars;
               interviews.total_skills := size ratings;
               interviews.card_generation := info |} in
          if decide (ratings = ∅) then (w, Ok (reply 1%Z 1%Z None))
          else
            let stars := interviews.overall_stars_of ratings in
            match card_generation feedback_data, CARD_GENERATION_AVAILABLE,
                  card_generator with
            | None, true, Some _ =>
                match interviews.auto_generate_skill_cards CARD_GENERATION_AVAILABLE
                        card_generator matching_file now interview_id ratings w with
                | (w1, Ok info) => (w1, Ok (reply (stars * 2)%Z stars (Some info)))
                | (w1, Raise e) => (w1, Raise e)
                end
            | _, false, _ =>
                (w, Ok (reply (stars * 2)%Z stars
                          (Some (interviews.NotGenerated
                                   "Card generation not available - check imports and API key"))))
            | _, true, None =>
                (w, Ok (reply (stars * 2)%Z stars
                          (Some (interviews.NotGenerated "Card generator not initialized"))))
            | Some block, true, Some _ =>
                (w, Ok (reply (stars * 2)%Z stars (Some (interviews.StoredBlock block))))
            end
      end
  end.
Proof.
  unfold interviews.get_interview_results_with_auto_cards.
  unfold bind at 1. unfold query at 1. cbn [fst snd].
  destruct (select_interview interview_id (db w)) as [|interview_data rest] eqn:Hsel; [done|].
  cbv zeta.
  set (feedback_data := loads_feedback (interview.feedback interview_data)).
  pose proof (eq_refl (ratings_read mean interview_id interview_data (db w))) as Hread.
  unfold ratings_read at 1 in Hread. cbv zeta in Hread. fold feedback_data in Hread.
  set (read := ratings_read mean interview_id interview_data (db w)) in *.
  unfold bind at 1.
  assert ((if decide (interviews.stored_star_ratings feedback_data = ∅)
           then do questions <- query (answered_questions_of interview_id);
                lift (interviews.on_the_fly_ratings mean questions)
           else ret (interviews.stored_star_ratings feedback_data)) w
          = (w, read)) as ->.
  { rewrite <- Hread. unfold bind, query, ret, lift. by destruct (decide _). }
  clear Hread. destruct read as [ratings|e]; [|done].
  unfold bind at 1.
  destruct (decide (ratings = ∅)) as [Hnone|Hsome]; [done|].
  rewrite !bool_decide_is_Some.
  destruct (card_generation feedback_data) as [block|];
    destruct CARD_GENERATION_AVAILABLE;
    destruct card_generator as [generator|];
    cbn [negb andb]; try done.
  unfold bind at 1.
  destruct (interviews.auto_generate_skill_cards _ _ _ _ _ _ _) as [w1 [info|e]]; done.
Qed.

(** The short-circuit: a stored block is returned as it is, and nothing is
    written or invoked. *)
Lemma results_short_circuit generator now interview_id w interview_data rest block
    ratings :
  select_interview interview_id (db w) = interview_data :: rest →
  card_generation (loads_feedback (interview.feedback interview_data)) = Some block →
  ratings_read mean interview_id interview_data (db w) = Ok ratings →
  ratings ≠ ∅ →
  ∃ reply,
    fetch_results true (Some generator) now interview_id w = (w, Ok reply) ∧
    interviews.card_generation reply = Some (interviews.StoredBlock block).
Proof.
  intros Hsel Hblock Hread Hratings.
  rewrite results_unfold, Hsel. cbv zeta. rewrite Hread, Hblock.
  rewrite decide_False by done. by eauto.
Qed.

End card_facts.


(** With a working image service the run is stored and not repeated; so
    is a run against an image service that cannot be reached, which
    completes with every skill among the failed cards. *)
Example generated_cards_are_kept :
  let first := cards.fetch (Some cards.working) "11:00" journey.finished in
  let second := cards.fetch (Some cards.working) "11:05" first.1 in
  cards.observe first = (Some "cards_generated", true, 1) ∧
  cards.observe second = (Some "stored block", true, 1) ∧
  second.1 = first.1 ∧
  let first := cards.fetch (Some cards.unreachable) "11:00" journey.finished in
  let second := cards.fetch (Some cards.unreachable) "11:05" first.1 in
  cards.observe first = (Some "cards_generated", true, 1) ∧
  cards.observe second = (Some "stored block", true, 1) ∧
  (database.success_count ∘ database.results <$> stored_cards 1 first.1) = Some 0.
Proof. by vm_compute. Qed.

(** * Further properties of the modelled code *)

(** ** Scoring policy: order and range *)

Lemma stars_range (s : Q) : (1 <= interviews.convert_score_to_stars s <= 5)%Z.
Proof. unfold interviews.convert_score_to_stars. repeat case_match; lia. Qed.

Lemma stars_mono (s s' : Q) :
  (s <= s')%Q →
  (interviews.convert_score_to_stars s <= interviews.convert_score_to_stars s')%Z.
Proof.
  intros Hle. unfold interviews.convert_score_to_stars.
  repeat match goal with
         | |- context [Qle_bool ?a ?b] =>
             let H := fresh "H" in
             destruct (Qle_bool a b) eqn:H;
             [apply Qle_bool_iff in H | apply Qle_bool_false in H]
         end;
    try lia;
    exfalso;
    repeat match goal with
           | H1 : (?a <= s)%Q, H2 : (s' < ?a)%Q |- _ =>
               apply (Qlt_irrefl a), (Qle_lt_trans _ s'); [|exact H2];
               apply (Qle_trans _ s); [exact H1|exact Hle]
           end.
Qed.

(** X1.  The star rating never decreases when the score increases, and
    it lies between 1 and 5 for every score, also for scores outside the
    1..10 scale; this holds for the conversion of the API module and for the
    one of the question generator. *)
Theorem stars_monotone_bounded (s s' : Q) :
  (s <= s')%Q →
  (interviews.convert_score_to_stars s <= interviews.convert_score_to_stars s')%Z ∧
  (question_generator._convert_score_to_stars s
   <= question_generator._convert_score_to_stars s')%Z ∧
  (1 <= interviews.convert_score_to_stars s <= 5)%Z ∧
  (1 <= question_generator._convert_score_to_stars s <= 5)%Z.
Proof.
  intros Hle.
  change question_generator._convert_score_to_stars with interviews.convert_score_to_stars.
  auto using stars_mono, stars_range.
Qed.

Lemma stars_monotone_bounded_witness :
  (interviews.convert_score_to_stars (13 # 2)
   <= interviews.convert_score_to_stars (71 # 10))%Z ∧
  (1 <= interviews.convert_score_to_stars (13 # 2) <= 5)%Z.
Proof.
  destruct (stars_monotone_bounded (13 # 2) (71 # 10)) as (H1 & _ & H2 & _);
    [by vm_compute|].
  split; [exact H1|exact H2].
Defined.

(** ** Question batches *)

Section batch_facts.
Variable questions_reply : string → string → Z → groq_client.response.
Variable loads_questions : string → json_doc (list json.value).
Variable fenced_block : string → option string.
Variable listed_questions : string → list string.

Lemma fallback_types skill n :
  question_generator.question_type <$> question_generator._fallback_skill_questions skill n
  = replicate (Z.to_nat n) "skill_specific".
Proof.
  unfold question_generator._fallback_skill_questions.
  rewrite <- list_fmap_compose.
  generalize 0. induction (Z.to_nat n) as [|k IH]; intros start; [done|].
  cbn. f_equal. apply IH.
Qed.

Lemma skill_questions_of_types skill n questions :
  question_generator.question_type <$> question_generator.skill_questions_of skill n questions
  = replicate (length (py.slice_to n questions)) "skill_specific".
Proof.
  unfold question_generator.skill_questions_of. rewrite fmap_imap.
  generalize (py.slice_to n questions). intros l.
  rewrite (imap_ext _ (λ _ _, "skill_specific")) by done.
  induction l as [|x l IH]; [done|]. cbn. f_equal. exact IH.
Qed.

Lemma slice_to_enough {A} n (questions : list A) :
  (0 <= n)%Z → question_generator.enough n questions = true →
  length (py.slice_to n questions) = Z.to_nat n.
Proof.
  unfold question_generator.enough, py.slice_to. intros Hn Hlen%Z.leb_le.
  rewrite (proj2 (Z.leb_le 0 n)) by done. rewrite length_take. lia.
Qed.

Lemma generate_skill_specific_questions_types skill job_description n :
  (0 <= n)%Z →
  question_generator.question_type
    <$> question_generator.generate_skill_specific_questions
          questions_reply loads_questions fenced_block listed_questions
          skill job_description n
  = replicate (Z.to_nat n) "skill_specific".
Proof.
  intros Hn. unfold question_generator.generate_skill_specific_questions.
  repeat case_match; simplify_eq;
    first [apply fallback_types
          | rewrite skill_questions_of_types, slice_to_enough
              by (by rewrite ?enough_texts); done].
Qed.

(** X2.  Whatever the question service returns (an error, a malformed
    body, too few questions, a fenced block, a bulleted list), a batch for a
    skill with a non-negative count has exactly that many questions, each of
    type "skill_specific", tagged with the skill and numbered 1, 2, ... in
    order. *)
Theorem generate_skill_specific_questions_shape (skill job_description : string) (n : Z) :
  (0 <= n)%Z →
  let batch :=
    question_generator.generate_skill_specific_questions
      questions_reply loads_questions fenced_block listed_questions
      skill job_description n in
  length batch = Z.to_nat n ∧
  ∀ i q, batch !! i = Some q →
         question_generator.skill q = skill ∧
         question_generator.question_type q = "skill_specific" ∧
         question_generator.skill_index q = (Z.of_nat i + 1)%Z.
Proof.
  intros Hn batch.
  pose proof (generate_skill_specific_questions_tags questions_reply loads_questions
                fenced_block listed_questions skill job_description n Hn) as Htags.
  pose proof (generate_skill_specific_questions_types skill job_description n Hn) as Htypes.
  fold batch in Htags, Htypes. split.
  { rewrite <- (batch_tags_length skill n), <- Htags. unfold tags_of.
    by rewrite length_fmap. }
  intros i q Hq.
  assert (tags_of batch !! i
          = Some (question_generator.skill q, question_generator.skill_index q)) as Htag.
  { unfold tags_of. by rewrite list_lookup_fmap, Hq. }
  assert ((question_generator.question_type <$> batch) !! i
          = Some (question_generator.question_type q)) as Htype.
  { by rewrite list_lookup_fmap, Hq. }
  rewrite Htags in Htag. rewrite Htypes in Htype.
  apply lookup_replicate in Htype as [Htype _].
  unfold batch_tags in Htag. rewrite list_lookup_fmap in Htag.
  destruct (seq 0 (Z.to_nat n) !! i) as [k|] eqn:Hk; [|done].
  apply lookup_seq in Hk as [-> _]. cbn in Htag. by simplify_eq.
Qed.

End batch_facts.

Lemma generate_skill_specific_questions_shape_witness :
  length (question_generator.generate_skill_specific_questions
            upstream_down.questions_reply upstream_down.loads_questions
            upstream_down.fenced_block upstream_down.listed_questions
            "SQL" "Assessment for skills: SQL" 3) = 3.
Proof.
  exact (proj1 (generate_skill_specific_questions_shape
                  upstream_down.questions_reply upstream_down.loads_questions
                  upstream_down.fenced_block upstream_down.listed_questions
                  "SQL" "Assessment for skills: SQL" 3 ltac:(lia))).
Defined.

(** The five templates are pairwise different for every skill name: they
    differ within their first five characters. *)
Lemma fallback_questions_NoDup (skill : string) :
  NoDup (question_generator.fallback_questions skill).
Proof.
  unfold question_generator.fallback_questions.
  repeat (apply NoDup_cons; split;
          [rewrite ?elem_of_cons, elem_of_nil; cbn; intuition discriminate|]).
  apply NoDup_nil_2.
Qed.

Lemma fallback_question_at (skill : string) (n : Z) (i : nat) :
  i < Z.to_nat n →
  (question_generator.question <$> question_generator._fallback_skill_questions skill n) !! i
  = json.String <$> question_generator.fallback_questions skill !! (i mod 5).
Proof.
  intros Hi. unfold question_generator._fallback_skill_questions.
  rewrite <- list_fmap_compose, list_lookup_fmap, lookup_seq_lt by done.
  assert (i mod 5 < 5) as Hlt by (apply Nat.mod_upper_bound; lia).
  destruct (lookup_lt_is_Some_2 (question_generator.fallback_questions skill) (i mod 5))
    as [x Hx]; [exact Hlt|].
  rewrite Hx. cbn [fmap option_fmap option_map compose question_generator.question].
  change (0 + i) with i.
  change (length (question_generator.fallback_questions skill)) with 5.
  by rewrite Hx.
Qed.

(** X3.  The fallback batch cycles through five templates: its question
    at position [i] is template number [i mod 5], so the batch has no
    repeated question text exactly when at most five questions are asked
    for. *)
Theorem fallback_questions_cycle (skill : string) (n : Z) :
  (∀ i, i < Z.to_nat n →
        (question_generator.question
           <$> question_generator._fallback_skill_questions skill n) !! i
        = json.String <$> question_generator.fallback_questions skill !! (i mod 5)) ∧
  (NoDup (question_generator.question
            <$> question_generator._fallback_skill_questions skill n)
   ↔ (n <= 5)%Z).
Proof.
  split; [intros i; apply fallback_question_at|].
  set (texts := question_generator.question <$> _).
  assert (length texts = Z.to_nat n) as Hlen.
  { unfold texts, question_generator._fallback_skill_questions.
    by rewrite !length_fmap, length_seq. }
  split.
  - intros Hnodup. destruct (decide (n <= 5)%Z) as [|Hgt]; [done|]. exfalso.
    assert (texts !! 0 = texts !! 5) as Heq.
    { unfold texts. rewrite !fallback_question_at by lia. done. }
    assert (is_Some (texts !! 0)) as [x Hx] by (apply lookup_lt_is_Some_2; lia).
    rewrite Hx in Heq. symmetry in Heq.
    pose proof (NoDup_lookup _ _ _ _ Hnodup Hx Heq). lia.
  - intros Hn. apply NoDup_alt. intros i j x Hi Hj.
    pose proof (lookup_lt_Some _ _ _ Hi) as Hi'.
    pose proof (lookup_lt_Some _ _ _ Hj) as Hj'.
    unfold texts in Hi, Hj. rewrite fallback_question_at in Hi, Hj by lia.
    rewrite Nat.mod_small in Hi, Hj by lia.
    apply fmap_Some in Hi as (text & Hi & ->).
    apply fmap_Some in Hj as (text' & Hj & [= <-]).
    eapply NoDup_lookup; [apply fallback_questions_NoDup|exact Hi|exact Hj].
Qed.

(** ** Skill items *)

Lemma split_at_nonempty sep s : py.split_at sep s ≠ [].
Proof. destruct s as [|c s]; cbn; [done|]. by repeat case_match. Qed.

Lemma split_at_no_sep sep s w : w ∈ py.split_at sep s → has_char sep w = false.
Proof.
  revert w. induction s as [|c s IH]; intros w; cbn.
  { by intros ->%list_elem_of_singleton. }
  destruct (sep c) eqn:Hc.
  - intros [->|Hw]%elem_of_cons; [done|by apply IH].
  - destruct (py.split_at sep s) as [|w0 ws] eqn:Hs.
    { intros ->%list_elem_of_singleton. cbn. by rewrite Hc. }
    intros [->|Hw]%elem_of_cons.
    + cbn. rewrite Hc. apply IH, elem_of_cons. by left.
    + apply IH, elem_of_cons. by right.
Qed.

Lemma lstrip_has_char P s : has_char P s = false → has_char P (py.lstrip s) = false.
Proof.
  induction s as [|c s IH]; [done|]. cbn [py.lstrip].
  destruct (py.isspace c); [|done].
  cbn. intros [_ Hs]%orb_false_elim. by apply IH.
Qed.

Lemma rstrip_has_char P s : has_char P s = false → has_char P (py.rstrip s) = false.
Proof.
  induction s as [|c s IH]; [done|].
  cbn. intros [Hc Hs]%orb_false_elim. specialize (IH Hs).
  destruct (py.rstrip s) as [|d r].
  - destruct (py.isspace c); cbn; by rewrite ?Hc.
  - cbn in *. by rewrite Hc, IH.
Qed.

Lemma lstrip_starts_clean s : starts_clean (py.lstrip s).
Proof.
  induction s as [|c s IH]; [done|]. cbn.
  by destruct (py.isspace c) eqn:Hc.
Qed.

Lemma lstrip_clean s : starts_clean s → py.lstrip s = s.
Proof. destruct s as [|c s]; [done|]. cbn. by intros ->. Qed.

Lemma rstrip_starts_clean s : starts_clean s → starts_clean (py.rstrip s).
Proof.
  destruct s as [|c s]; [done|]. cbn. intros Hc.
  destruct (py.rstrip s); by rewrite ?Hc.
Qed.

Lemma rstrip_idemp s : py.rstrip (py.rstrip s) = py.rstrip s.
Proof.
  induction s as [|c s IH]; [done|]. cbn.
  destruct (py.rstrip s) as [|d r] eqn:Hr.
  - destruct (py.isspace c) eqn:Hc; [done|]. cbn. by rewrite Hc.
  - cbn [py.rstrip] in *. by rewrite IH.
Qed.

(** Stripping a stripped text changes nothing. *)
Lemma strip_idemp s : py.strip (py.strip s) = py.strip s.
Proof.
  unfold py.strip.
  rewrite (lstrip_clean (py.rstrip _)) by apply rstrip_starts_clean, lstrip_starts_clean.
  apply rstrip_idemp.
Qed.

Lemma stripped_items_clean skills item :
  item ∈ stripped_items skills →
  item ≠ "" ∧ py.strip item = item ∧ has_char is_comma item = false.
Proof.
  unfold stripped_items.
  intros [Htruthy (piece & -> & Hpiece)%list_elem_of_fmap]%list_elem_of_filter.
  split_and!.
  - intros Heq. by rewrite Heq in Htruthy.
  - apply strip_idemp.
  - apply rstrip_has_char, lstrip_has_char. by eapply split_at_no_sep.
Qed.

(** X4.  Every skill name that the parsers hand on, from
    [parse_skills] as well as from the comprehension of the API's plan, is
    non-empty, carries no blank at either end (stripping it again changes
    nothing) and contains no comma. *)
Theorem skill_items_clean (skills_input item : string) :
  item ∈ question_generator.parse_skills skills_input ∨ item ∈ stripped_items skills_input →
  item ≠ "" ∧ py.strip item = item ∧ has_char is_comma item = false.
Proof.
  intros [Hparsed|Hitem]; [|by eapply stripped_items_clean].
  destruct (decide (skills_input = "")) as [->|Hne].
  - apply list_elem_of_singleton in Hparsed as ->. by vm_compute.
  - rewrite parse_skills_nonempty in Hparsed by done.
    apply first_seen_order_subseteq in Hparsed. by eapply stripped_items_clean.
Qed.

Lemma skill_items_clean_witness :
  py.strip "Cooking" = "Cooking" ∧ has_char is_comma "Cooking" = false.
Proof.
  refine (proj2 (skill_items_clean "Python, python , Cooking,Python" "Cooking" _)).
  left. vm_compute. apply list_elem_of_further, list_elem_of_here.
Defined.

(** ** The length heuristic *)

Lemma heuristic_score_mono (a b : string) :
  length (py.split a) ≤ length (py.split b) →
  (heuristic_score a <= heuristic_score b)%Q.
Proof.
  unfold heuristic_score. intros Hle.
  repeat match goal with
         | |- context [?n <? ?k] =>
             let H := fresh "H" in
             destruct (n <? k) eqn:H;
             [apply Nat.ltb_lt in H | apply Nat.ltb_ge in H]
         end;
    first [lia | by vm_compute].
Qed.

(** X5.  The local fallback evaluation, given the candidate's text,
    never scores a text lower than a text with fewer (or as many) words; its
    score is one of 2, 4, 6, 7, 8 and depends neither on the question nor on
    the raw upstream text. *)
Theorem default_evaluation_monotone (question question' a b raw raw' : string) :
  length (py.split a) ≤ length (py.split b) →
  ∃ ea eb sa sb,
    response_evaluator._default_evaluation question (response_evaluator.Text a) raw = Ok ea ∧
    response_evaluator._default_evaluation question' (response_evaluator.Text b) raw' = Ok eb ∧
    response_evaluator.score ea = Some (json.Number sa) ∧
    response_evaluator.score eb = Some (json.Number sb) ∧
    (sa <= sb)%Q ∧
    sa ∈ [2; 4; 6; 7; 8]%Q.
Proof.
  intros Hle.
  destruct (default_evaluation_text question a raw) as (ea & Ha & Hsa & _).
  destruct (default_evaluation_text question' b raw') as (eb & Hb & Hsb & _).
  exists ea, eb, (heuristic_score a), (heuristic_score b).
  split_and!; [done..|by apply heuristic_score_mono|].
  unfold heuristic_score. repeat case_match; set_solver.
Qed.

Lemma default_evaluation_monotone_witness :
  ∃ ea eb sa sb,
    response_evaluator._default_evaluation "What is a join?"
      (response_evaluator.Text "I have used joins in a few small projects") "" = Ok ea ∧
    response_evaluator._default_evaluation "What is a join?"
      (response_evaluator.Text
         "I have used inner and outer joins daily for about five years") "" = Ok eb ∧
    response_evaluator.score ea = Some (json.Number sa) ∧
    response_evaluator.score eb = Some (json.Number sb) ∧
    (sa <= sb)%Q ∧
    sa ∈ [2; 4; 6; 7; 8]%Q.
Proof.
  apply (default_evaluation_monotone "What is a join?" "What is a join?"
           "I have used joins in a few small projects"
           "I have used inner and outer joins daily for about five years" "" "").
  vm_compute. lia.
Defined.

(** ** The service wrapper *)

Section service_facts.
Variable generate_response : string → string → string → string → groq_client.response.
Variable json_loads : string → json_doc response_evaluator.evaluation.
Variable fenced_block : string → option string.

(** X6.  [evaluate_skill_response] always returns an evaluation that
    has a score entry and names the assessed skill.  It reports success
    exactly when the upstream evaluation did not fail; then strengths,
    weaknesses and feedback are all present.  On failure the score is the
    fixed 5, with no strengths, weaknesses or [error] entry, and the
    exception text is reported beside the evaluation. *)
Theorem evaluate_skill_response_scored (question response skill question_type : string) :
  let r := interview_service.evaluate_skill_response
             generate_response json_loads fenced_block
             question response skill question_type in
  let failed := upstream_failed json_loads fenced_block
                  (generate_response question_type (interview_service.skill_context skill)
                     question response) in
  ∃ e, interview_service.evaluation r = Some e ∧
       is_Some (response_evaluator.score e) ∧
       response_evaluator.assessed_skill e = Some skill ∧
       response_evaluator.skill_specific e = Some true ∧
       interview_service.success r = negb failed ∧
       if failed
       then response_evaluator.score e = Some (json.Number 5) ∧
            response_evaluator.strengths e = None ∧
            response_evaluator.weaknesses e = None ∧
            response_evaluator.error e = None ∧
            interview_service.skill r = None ∧
            interview_service.service_error r
            = Some "'dict' object has no attribute 'split'"
       else is_Some (response_evaluator.strengths e) ∧
            is_Some (response_evaluator.weaknesses e) ∧
            is_Some (response_evaluator.feedback e) ∧
            interview_service.skill r = Some skill ∧
            interview_service.service_error r = None.
Proof.
  cbv zeta. unfold interview_service.evaluate_skill_response.
  destruct (upstream_failed _ _ _) eqn:Hfailed.
  - rewrite (evaluate_response_failure_raises _ _ _ _ _ _ _ Hfailed).
    eexists. split; [reflexivity|]. cbn. split_and!; by eauto.
  - destruct (evaluate_response_success _ _ _ _ _ _ _ Hfailed) as [e ->].
    eexists. split; [reflexivity|]. cbn. split_and!; by eauto.
Qed.
End service_facts.

(** ** The plan of a duplicate-free skill list *)

Lemma lookup_bind_batch_tags (items : list string) (n : Z) (p : nat) (tag : string * Z) :
  (items ≫= λ skill, batch_tags skill n) !! p = Some tag →
  ∃ j, items !! j = Some tag.1 ∧
       Z.to_nat n * j ≤ p < Z.to_nat n * S j ∧
       tag.2 = (Z.of_nat (p - Z.to_nat n * j) + 1)%Z.
Proof.
  revert p. induction items as [|skill items IH]; intros p; [done|].
  rewrite bind_cons. intros [Hhere|[Hge Hlater]]%lookup_app_Some.
  - exists 0. pose proof (lookup_lt_Some _ _ _ Hhere) as Hlt.
    rewrite batch_tags_length in Hlt.
    unfold batch_tags in Hhere. rewrite list_lookup_fmap, lookup_seq_lt in Hhere by done.
    cbn in Hhere. simplify_eq. cbn. split_and!; [done|lia|lia|f_equal; lia].
  - rewrite batch_tags_length in Hge, Hlater.
    destruct (IH _ Hlater) as (j & Hj & Hrange & Hidx).
    exists (S j). split_and!; [done|lia|lia|]. rewrite Hidx. f_equal. lia.
Qed.

Section plan_partition.
Variable questions_reply : string → string → Z → groq_client.response.
Variable loads_questions : string → json_doc (list json.value).
Variable fenced_block : string → option string.
Variable listed_questions : string → list string.

(** X7.  For a skill string without a repeated item and a non-negative
    count [n], whatever the question service returns: the plan has [n]
    questions per item; the skill-question map has exactly the items as its
    keys; the block of the item at position [j] is the range from [n*j] to
    [n*(j+1)]; and every question of the plan lies in the block recorded
    for its skill, at the offset given by its in-skill index. *)
Theorem plan_blocks_partition (skills : string) (n : Z) :
  NoDup (stripped_items skills) → (0 <= n)%Z →
  let items := stripped_items skills in
  let '(all_questions, skill_question_map) :=
    interviews.plan questions_reply loads_questions fenced_block listed_questions
      skills n in
  length all_questions = Z.to_nat n * length items ∧
  dom skill_question_map = list_to_set items ∧
  (∀ j skill, items !! j = Some skill →
              skill_question_map !! skill = Some (block_at n j)) ∧
  (∀ p q, all_questions !! p = Some q →
          ∃ b, skill_question_map !! question_generator.skill q = Some b ∧
               database.start_index b ≤ p < database.end_index b ∧
               question_generator.skill_index q
               = (Z.of_nat (p - database.start_index b) + 1)%Z).
Proof.
  intros Hnodup Hn items. unfold interviews.plan.
  subst items. set (items := stripped_items skills) in *.
  set (job_description := _ +:+ _).
  pose proof (plan_length questions_reply loads_questions fenced_block listed_questions
                job_description n Hn items) as Hlen.
  pose proof (plan_tags questions_reply loads_questions fenced_block listed_questions
                job_description n Hn items) as Htags.
  pose proof (plan_map_entries questions_reply loads_questions fenced_block
                listed_questions job_description n Hn items) as Hentries.
  assert (∀ j skill, items !! j = Some skill →
            (foldl (interviews.plan_step questions_reply loads_questions fenced_block
                      listed_questions job_description n) ([], ∅) items).2 !! skill
            = Some (block_at n j)) as Hblocks.
  { intros j skill Hj.
    pose proof (take_drop_middle _ _ _ Hj) as Hsplit.
    rewrite <- Hsplit in Hnodup.
    apply NoDup_app in Hnodup as (_ & _ & [Hnotin _]%NoDup_cons).
    rewrite <- Hsplit.
    rewrite (plan_map_last questions_reply loads_questions fenced_block listed_questions
               job_description n Hn (take j items) skill (drop (S j) items) Hnotin).
    rewrite length_take. pose proof (lookup_lt_Some _ _ _ Hj).
    do 2 f_equal. lia. }
  destruct (foldl _ _ items) as [all_questions skill_question_map].
  cbn [fst snd] in *. split_and!; [done| |done|].
  - apply set_eq. intros skill. rewrite elem_of_dom, elem_of_list_to_set. split.
    + intros [b (j & Hj & _)%Hentries]. by eapply list_elem_of_lookup_2.
    + intros [j Hj]%list_elem_of_lookup_1. rewrite (Hblocks _ _ Hj). by eexists.
  - intros p q Hq.
    assert (tags_of all_questions !! p
            = Some (question_generator.skill q, question_generator.skill_index q)) as Htag.
    { unfold tags_of. by rewrite list_lookup_fmap, Hq. }
    rewrite Htags in Htag.
    apply lookup_bind_batch_tags in Htag as (j & Hj & Hrange & Hidx). cbn in Hj, Hidx.
    exists (block_at n j). split_and!; [by apply Hblocks|cbn; lia|cbn; lia|done].
Qed.
End plan_partition.

Lemma plan_blocks_partition_witness :
  let p := interviews.plan upstream_down.questions_reply upstream_down.loads_questions
             upstream_down.fenced_block upstream_down.listed_questions "SQL, Excel" 2 in
  length p.1 = 4 ∧ dom p.2 = {["SQL"; "Excel"]}.
Proof.
  pose proof (plan_blocks_partition
                upstream_down.questions_reply upstream_down.loads_questions
                upstream_down.fenced_block upstream_down.listed_questions
                "SQL, Excel" 2 ltac:(by vm_compute; repeat constructor; set_solver)
                ltac:(lia)) as H.
  cbv zeta in *. destruct (interviews.plan _ _ _ _ _ _) as [all_questions skill_question_map].
  destruct H as (Hlen & Hdom & _). cbn [fst snd]. split; [exact Hlen|].
  rewrite Hdom. vm_compute stripped_items. set_solver.
Defined.

(** ** Rating a skill *)

Section rating_steps.
Import database.

Lemma select_interview_other interview_id i f t :
  (∀ r, interview.id (f r) = interview.id r) → i ≠ interview_id →
  select_interview i (update_interview interview_id f t) = select_interview i t.
Proof.
  intros Hf Hne. rewrite select_interview_update by done.
  rewrite <- (list_fmap_id (select_interview i t)) at 2.
  apply list_fmap_ext. intros k r Hr%list_elem_of_lookup_2.
  apply list_elem_of_filter in Hr as [Hid _]. by rewrite decide_False by congruence.
Qed.

Lemma interview_columns_set_feedback interview_id c t :
  interview_columns <$> interviews (update_interview interview_id (interview.set_feedback c) t)
  = interview_columns <$> interviews t.
Proof.
  unfold update_interview. cbn [interviews]. rewrite <- list_fmap_compose.
  apply list_fmap_ext. intros k r _. cbn. by destruct (decide _).
Qed.

Lemma length_answered_le interview_id skill t :
  length (answered_skill_questions_of interview_id skill t)
  ≤ length (skill_questions_of interview_id skill t).
Proof. apply length_filter. Qed.

(** X8.  [check_and_update_skill_rating] has four outcomes.  It reports
    the skill incomplete, with the counts of its answered and of all its
    questions, and leaves the state as it is, when a question of the skill
    is unanswered, when the skill has no question, or when no answered
    question has a score.  When all of at least one question are answered
    and their scores are numbers, it reports the skill completed, with the
    stars of the mean that the interpreter computes of these numbers and
    with that mean rounded by the interpreter; the stars and the unrounded
    mean are stored as the rating, and no question row changes.  When the
    skill is fully answered and one of the scores is a text, adding them
    raises [TypeError].  With numbers as scores but the interview row
    missing it raises [IndexError].  When it raises, nothing is written. *)
Theorem check_and_update_outcomes (mean : list Q → Q) (round1 : Q → Q)
    (now : string) (interview_id : Z) (skill : string) (w : world) :
  let answered := answered_skill_questions_of interview_id skill (db w) in
  let total := length (skill_questions_of interview_id skill (db w)) in
  let scores := interviews.scores_of answered in
  let '(w', outcome) :=
    interviews.check_and_update_skill_rating mean round1 now interview_id skill w in
  match outcome with
  | Ok (interviews.SkillIncomplete s a t) =>
      w' = w ∧ s = skill ∧ a = length answered ∧ t = total ∧
      (a < t ∨ t = 0 ∨ scores = [])
  | Ok (interviews.SkillCompleted s stars avg a) =>
      s = skill ∧ a = length answered ∧ a = total ∧ 0 < a ∧ scores ≠ [] ∧
      ∃ numbers,
        mapM number_of_cell scores = Some numbers ∧
        stars = interviews.convert_score_to_stars (mean (Qred <$> numbers)) ∧
        avg = round1 (mean (Qred <$> numbers)) ∧
        stored_rating interview_id skill w' = Some (rating_of mean numbers now) ∧
        interview_questions (db w') = interview_questions (db w)
  | Raise e =>
      w' = w ∧ length answered = total ∧ scores ≠ [] ∧
      ((∃ msg, e = py.TypeError msg) ∧ Exists (λ c, is_text (Some c)) scores ∨
       e = py.IndexError "list index out of range" ∧
       select_interview interview_id (db w) = [] ∧
       is_Some (mapM number_of_cell scores))
  end.
Proof.
  cbv zeta. rewrite check_and_update_unfold. cbv zeta.
  pose proof (length_answered_le interview_id skill (db w)) as Hle.
  destruct (bool_decide (_ = _)) eqn:Hall; cbn [andb].
  2:{ apply bool_decide_eq_false in Hall. split_and!; [done..|]. left. lia. }
  apply bool_decide_eq_true in Hall.
  destruct (bool_decide (0 < _)) eqn:Hpos.
  2:{ apply bool_decide_eq_false in Hpos. split_and!; [done..|]. right; left. lia. }
  apply bool_decide_eq_true in Hpos.
  destruct (interviews.scores_of _) as [|c scores] eqn:Hscores.
  { split_and!; [done..|]. by right; right. }
  pose proof (numbers_of_cells (c :: scores)) as Hsum.
  destruct (py.numbers_of _) as [numbers|e].
  2:{ split_and!; [done..|]. by left. }
  destruct (select_interview interview_id (db w)) as [|interview rest] eqn:Hsel.
  { split_and!; [done..|]. right. by split_and!. }
  split_and!; try done. exists numbers. split_and!; try done.
  by rewrite (stored_rating_write_rating _ _ _ _ _ _ Hsel).
Qed.

(** X9.  [store_skill_rating] reads the metadata of the interview,
    sets the entry of the one skill and writes the document back: the
    ratings of the other skills and the other sections of the metadata are
    kept, the other columns of every interview row, the rows of the other
    interviews and the question rows are untouched.  A text in the feedback
    column that is not a metadata document is replaced by a document that
    holds the rating only.  Without an interview row the call raises
    [IndexError] and nothing is written. *)
Theorem store_skill_rating_frame (now : string) (interview_id : Z) (skill : string)
    (star_rating : Z) (avg_score : Q) (w : world) :
  let '(w', outcome) :=
    interviews.store_skill_rating now interview_id skill star_rating avg_score w in
  interview_questions (db w') = interview_questions (db w) ∧
  generator_calls w' = generator_calls w ∧
  interview_columns <$> interviews (db w') = interview_columns <$> interviews (db w) ∧
  (∀ i, i ≠ interview_id → select_interview i (db w') = select_interview i (db w)) ∧
  match select_interview interview_id (db w) with
  | [] => w' = w ∧ outcome = Raise (py.IndexError "list index out of range")
  | interview :: _ =>
      let old := loads_feedback (interview.feedback interview) in
      outcome = Ok tt ∧
      ∃ m, metadata_of interview_id w' = Some m ∧
           ratings_of m !! skill
           = Some {| star_rating := star_rating; average_score := avg_score;
                     completed_at := now |} ∧
           (∀ other, other ≠ skill → ratings_of m !! other = ratings_of old !! other) ∧
           plan_sections m = plan_sections old
  end.
Proof.
  unfold interviews.store_skill_rating, bind, query, execute, raise.
  destruct (select_interview interview_id (db w)) as [|interview rest] eqn:Hsel.
  { by split_and!. }
  refine (conj _ (conj _ (conj _ (conj _ _)))); [done|done| | |].
  { apply interview_columns_set_feedback. }
  { intros i Hne. unfold with_db. cbn [db]. by apply select_interview_other. }
  cbv zeta. split; [done|]. eexists. split.
  { apply (metadata_of_write_rating interview_id skill
             {| star_rating := star_rating; average_score := avg_score;
                completed_at := now |} interview rest w Hsel). }
  unfold ratings_of, with_skill_rating. cbn. split_and!; [|intros other Hne|done].
  - by rewrite lookup_insert_eq.
  - by rewrite lookup_insert_ne.
Qed.
End rating_steps.

(** ** What a submission writes *)

Section submission_frame.
Import database.
Variable fenced_block : string → option string.
Variable evaluation_reply : string → string → string → string → groq_client.response.
Variable loads_evaluation : string → json_doc response_evaluator.evaluation.
Variable numeric_text : string → option Q.
Variable mean : list Q → Q.
Variable round1 : Q → Q.

Abbreviation submit_response :=
  (interviews.submit_skill_based_response fenced_block evaluation_reply loads_evaluation
     numeric_text mean round1).
Abbreviation check_rating := (interviews.check_and_update_skill_rating mean round1).
Abbreviation stored_evaluation question_data response :=
  (submitted_evaluation evaluation_reply loads_evaluation fenced_block
     (interview_question.question question_data) response
     (interview_question.question_type question_data)).
Abbreviation stored_score question_data response :=
  (submitted_score evaluation_reply loads_evaluation fenced_block numeric_text
     (interview_question.question question_data) response
     (interview_question.question_type question_data)).

Lemma submission_writes_refl question_id interview_id w :
  submission_writes question_id interview_id w w.
Proof. by split_and!. Qed.

Lemma submission_writes_trans question_id interview_id w1 w2 w3 :
  submission_writes question_id interview_id w1 w2 →
  submission_writes question_id interview_id w2 w3 →
  submission_writes question_id interview_id w1 w3.
Proof.
  intros (H1 & H2 & H3 & H4 & H5) (H1' & H2' & H3' & H4' & H5').
  split_and!; [congruence| |congruence..].
  intros i Hi. by rewrite H2', H2.
Qed.

(** A write to the row of the interview that keeps the identity columns. *)
Lemma submission_writes_interview question_id interview_id f w :
  (∀ r, interview_identity (f r) = interview_identity r) →
  submission_writes question_id interview_id w
    (with_db (update_interview interview_id f) w).
Proof.
  intros Hf.
  assert (∀ r, interview.id (f r) = interview.id r) as Hid.
  { intros r. specialize (Hf r). unfold interview_identity in Hf. by simplify_eq. }
  split_and!; [done| | |done|done].
  - intros i Hne. unfold with_db. cbn [db]. by apply select_interview_other.
  - unfold with_db, update_interview. cbn [db interviews].
    rewrite <- list_fmap_compose. apply list_fmap_ext. intros k r _. cbn.
    destruct (decide _); by rewrite ?Hf.
Qed.

(** A write to the rows with the submitted key that keeps the columns
    written at insertion. *)
Lemma submission_writes_question question_id interview_id f w :
  (∀ r, question_columns (f r) = question_columns r) →
  submission_writes question_id interview_id w
    (with_db (update_question question_id f) w).
Proof.
  intros Hf.
  split_and!; [done|done|done| |]; unfold with_db, update_question;
    cbn [db interview_questions].
  - rewrite <- list_fmap_compose. apply list_fmap_ext. intros k r _. cbn.
    destruct (decide _); by rewrite ?Hf.
  - induction (interview_questions (db w)) as [|r l IH]; [done|].
    cbn [fmap list_fmap].
    destruct (decide (interview_question.id r = question_id)) as [Hr|Hr].
    + assert (interview_question.id (f r) = question_id) as Hfr.
      { specialize (Hf r). unfold question_columns in Hf. by simplify_eq. }
      rewrite !filter_cons_False; [exact IH|by intros []|by intros []].
    + rewrite !filter_cons_True by done. by rewrite IH.
Qed.

Lemma submission_writes_record_text question_id interview_id response w :
  submission_writes question_id interview_id w
    (with_db (record_text question_id response) w).
Proof. by apply submission_writes_question. Qed.

Lemma submission_writes_record question_id interview_id response evaluation score w :
  submission_writes question_id interview_id w
    (with_db (record_response question_id response evaluation score) w).
Proof.
  eapply submission_writes_trans; [apply submission_writes_record_text|].
  replace (with_db (record_response question_id response evaluation score) w)
    with (with_db (update_question question_id
                     (interview_question.set_evaluation (Evaluated evaluation) score))
            (with_db (record_text question_id response) w)) by (by destruct w).
  by apply submission_writes_question.
Qed.

Lemma check_and_update_world now interview_id skill w :
  (check_rating now interview_id skill w).1 = w ∨
  ∃ c, (check_rating now interview_id skill w).1
       = with_db (update_interview interview_id (interview.set_feedback c)) w.
Proof.
  rewrite check_and_update_unfold. cbv zeta.
  repeat case_match; try (by left). right. by eexists.
Qed.

Lemma submission_writes_check question_id now interview_id skill w :
  submission_writes question_id interview_id w (check_rating now interview_id skill w).1.
Proof.
  destruct (check_and_update_world now interview_id skill w) as [->|[c ->]].
  - apply submission_writes_refl.
  - by apply submission_writes_interview.
Qed.

Lemma record_text_sets_response question_id response t r :
  r ∈ interview_questions (record_text question_id response t) →
  interview_question.id r = question_id →
  interview_question.response r = Some response.
Proof.
  unfold record_text, update_question. cbn [interview_questions].
  intros (r0 & -> & _)%list_elem_of_fmap.
  destruct (decide (interview_question.id r0 = question_id)); [by eauto|done].
Qed.

Lemma record_sets_response question_id response evaluation score t r :
  r ∈ interview_questions (record_response question_id response evaluation score t) →
  interview_question.id r = question_id →
  interview_question.response r = Some response ∧
  interview_question.evaluation r = Some (Evaluated evaluation) ∧
  interview_question.score r = score.
Proof.
  rewrite record_rows. intros (r0 & -> & _)%list_elem_of_fmap.
  destruct (decide (interview_question.id r0 = question_id)); [by eauto|done].
Qed.

(** What a submission did, in terms of its steps. *)
Lemma submit_steps now question_id response w question_data interview rest :
  select_question_with_interview question_id (db w) = (question_data, interview) :: rest →
  let '(w', outcome) := submit_response now question_id response w in
  let interview_id := interview.id interview in
  let skill := interview_question.question_type question_data in
  match stored_score question_data response with
  | Raise e =>
      w' = with_db (record_text question_id response) w ∧ outcome = Raise e
  | Ok score =>
      let w2 :=
        with_db (record_response question_id response
                   (stored_evaluation question_data response) score) w in
      let w3 := (check_rating now interview_id skill w2).1 in
      match outcome with
      | Raise e => w' = w2 ∧ (check_rating now interview_id skill w2).2 = Raise e
      | Ok reply =>
          w' = (if interviews.completed (interviews.progress reply)
                then mark_completed now interview_id w3 else w3) ∧
          interviews.completed (interviews.progress reply)
          = bool_decide (length (questions_of interview_id (db w3))
                         = length (answered_questions_of interview_id (db w3)))
      end
  end.
Proof.
  intros Hjoin. rewrite submit_unfold, Hjoin. cbv zeta.
  pose proof (join_first _ _ _ _ _ Hjoin) as (_ & _ & _ & Hi).
  destruct (stored_score question_data response) as [score|e]; [|done].
  set (w2 := with_db _ w).
  assert (select_interview (interview.id interview) (db w2) ≠ []) as Hsel.
  { change (select_interview (interview.id interview) (db w2))
      with (select_interview (interview.id interview) (db w)).
    intros Hnil. rewrite Hnil in Hi. by apply elem_of_nil in Hi. }
  pose proof (check_and_update_outcome mean round1 now (interview.id interview)
                (interview_question.question_type question_data) w2 Hsel) as Hout.
  destruct (interviews.check_and_update_skill_rating _ _ _ _ _ _) as [w3 [update|e]];
    cbn [fst snd interviews.progress interviews.completed].
  - done.
  - by destruct Hout as (-> & _).
Qed.

(** X10.  A submission for an unknown question leaves the state as it
    is.  Any other submission writes, of the question rows, only the
    response, evaluation and score of the rows with the submitted key, whose
    response is the submitted text afterwards, and whose evaluation and
    score are those of the service's evaluation unless that score cannot be
    bound; it inserts or deletes no row; it leaves the rows of every other
    interview as they are, changes no candidate name or skill area, and
    does not invoke the card generator. *)
Theorem submit_frame (now : string) (question_id : Z) (response : string) (w : world) :
  let '(w', outcome) := submit_response now question_id response w in
  match select_question_with_interview question_id (db w) with
  | [] => w' = w
  | (question_data, interview) :: _ =>
      submission_writes question_id (interview.id interview) w w' ∧
      ∀ r, r ∈ interview_questions (db w') → interview_question.id r = question_id →
           interview_question.response r = Some response ∧
           match stored_score question_data response with
           | Ok score =>
               interview_question.evaluation r
               = Some (Evaluated (stored_evaluation question_data response)) ∧
               interview_question.score r = score
           | Raise _ => True
           end
  end.
Proof.
  destruct (select_question_with_interview question_id (db w))
    as [|[question_data interview] rest] eqn:Hjoin.
  { by rewrite submit_unfold, Hjoin. }
  pose proof (submit_steps now question_id response w _ _ _ Hjoin) as Hsteps.
  destruct (submit_response now question_id response w) as [w' outcome].
  cbv zeta in Hsteps.
  destruct (stored_score question_data response) as [score|e].
  all: set (interview_id := interview.id interview) in *.
  all: set (skill := interview_question.question_type question_data) in *.
  2:{ destruct Hsteps as [-> _]. split; [apply submission_writes_record_text|].
      intros r Hr Hid. split; [|done].
      by eapply (record_text_sets_response question_id response (db w)). }
  set (w2 := with_db _ w) in *.
  pose proof (submission_writes_record question_id interview_id response
                (stored_evaluation question_data response) score w) as Hrecord.
  pose proof (submission_writes_check question_id now interview_id skill w2) as Hcheck.
  pose proof (check_and_update_questions mean round1 now interview_id skill w2) as Hrows.
  fold w2 in Hrecord.
  assert (∀ r, r ∈ interview_questions (db w2) → interview_question.id r = question_id →
               interview_question.response r = Some response ∧
               interview_question.evaluation r
               = Some (Evaluated (stored_evaluation question_data response)) ∧
               interview_question.score r = score) as Hset.
  { intros r Hr. by apply (record_sets_response question_id response _ score (db w)). }
  destruct outcome as [reply|e].
  - destruct Hsteps as [-> _]. split.
    + eapply submission_writes_trans; [exact Hrecord|].
      eapply submission_writes_trans; [exact Hcheck|].
      destruct (interviews.completed _); [|apply submission_writes_refl].
      by apply submission_writes_interview.
    + intros r Hr. apply Hset. rewrite <- Hrows. by destruct (interviews.completed _).
  - destruct Hsteps as [-> _]. split; [exact Hrecord|]. intros r Hr. by apply Hset.
Qed.

(** *** The completion time *)

Lemma completed_at_of_set_feedback interview_id i c w :
  completed_at_of interview_id (with_db (update_interview i (interview.set_feedback c)) w)
  = completed_at_of interview_id w.
Proof.
  unfold completed_at_of, with_db. cbn [db]. rewrite select_interview_update by done.
  destruct (select_interview interview_id (db w)) as [|r l]; [done|].
  cbn. by destruct (decide _).
Qed.

Lemma completed_at_of_check now interview_id skill w i :
  completed_at_of i (check_rating now interview_id skill w).1 = completed_at_of i w.
Proof.
  destruct (check_and_update_world now interview_id skill w) as [->|[c ->]]; [done|].
  apply completed_at_of_set_feedback.
Qed.

Lemma completed_at_of_mark_completed now interview_id w :
  select_interview interview_id (db w) ≠ [] →
  completed_at_of interview_id (mark_completed now interview_id w) = Some (Some now).
Proof.
  intros Hsel. unfold completed_at_of, mark_completed, with_db. cbn [db].
  rewrite select_interview_update by done.
  destruct (select_interview interview_id (db w)) as [|r l] eqn:Hrows; [done|].
  assert (interview.id r = interview_id) as Hr.
  { apply (select_interview_id interview_id (db w)). rewrite Hrows. left. }
  cbn. by rewrite decide_True.
Qed.

Lemma select_nonempty_status interview_id w :
  select_interview interview_id (db w) ≠ [] ↔ is_Some (status_of interview_id w).
Proof.
  unfold status_of. destruct (select_interview _ _); cbn; split; done.
Qed.

(** X11.  A submission whose progress flag says completed stamps the
    interview with the time of that submission, also when the interview was
    completed before, so the completion time moves with every later
    submission that returns; a submission whose flag is not set, and one
    that raises, leaves the stored completion time as it is. *)
Theorem submit_restamps_completion (now : string) (question_id : Z) (response : string)
    (w : world) :
  let '(w', outcome) := submit_response now question_id response w in
  match select_question_with_interview question_id (db w), outcome with
  | (_, interview) :: _, Ok reply =>
      completed_at_of (interview.id interview) w'
      = if interviews.completed (interviews.progress reply)
        then Some (Some now)
        else completed_at_of (interview.id interview) w
  | (_, interview) :: _, Raise _ =>
      completed_at_of (interview.id interview) w'
      = completed_at_of (interview.id interview) w
  | [], _ => w' = w
  end.
Proof.
  destruct (select_question_with_interview question_id (db w))
    as [|[question_data interview] rest] eqn:Hjoin.
  { by rewrite submit_unfold, Hjoin. }
  pose proof (submit_steps now question_id response w _ _ _ Hjoin) as Hsteps.
  destruct (submit_response now question_id response w) as [w' outcome].
  cbv zeta in Hsteps.
  destruct (stored_score question_data response) as [score|e].
  2:{ by destruct Hsteps as [-> ->]. }
  set (interview_id := interview.id interview) in *.
  set (skill := interview_question.question_type question_data) in *.
  apply join_first in Hjoin as (_ & _ & _ & Hinterview). fold interview_id in Hinterview.
  set (w2 := with_db _ w) in *.
  assert (select_interview interview_id (db w2) ≠ []) as Hsel2.
  { change (select_interview interview_id (db w2)) with (select_interview interview_id (db w)).
    intros Hnil. rewrite Hnil in Hinterview. by apply elem_of_nil in Hinterview. }
  pose proof (completed_at_of_check now interview_id skill w2 interview_id) as Hkept.
  pose proof (check_and_update_status mean round1 now interview_id skill w2 interview_id)
    as Hstatus.
  destruct outcome as [reply|e].
  - destruct Hsteps as [-> _]. destruct (interviews.completed _).
    + apply completed_at_of_mark_completed, select_nonempty_status.
      rewrite Hstatus. by apply select_nonempty_status.
    + by rewrite Hkept.
  - by destruct Hsteps as [-> _].
Qed.
End submission_frame.

(** The finished interview of the scenario was completed at 10:15; a
    further response to question 1 at 10:20 moves its completion time. *)
Example completion_time_moves :
  completed_at_of 1 journey.finished = Some (Some "10:15") ∧
  completed_at_of 1 (scripted.submit "10:20" 1 "two" journey.finished)
  = Some (Some "10:20") ∧
  completed_at_of 1 (scripted.submit "10:20" 4 "eight of ten" journey.finished)
  = Some (Some "10:15").
Proof. by vm_compute. Qed.

(** ** Rounding and averaging *)

Lemma round_bounds (x : Q) (lo hi : Z) :
  (inject_Z lo <= x <= inject_Z hi)%Q → (lo <= py.round x <= hi)%Z.
Proof.
  intros [Hlo Hhi]. unfold py.round. cbv zeta.
  pose proof (Qfloor_le x) as Hf. pose proof (Qlt_floor x) as Hf'.
  rewrite inject_Z_plus in Hf'.
  assert (lo <= Qfloor x)%Z as Hlo'.
  { assert (inject_Z lo < inject_Z (Qfloor x + 1))%Q as H
      by (rewrite inject_Z_plus; lra).
    rewrite <- Zlt_Qlt in H. lia. }
  assert (Qfloor x <= hi)%Z as Hhi' by (rewrite Zle_Qle; lra).
  assert ((inject_Z (Qfloor x) < x)%Q → (Qfloor x + 1 <= hi)%Z) as Hup.
  { intros Hlt. assert (inject_Z (Qfloor x) < inject_Z hi)%Q as H by lra.
    rewrite <- Zlt_Qlt in H. lia. }
  destruct (Qcompare_spec (x - inject_Z (Qfloor x)) (1 # 2)) as [Heq|Hlt|Hgt].
  - destruct (Z.even _); [lia|]. split; [lia|]. apply Hup. lra.
  - lia.
  - split; [lia|]. apply Hup. lra.
Qed.

Lemma foldl_Qplus_bounds (l : list Q) (a lo hi : Q) :
  Forall (λ x, lo <= x <= hi)%Q l →
  (a + inject_Z (Z.of_nat (length l)) * lo <= foldl Qplus a l
   <= a + inject_Z (Z.of_nat (length l)) * hi)%Q.
Proof.
  intros Hall. revert a. induction Hall as [|x l [Hlo Hhi] _ IH]; intros a.
  { cbn [foldl length]. change (inject_Z (Z.of_nat 0)) with 0%Q. lra. }
  cbn [foldl length]. specialize (IH (a + x)%Q).
  rewrite Nat2Z.inj_succ. unfold Z.succ. rewrite inject_Z_plus.
  set (k := inject_Z (Z.of_nat (length l))) in *.
  change (inject_Z 1) with 1%Q. lra.
Qed.

Lemma mean_bounds (l : list Q) (lo hi : Q) :
  l ≠ [] → Forall (λ x, lo <= x <= hi)%Q l → (lo <= py.mean l <= hi)%Q.
Proof.
  intros Hne Hall. unfold py.mean, py.sum.
  pose proof (foldl_Qplus_bounds l 0 lo hi Hall) as [Hlo Hhi].
  assert (0 < inject_Z (Z.of_nat (length l)))%Q as Hpos.
  { change 0%Q with (inject_Z 0). rewrite <- Zlt_Qlt. destruct l; [done|cbn; lia]. }
  split.
  - apply Qle_shift_div_l; [done|]. lra.
  - apply Qle_shift_div_r; [done|]. lra.
Qed.

Lemma list_min_max (l : list Z) :
  l ≠ [] → ∃ a b, a ∈ l ∧ b ∈ l ∧ Forall (λ x, a <= x <= b)%Z l.
Proof.
  induction l as [|x l IH]; [done|]. intros _.
  destruct l as [|y l].
  { exists x, x. split_and!; [left|left|]. by repeat constructor. }
  destruct IH as (a & b & Ha & Hb & Hall); [done|].
  exists (Z.min x a), (Z.max x b). split_and!.
  - destruct (Z.min_spec x a) as [[_ ->]|[_ ->]]; [left|by right].
  - destruct (Z.max_spec x b) as [[_ ->]|[_ ->]]; [by right|left].
  - constructor; [lia|]. eapply Forall_impl; [exact Hall|]. cbn. lia.
Qed.

(** The rounded mean of some star ratings lies between two of them. *)
Lemma overall_stars_between (skill_ratings : gmap string Z) :
  skill_ratings ≠ ∅ →
  ∃ s1 s2 a b, skill_ratings !! s1 = Some a ∧ skill_ratings !! s2 = Some b ∧
               (a <= interviews.overall_stars_of skill_ratings <= b)%Z.
Proof.
  intros Hne. unfold interviews.overall_stars_of.
  assert ((map_to_list skill_ratings).*2 ≠ []) as Hvalues.
  { intros Hnil. apply fmap_nil_inv in Hnil. by apply map_to_list_empty_iff in Hnil. }
  destruct (list_min_max _ Hvalues) as (a & b & Ha & Hb & Hall).
  apply list_elem_of_fmap in Ha as ([s1 a'] & -> & Ha%elem_of_map_to_list).
  apply list_elem_of_fmap in Hb as ([s2 b'] & -> & Hb%elem_of_map_to_list).
  exists s1, s2, a', b'. split; [done|]. split; [done|]. cbn [snd] in Hall.
  apply round_bounds, mean_bounds.
  - intros Hnil. by apply fmap_nil_inv in Hnil.
  - apply Forall_fmap. eapply Forall_impl; [exact Hall|]. cbn.
    intros x [? ?]. by rewrite <- !Zle_Qle.
Qed.

(** ** What a results fetch writes *)

Section fetch_frame.
Import database.
Variable mean : list Q → Q.
Variable matching_file : list string → string → string → option string.

Abbreviation fetch CARD_GENERATION_AVAILABLE card_generator :=
  (interviews.get_interview_results_with_auto_cards
     mean CARD_GENERATION_AVAILABLE card_generator matching_file).

Lemma fetch_writes_refl interview_id w : fetch_writes interview_id w w.
Proof. split_and!; [done..|by left|lia|lia]. Qed.

Lemma fetch_writes_with_cards interview_id block interview rest w calls :
  select_interview interview_id (db w) = interview :: rest →
  generator_calls w ≤ calls ≤ S (generator_calls w) →
  fetch_writes interview_id w
    (with_db (update_interview interview_id
                (interview.set_feedback
                   (Json (with_card_generation block
                            (loads_feedback (interview.feedback interview))))))
       {| db := db w; generator_calls := calls |}).
Proof.
  intros Hsel Hcalls. unfold fetch_writes, with_db. cbn [db generator_calls].
  split_and!; [done| | | |lia|lia].
  - apply interview_columns_set_feedback.
  - intros i Hne. by apply select_interview_other.
  - right. exists (interview.feedback interview), block.
    unfold feedback_of. cbn [db].
    rewrite (head_select_interview_update _ _ _ interview rest) by done.
    by rewrite Hsel.
Qed.

Lemma auto_generate_writes (CARD_GENERATION_AVAILABLE : bool)
    (card_generator : option (nat → gmap string Z → interviews.generation))
    (now : string) (interview_id : Z) (skill_ratings : gmap string Z) (w : world) :
  fetch_writes interview_id w
    (interviews.auto_generate_skill_cards CARD_GENERATION_AVAILABLE card_generator
       matching_file now interview_id skill_ratings w).1 ∧
  ∃ info, (interviews.auto_generate_skill_cards CARD_GENERATION_AVAILABLE card_generator
             matching_file now interview_id skill_ratings w).2 = Ok info.
Proof.
  pose proof (auto_generate_unfold matching_file CARD_GENERATION_AVAILABLE card_generator
                now interview_id skill_ratings w) as H.
  destruct (interviews.auto_generate_skill_cards _ _ _ _ _ _ _) as [w' outcome].
  cbn [fst snd].
  destruct H as [(reason & -> & Hdb & Hcalls)
                |(generator & new_files & interview & rest & _ & _ & Hsel & H)].
  - split; [|by eauto]. unfold fetch_writes, feedback_of. rewrite Hdb.
    split_and!; [done..|by left|lia|lia].
  - destruct (foldl _ _ (map_to_list skill_ratings)) as [[cards generated] failed].
    destruct H as [-> ->]. split; [|by eauto].
    apply (fetch_writes_with_cards _ _ _ _ _ _ Hsel). lia.
Qed.

(** X12.  A results fetch for an unknown interview raises 404 and
    changes nothing.  A fetch that finds no stored rating and, among the
    answered questions, a text as score raises the [TypeError] of the
    recomputation and changes nothing.  Any other fetch returns a reply
    that echoes the interview key and the candidate name, status and
    completion time of the interview row, with [total_skills] the number of
    rated skills.  A fetch writes no question row and no column of any
    interview other than the feedback of the fetched one; it leaves that
    feedback as it is or sets the card-generation block in the metadata
    document it holds, and a feedback that held no metadata document is then
    replaced by a document with that block alone; it invokes the card
    generator at most once. *)
Theorem results_fetch_frame (CARD_GENERATION_AVAILABLE : bool)
    (card_generator : option (nat → gmap string Z → interviews.generation))
    (now : string) (interview_id : Z) (w : world) :
  let '(w', outcome) :=
    fetch CARD_GENERATION_AVAILABLE card_generator now interview_id w in
  fetch_writes interview_id w w' ∧
  match outcome, select_interview interview_id (db w) with
  | Raise e, [] => e = py.HTTPException 404 "Interview not found" ∧ w' = w
  | Raise e, _ :: _ =>
      w' = w ∧ (∃ msg, e = py.TypeError msg) ∧
      stored_path interview_id w = ∅ ∧
      Exists (λ q, is_text (interview_question.score q))
             (answered_questions_of interview_id (db w))
  | Ok reply, interview_data :: _ =>
      interviews.interview_id reply = interview_id ∧
      interviews.candidate_name reply = interview.candidate_name interview_data ∧
      interviews.status reply = interview.status interview_data ∧
      interviews.completed_at reply = interview.completed_at interview_data ∧
      ratings_read mean interview_id interview_data (db w)
      = Ok (interviews.skill_ratings reply) ∧
      interviews.total_skills reply = size (interviews.skill_ratings reply)
  | Ok _, [] => False
  end.
Proof.
  rewrite results_unfold.
  destruct (select_interview interview_id (db w)) as [|interview_data rest] eqn:Hsel.
  { split; [apply fetch_writes_refl|done]. }
  cbv zeta.
  pose proof (ratings_read_paths mean interview_id w interview_data rest Hsel) as Hpaths.
  destruct (ratings_read mean interview_id interview_data (db w)) as [ratings|e].
  2:{ split; [apply fetch_writes_refl|]. split; [done|].
      destruct (decide (stored_path interview_id w = ∅)) as [Hnone|]; [|done].
      symmetry in Hpaths. apply on_the_fly_Raise in Hpaths as [Hmsg Htext]. done. }
  destruct (decide (ratings = ∅)) as [Hnone|Hsome].
  { split; [apply fetch_writes_refl|done]. }
  destruct (card_generation _) as [block|];
    destruct CARD_GENERATION_AVAILABLE;
    destruct card_generator as [generator|];
    try (split; [apply fetch_writes_refl|done]).
  pose proof (auto_generate_writes true (Some generator) now interview_id ratings w)
    as [Hwrites [info Hinfo]].
  destruct (interviews.auto_generate_skill_cards _ _ _ _ _ _ _) as [w1 outcome].
  cbn [fst snd] in *. by subst outcome.
Qed.

(** X13.  In a results reply without rated skills the overall stars and
    the overall score are both 1 and no card information is given.
    Otherwise the overall score is twice the overall stars, and the overall
    stars, the rounded mean of the star ratings, lie between two of the
    ratings of the reply; ratings that were recomputed from the answered
    questions all lie between 1 and 5.  The fetch raises only for an unknown
    interview, or when no rating is stored and the recomputation raises. *)
Theorem results_overall_rating (CARD_GENERATION_AVAILABLE : bool)
    (card_generator : option (nat → gmap string Z → interviews.generation))
    (now : string) (interview_id : Z) (w : world) :
  let '(w', outcome) :=
    fetch CARD_GENERATION_AVAILABLE card_generator now interview_id w in
  match outcome with
  | Raise e =>
      select_interview interview_id (db w) = [] ∨
      stored_path interview_id w = ∅ ∧ fly_path mean interview_id w = Raise e
  | Ok reply =>
      let ratings := interviews.skill_ratings reply in
      (if decide (ratings = ∅)
       then interviews.overall_stars reply = 1%Z ∧
            interviews.overall_score reply = 1%Z ∧
            interviews.card_generation reply = None
       else interviews.overall_score reply = (2 * interviews.overall_stars reply)%Z ∧
            is_Some (interviews.card_generation reply) ∧
            ∃ s1 s2 a b, ratings !! s1 = Some a ∧ ratings !! s2 = Some b ∧
                         (a <= interviews.overall_stars reply <= b)%Z) ∧
      (stored_path interview_id w = ratings ∧ ratings ≠ ∅ ∨
       stored_path interview_id w = ∅ ∧ fly_path mean interview_id w = Ok ratings ∧
       map_Forall (λ _ stars, 1 <= stars <= 5)%Z ratings)
  end.
Proof.
  rewrite results_unfold.
  destruct (select_interview interview_id (db w)) as [|interview_data rest] eqn:Hsel.
  { by left. }
  cbv zeta.
  pose proof (ratings_read_paths mean interview_id w interview_data rest Hsel) as Hpaths.
  destruct (ratings_read mean interview_id interview_data (db w)) as [ratings|e].
  2:{ right. by destruct (decide (stored_path interview_id w = ∅)). }
  assert (stored_path interview_id w = ratings ∧ ratings ≠ ∅ ∨
          stored_path interview_id w = ∅ ∧ fly_path mean interview_id w = Ok ratings ∧
          map_Forall (λ _ stars, 1 <= stars <= 5)%Z ratings) as Hsource.
  { destruct (decide (stored_path interview_id w = ∅)) as [Hnone|Hsome].
    - right. split_and!; [done|done|]. symmetry in Hpaths.
      by apply on_the_fly_range in Hpaths.
    - left. by simplify_eq. }
  clear Hpaths.
  destruct (decide (ratings = ∅)) as [Hnone|Hsome].
  { cbn [interviews.skill_ratings]. rewrite decide_True by done. done. }
  pose proof (overall_stars_between ratings Hsome) as Hbetween.
  destruct (card_generation _) as [block|];
    destruct CARD_GENERATION_AVAILABLE;
    destruct card_generator as [generator|];
    try (cbn [interviews.skill_ratings interviews.overall_stars interviews.overall_score
              interviews.card_generation];
         rewrite decide_False by done;
         split; [split; [lia|]; split; [by eauto|done]|done]).
  pose proof (auto_generate_writes true (Some generator) now interview_id ratings w)
    as [_ [info Hinfo]].
  destruct (interviews.auto_generate_skill_cards _ _ _ _ _ _ _) as [w1 outcome].
  cbn [snd] in Hinfo. subst outcome.
  cbn [interviews.skill_ratings interviews.overall_stars interviews.overall_score
       interviews.card_generation].
  rewrite decide_False by done.
  split; [split; [lia|]; split; [by eauto|done]|done].
Qed.
End fetch_frame.

(** ** A card-generation run *)

Section card_run.
Import database.
Variable matching_file : list string → string → string → option string.

Lemma card_run_invariant (new_files : list string) (entries : list (string * Z)) :
  card_run_ok matching_file new_files entries
    (foldl (interviews.card_step matching_file new_files) (∅, [], []) entries).
Proof.
  induction entries as [|[skill_name star_rating] entries IH] using rev_ind.
  { cbn. split_and!; [done|set_solver|intros c Hc|intros f Hf];
      by apply elem_of_nil in Hc || by apply elem_of_nil in Hf. }
  rewrite foldl_app. cbn [foldl].
  destruct (foldl _ _ entries) as [[cards generated] failed].
  destruct IH as (Hperm & Hdom & Hgenerated & Hfailed).
  unfold interviews.card_step.
  destruct (matching_file new_files skill_name (interviews.rarity_mapping star_rating))
    as [found_file|] eqn:Hfound; cbn.
  - split_and!.
    + rewrite !fmap_app. cbn. rewrite <- Hperm. solve_Permutation.
    + rewrite dom_insert_L, fmap_app, list_to_set_app_L, Hdom. cbn. set_solver.
    + intros c [Hc| ->%list_elem_of_singleton]%elem_of_app.
      * destruct (Hgenerated c Hc) as (? & ? & ? & ? & ?).
        split_and!; [|done..]. apply elem_of_app. by left.
      * cbn. split_and!; [|done..]. apply elem_of_app. right. by left.
    + intros f Hf. destruct (Hfailed f Hf) as [? ?].
      split; [|done]. apply elem_of_app. by left.
  - split_and!.
    + rewrite !fmap_app. cbn. rewrite <- Hperm. solve_Permutation.
    + done.
    + intros c Hc. destruct (Hgenerated c Hc) as (? & ? & ? & ? & ?).
      split_and!; [|done..]. apply elem_of_app. by left.
    + intros f [Hf| ->%list_elem_of_singleton]%elem_of_app.
      * destruct (Hfailed f Hf) as [? ?]. split; [|done]. apply elem_of_app. by left.
      * cbn. split; [|done]. apply elem_of_app. right. by left.
Qed.

Lemma size_list_to_set_le (l : list string) : size (list_to_set l : gset string) ≤ length l.
Proof.
  induction l as [|x l IH]; [done|].
  cbn [list_to_set length]. rewrite size_union_alt, size_singleton.
  assert (size (list_to_set l ∖ {[x]} : gset string) ≤ size (list_to_set l : gset string))
    as H by (apply subseteq_size; set_solver).
  lia.
Qed.

(** X14.  When [auto_generate_skill_cards] reports generated cards:
    every rated skill is either among the generated cards or among the
    failed ones, once, so success and failure counts add up to the number of
    rated skills; [total_cards] is the success count; the mapping has one
    key per file name found, hence at most [total_cards] entries; every
    generated card carries the star rating of its skill, the rarity of that
    rating and a path inside the card directory; and the block stored in
    the interview metadata holds these same results.  Every other outcome
    is a refusal with a reason, and writes nothing. *)
Theorem card_run_counts (CARD_GENERATION_AVAILABLE : bool)
    (card_generator : option (nat → gmap string Z → interviews.generation))
    (now : string) (interview_id : Z) (skill_ratings : gmap string Z) (w : world) :
  let '(w', outcome) :=
    interviews.auto_generate_skill_cards CARD_GENERATION_AVAILABLE card_generator
      matching_file now interview_id skill_ratings w in
  match outcome with
  | Ok (interviews.Generated success failure directory mapping_file generated mapping) =>
      success = length generated ∧
      success + failure = size skill_ratings ∧
      total_cards mapping = success ∧
      dom (cards mapping) = list_to_set (file_name <$> generated) ∧
      size (cards mapping) ≤ total_cards mapping ∧
      NoDup (generated_skill <$> generated) ∧
      (∀ c, c ∈ generated →
            skill_ratings !! generated_skill c = Some (generated_star_rating c) ∧
            generated_rarity c = interviews.rarity_mapping (generated_star_rating c) ∧
            generated_file_path c = "card_images/" +:+ file_name c) ∧
      ∃ block,
        stored_cards interview_id w' = Some block ∧
        mapping_file_content block = mapping ∧
        success_count (results block) = success ∧
        failure_count (results block) = failure ∧
        total_skills (results block) = size skill_ratings ∧
        generated_cards (results block) = generated ∧
        (generated_skill <$> generated) ++ (failed_skill <$> failed_cards (results block))
          ≡ₚ (map_to_list skill_ratings).*1
  | Ok (interviews.NotGenerated _) => db w' = db w
  | Ok (interviews.StoredBlock _) | Raise _ => False
  end.
Proof.
  pose proof (auto_generate_unfold matching_file CARD_GENERATION_AVAILABLE card_generator
                now interview_id skill_ratings w) as H.
  destruct (interviews.auto_generate_skill_cards _ _ _ _ _ _ _) as [w' outcome].
  destruct H as [(reason & -> & Hdb & _)
                |(generator & new_files & interview & rest & _ & _ & Hsel & H)]; [done|].
  pose proof (card_run_invariant new_files (map_to_list skill_ratings)) as Hrun.
  destruct (foldl _ _ (map_to_list skill_ratings)) as [[cards generated] failed].
  destruct H as [-> ->].
  destruct Hrun as (Hperm & Hdom & Hgenerated & Hfailed).
  assert (length generated + length failed = size skill_ratings) as Hcount.
  { rewrite <- length_map_to_list, <- (length_fmap fst (map_to_list skill_ratings)), <- Hperm.
    by rewrite length_app, !length_fmap. }
  cbn [total_cards database.cards].
  split_and!; [done|done|done|done| | | |].
  - rewrite <- (length_fmap file_name generated), <- size_dom, Hdom.
    apply size_list_to_set_le.
  - assert (NoDup ((generated_skill <$> generated) ++ (failed_skill <$> failed)))
      as Hnodup by (rewrite Hperm; apply NoDup_fst_map_to_list).
    by apply NoDup_app in Hnodup as [? _].
  - intros c (Hentry & Hrarity & Hpath & _)%Hgenerated.
    by apply elem_of_map_to_list in Hentry.
  - eexists. split.
    { set (w1 := with_db _ _).
      eassert (select_interview interview_id (db w1) = _ :: _) as Hsel1.
      { unfold w1, with_db. cbn [db]. rewrite select_interview_update, Hsel by done.
        cbn [fmap list_fmap].
        rewrite decide_True; [reflexivity|].
        apply (select_interview_id interview_id (db w)). rewrite Hsel. left. }
      rewrite (stored_cards_select _ _ _ _ Hsel1). reflexivity. }
    cbn. by split_and!.
Qed.
End card_run.

(** ** The stored ratings along the life of an interview *)

Section row_facts.
Import database.
Variable mean : list Q → Q.

Lemma filter_fmap_fixed {A} (P : A → Prop) `{!∀ x, Decision (P x)} (g : A → A)
    (l : list A) :
  (∀ x, x ∈ l → g x = x ∨ (¬ P x ∧ ¬ P (g x))) → filter P (g <$> l) = filter P l.
Proof.
  induction l as [|a l IH]; intros Hg; [done|].
  cbn [fmap list_fmap]. rewrite !filter_cons.
  rewrite IH by (intros x Hx; apply Hg; by right).
  destruct (Hg a) as [->|[Ha Hga]]; [left|done|].
  by rewrite !decide_False.
Qed.

(** A key names one row. *)
Lemma key_determines_row (l : list interview_question.row) q r :
  NoDup (interview_question.id <$> l) → q ∈ l → r ∈ l →
  interview_question.id q = interview_question.id r → q = r.
Proof.
  induction l as [|a l IH]; [by intros _ ?%elem_of_nil|].
  cbn [fmap list_fmap]. intros [Hnew Hnodup]%NoDup_cons Hq Hr Hkey.
  apply elem_of_cons in Hq as [->|Hq]; apply elem_of_cons in Hr as [->|Hr].
  - done.
  - exfalso. apply Hnew. rewrite Hkey. apply list_elem_of_fmap. by exists r.
  - exfalso. apply Hnew. rewrite <- Hkey. apply list_elem_of_fmap. by exists q.
  - by apply IH.
Qed.

Lemma scores_of_fmap (g : interview_question.row → interview_question.row)
    (l : list interview_question.row) :
  (∀ r, interview_question.score (g r) = interview_question.score r) →
  interviews.scores_of (g <$> l) = interviews.scores_of l.
Proof.
  intros Hg. unfold interviews.scores_of.
  induction l as [|a l IH]; [done|]. cbn. by rewrite Hg, IH.
Qed.

Lemma rows_of_skill_fmap (g : interview_question.row → interview_question.row)
    skill (l : list interview_question.row) :
  (∀ r, interview_question.question_type (g r) = interview_question.question_type r) →
  rows_of_skill skill (g <$> l) = g <$> rows_of_skill skill l.
Proof.
  intros Hg. unfold rows_of_skill. apply filter_fmap_commute. intros r. by rewrite Hg.
Qed.

(** When all scores are numbers, they are the numbers of the rows. *)
Lemma numbers_of_rows_mapM (l : list interview_question.row) numbers :
  mapM number_of_cell (interviews.scores_of l) = Some numbers →
  numbers_of_rows l = numbers.
Proof.
  unfold numbers_of_rows. generalize (interviews.scores_of l). clear l.
  intros l. revert numbers. induction l as [|c l IH]; intros numbers.
  { by intros [= <-]. }
  cbn. destruct (number_of_cell c) as [x|]; cbn; [|done].
  destruct (mapM number_of_cell l) as [ns|]; cbn; [|done].
  intros [= <-]. by rewrite (IH ns).
Qed.

Lemma numerically_scored_numbers (l : list interview_question.row) :
  numerically_scored l →
  filter (λ r, is_Some (interview_question.response r)) l = l ∧
  length (interviews.scores_of l) = length l ∧
  mapM number_of_cell (interviews.scores_of l) = Some (numbers_of_rows l).
Proof.
  intros Hall. split_and!.
  - apply filter_all. intros r Hr.
    by apply (proj1 (Forall_forall _ _) Hall r Hr).
  - unfold interviews.scores_of.
    induction Hall as [|r l [_ [x Hx]] _ IH]; [done|]. cbn. rewrite Hx. cbn. by rewrite IH.
  - unfold numbers_of_rows, interviews.scores_of.
    induction Hall as [|r l [_ [x Hx]] _ IH]; [done|]. cbn. rewrite Hx. cbn.
    by rewrite IH.
Qed.

(** A write that gives rows a response and leaves the scores alone keeps
    the ratings in step. *)
Lemma ratings_match_answer (g : interview_question.row → interview_question.row)
    rows stored :
  (∀ r, interview_question.question_type (g r) = interview_question.question_type r) →
  (∀ r, interview_question.score (g r) = interview_question.score r) →
  (∀ r, interview_question.response (g r) = interview_question.response r ∨
        is_Some (interview_question.response (g r))) →
  ratings_match mean rows stored → ratings_match mean (g <$> rows) stored.
Proof.
  intros Htype Hscore Hresponse (Hnull & Hrated & Hstars). split_and!.
  - intros q (r & -> & Hr)%list_elem_of_fmap Hnone. rewrite Hscore.
    apply Hnull; [done|].
    destruct (Hresponse r) as [<-|Hsome]; [done|].
    rewrite Hnone in Hsome. by destruct Hsome.
  - intros skill Hsome%Hrated. rewrite rows_of_skill_fmap by done.
    by destruct (rows_of_skill skill rows).
  - intros skill. rewrite rows_of_skill_fmap by done. intros Hne Hall.
    assert (numbers_of_rows (g <$> rows_of_skill skill rows)
            = numbers_of_rows (rows_of_skill skill rows)) as ->.
    { unfold numbers_of_rows. by rewrite scores_of_fmap. }
    apply Hstars; [by destruct (rows_of_skill skill rows)|].
    apply Forall_forall. intros r Hr.
    assert (g r ∈ g <$> rows_of_skill skill rows) as Hgr
      by (apply list_elem_of_fmap; by exists r).
    apply (proj1 (Forall_forall _ _) Hall) in Hgr as [_ [x Hx]].
    rewrite Hscore in Hx. split; [|by eauto].
    destruct (interview_question.response r) eqn:Hnone; [by eauto|].
    apply list_elem_of_filter in Hr as [_ Hr].
    rewrite (Hnull r Hr Hnone) in Hx. done.
Qed.

(** A write that answers rows of one skill, followed by a rating of that
    skill that is in step with the rows, keeps the ratings in step. *)
Lemma ratings_match_record (g : interview_question.row → interview_question.row)
    skill0 rows stored stored' :
  (∀ r, interview_question.question_type (g r) = interview_question.question_type r) →
  (∀ r, r ∈ rows →
        g r = r ∨ (interview_question.question_type r = skill0 ∧
                   is_Some (interview_question.response (g r)))) →
  (∀ skill, skill ≠ skill0 → stored' !! skill = stored !! skill) →
  (is_Some (stored' !! skill0) →
   is_Some (stored !! skill0) ∨ rows_of_skill skill0 (g <$> rows) ≠ []) →
  (rows_of_skill skill0 (g <$> rows) ≠ [] →
   numerically_scored (rows_of_skill skill0 (g <$> rows)) →
   stored' !! skill0
   = Some (interviews.convert_score_to_stars
             (mean (Qred <$> numbers_of_rows (rows_of_skill skill0 (g <$> rows)))))) →
  ratings_match mean rows stored → ratings_match mean (g <$> rows) stored'.
Proof.
  intros Htype Hg Hother Hrated0 Hstars0 (Hnull & Hrated & Hstars). split_and!.
  - intros q (r & -> & Hr)%list_elem_of_fmap Hnone.
    destruct (Hg r Hr) as [Hfix|[_ Hsome]].
    + rewrite Hfix in *. by apply Hnull.
    + rewrite Hnone in Hsome. by destruct Hsome.
  - intros skill Hsome.
    assert (is_Some (stored !! skill) → rows_of_skill skill (g <$> rows) ≠ []) as Hold.
    { intros Hs%Hrated. rewrite rows_of_skill_fmap by done.
      by destruct (rows_of_skill skill rows). }
    destruct (decide (skill = skill0)) as [->|Hne].
    + destruct (Hrated0 Hsome) as [Hs|Hs]; [by apply Hold|done].
    + apply Hold. by rewrite <- Hother.
  - intros skill. destruct (decide (skill = skill0)) as [->|Hne]; [done|].
    assert (rows_of_skill skill (g <$> rows) = rows_of_skill skill rows) as ->.
    { apply filter_fmap_fixed. intros r Hr.
      destruct (Hg r Hr) as [Hfix|[Hskill _]]; [by left|right].
      rewrite Htype, Hskill. by split; intros ->. }
    rewrite Hother by done. apply Hstars.
Qed.
End row_facts.

Section life_facts.
Import database.
Variable fenced_block : string → option string.
Variable loads_evaluation : string → json_doc response_evaluator.evaluation.
Variable numeric_text : string → option Q.
Variable mean : list Q → Q.
Variable round1 : Q → Q.
Variable CARD_GENERATION_AVAILABLE : bool.
Variable matching_file : list string → string → string → option string.

Abbreviation check_skill := (interviews.check_and_update_skill_rating mean round1).
Abbreviation serve :=
  (api.serve fenced_block loads_evaluation numeric_text mean round1
     CARD_GENERATION_AVAILABLE matching_file).
Abbreviation serve_all :=
  (api.serve_all fenced_block loads_evaluation numeric_text mean round1
     CARD_GENERATION_AVAILABLE matching_file).

(** *** The stored ratings after a write to the interviews *)

Lemma stored_path_set_feedback i c interview rest w :
  select_interview i (db w) = interview :: rest →
  stored_path i (with_db (update_interview i (interview.set_feedback c)) w)
  = interviews.stored_star_ratings (loads_feedback c).
Proof.
  intros Hsel. unfold stored_path, with_db. cbn [db].
  rewrite select_interview_update, Hsel by done. cbn [fmap list_fmap].
  rewrite decide_True; [done|].
  apply (select_interview_id i (db w)). rewrite Hsel. left.
Qed.

Lemma stored_path_other i j f w :
  (∀ r, interview.id (f r) = interview.id r) → i ≠ j →
  stored_path i (with_db (update_interview j f) w) = stored_path i w.
Proof.
  intros Hf Hne. unfold stored_path, with_db. cbn [db].
  by rewrite select_interview_other.
Qed.

Lemma stored_path_mark_completed now i j w :
  stored_path i (mark_completed now j w) = stored_path i w.
Proof. by rewrite !stored_path_metadata, metadata_of_mark_completed. Qed.

Lemma stored_path_write_rating i skill rating interview rest w :
  select_interview i (db w) = interview :: rest →
  stored_path i (write_rating i skill rating interview w)
  = <[skill := star_rating rating]> (stored_path i w).
Proof.
  intros Hsel. unfold write_rating.
  rewrite (stored_path_set_feedback _ _ _ _ _ Hsel).
  unfold stored_path. rewrite Hsel.
  unfold interviews.stored_star_ratings, with_skill_rating. cbn.
  rewrite fmap_insert.
  destruct (skill_ratings (loads_feedback (interview.feedback interview))); cbn; [done|].
  by rewrite fmap_empty.
Qed.

Lemma select_update_nonempty i j f t :
  (∀ r, interview.id (f r) = interview.id r) →
  select_interview i t ≠ [] → select_interview i (update_interview j f t) ≠ [].
Proof.
  intros Hf Hne. rewrite select_interview_update by done.
  by destruct (select_interview i t).
Qed.

(** *** The check after a submission *)

Lemma check_writes now j skill w :
  (check_skill now j skill w).1 = w ∨
  ∃ interview rest numbers,
    select_interview j (db w) = interview :: rest ∧
    skill_questions_of j skill (db w) ≠ [] ∧
    (check_skill now j skill w).1
    = write_rating j skill (rating_of mean numbers now) interview w.
Proof.
  rewrite check_and_update_unfold. cbv zeta.
  destruct (bool_decide (_ = _)) eqn:Hall; [|by left]. cbn [andb].
  destruct (bool_decide (0 < _)) eqn:Hsome; [|by left].
  destruct (interviews.scores_of _) as [|c scores]; [by left|].
  destruct (py.numbers_of _) as [numbers|e]; [|by left].
  destruct (select_interview j (db w)) as [|interview rest] eqn:Hsel; [by left|].
  right. exists interview, rest, numbers. split_and!; [done| |done].
  apply bool_decide_eq_true in Hall, Hsome. intros Hnil.
  rewrite Hnil in Hall. cbn in Hall. lia.
Qed.

Lemma check_stores now j skill w :
  select_interview j (db w) ≠ [] →
  skill_questions_of j skill (db w) ≠ [] →
  numerically_scored (skill_questions_of j skill (db w)) →
  ∃ interview rest,
    select_interview j (db w) = interview :: rest ∧
    (check_skill now j skill w).1
    = write_rating j skill
        (rating_of mean (numbers_of_rows (skill_questions_of j skill (db w))) now)
        interview w.
Proof.
  intros Hsel Hne Hall. rewrite check_and_update_unfold. cbv zeta.
  destruct (numerically_scored_numbers _ Hall) as (Hanswered & Hlength & Hnumbers).
  unfold answered_skill_questions_of. rewrite Hanswered.
  rewrite bool_decide_eq_true_2 by done.
  rewrite bool_decide_eq_true_2
    by (destruct (skill_questions_of j skill (db w)); [done|cbn; lia]).
  cbn [andb].
  destruct (interviews.scores_of _) as [|c scores] eqn:Hscores.
  { destruct (skill_questions_of j skill (db w)); [done|]. cbn in Hlength. lia. }
  pose proof (numbers_of_cells (c :: scores)) as Hsum.
  destruct (py.numbers_of _) as [numbers|e].
  2:{ destruct Hsum as [_ Htext]. exfalso.
      rewrite <- Hscores in Htext. unfold interviews.scores_of in Htext.
      apply Exists_exists in Htext as (c' & Hc' & Htext).
      apply list_elem_of_omap in Hc' as (r & Hr & Hscore).
      apply (proj1 (Forall_forall _ _) Hall) in Hr as [_ [x Hx]].
      rewrite Hx in Hscore. injection Hscore as <-. done. }
  rewrite Hnumbers in Hsum. injection Hsum as <-.
  destruct (select_interview j (db w)) as [|interview rest]; [done|].
  by exists interview, rest.
Qed.

(** *** A submission *)

Abbreviation at_key question_id f :=
  (λ r, if decide (interview_question.id r = question_id) then f r else r).

Lemma submit_world evaluation_reply now question_id response w :
  let w' := (interviews.submit_skill_based_response
               fenced_block evaluation_reply loads_evaluation numeric_text mean round1
               now question_id response w).1 in
  w' = w ∨
  ∃ question_data interview rest,
    select_question_with_interview question_id (db w) = (question_data, interview) :: rest ∧
    (w' = with_db (record_text question_id response) w ∨
     ∃ evaluation score,
       let w2 := with_db (record_response question_id response evaluation score) w in
       let w3 := (check_skill now (interview.id interview)
                    (interview_question.question_type question_data) w2).1 in
       w' = w3 ∨ w' = mark_completed now (interview.id interview) w3).
Proof.
  cbv zeta.
  destruct (select_question_with_interview question_id (db w))
    as [|[question_data interview] rest] eqn:Hjoin.
  { left. by rewrite submit_unfold, Hjoin. }
  right. exists question_data, interview, rest. split; [done|].
  pose proof (submit_steps fenced_block evaluation_reply loads_evaluation numeric_text
                mean round1 now question_id response w _ _ _ Hjoin) as Hsteps.
  destruct (interviews.submit_skill_based_response _ _ _ _ _ _ _ _ _ _) as [w' outcome].
  cbn [fst]. cbv zeta in Hsteps.
  destruct (submitted_score _ _ _ _ _ _ _) as [score|e].
  2:{ left. by destruct Hsteps. }
  right. eexists _, score.
  destruct outcome as [reply|e].
  - destruct Hsteps as [-> _]. destruct (interviews.completed _); [by right|by left].
  - destruct Hsteps as [-> Hraise]. left.
    rewrite check_and_update_unfold in *. cbv zeta in *.
    repeat case_match; try done.
Qed.

Lemma in_step_rows i (g : interview_question.row → interview_question.row) w w' :
  in_step mean i w →
  (∀ r, interview_question.id (g r) = interview_question.id r) →
  (∀ r, interview_question.interview_id (g r) = interview_question.interview_id r) →
  interview_questions (db w') = g <$> interview_questions (db w) →
  select_interview i (db w') ≠ [] →
  ratings_match mean (g <$> questions_of i (db w)) (stored_path i w') →
  in_step mean i w'.
Proof.
  intros (_ & Hkeys & _) Hkey Hid Hrows Hsel Hmatch. split_and!; [done| |].
  - unfold distinct_keys in *. rewrite Hrows, <- list_fmap_compose.
    erewrite list_fmap_ext; [done|]. intros k r _. apply Hkey.
  - unfold questions_of in *. rewrite Hrows.
    rewrite filter_fmap_commute by (intros r; by rewrite Hid). done.
Qed.

(** A write to a row of another interview. *)
Lemma at_key_other i question_id f w question_data :
  distinct_keys w →
  question_data ∈ interview_questions (db w) →
  interview_question.id question_data = question_id →
  interview_question.interview_id question_data ≠ i →
  at_key question_id f <$> questions_of i (db w) = questions_of i (db w).
Proof.
  intros Hkeys Hq Hkey Hne.
  rewrite <- (list_fmap_id (questions_of i (db w))) at 2.
  apply list_fmap_ext. intros k r Hr%list_elem_of_lookup_2.
  apply list_elem_of_filter in Hr as [Hi Hr].
  destruct (decide _) as [Hsame|]; [|done]. exfalso. apply Hne.
  rewrite (key_determines_row _ question_data r Hkeys Hq Hr); [done|congruence].
Qed.

Lemma submit_in_step i evaluation_reply now question_id response w :
  in_step mean i w →
  in_step mean i
    (interviews.submit_skill_based_response
       fenced_block evaluation_reply loads_evaluation numeric_text mean round1
       now question_id response w).1.
Proof.
  intros Hstep.
  destruct (submit_world evaluation_reply now question_id response w)
    as [->|(question_data & interview & rest & Hjoin & Hworld)]; [done|].
  destruct (join_first _ _ _ _ _ Hjoin) as (Hq & Hkey & Hj & Hinterview).
  pose proof Hstep as (Hsel & Hkeys & Hmatch).
  set (j := interview.id interview) in *.
  set (skill0 := interview_question.question_type question_data) in *.
  destruct Hworld as [->|(evaluation & score & Hworld)].
  { (* only the response was written *)
    apply (in_step_rows i (at_key question_id (interview_question.set_response response)) w);
      [done|intros r; by destruct (decide _)..|done|done|].
    change (stored_path i (with_db (record_text question_id response) w))
      with (stored_path i w).
    apply ratings_match_answer; [intros r; by destruct (decide _)..| |done].
    intros r. destruct (decide _); [right; by eexists|by left]. }
  cbv zeta in Hworld.
  set (g := at_key question_id
              (answered_row response (Evaluated evaluation) score)) in *.
  set (w2 := with_db (record_response question_id response evaluation score) w) in *.
  set (w3 := (check_skill now j skill0 w2).1) in *.
  assert (interview_questions (db w3) = g <$> interview_questions (db w)) as Hrows3.
  { unfold w3. rewrite check_and_update_questions. apply record_rows. }
  assert (select_interview i (db w2) ≠ []) as Hsel2 by done.
  assert (select_interview i (db w3) ≠ []) as Hsel3.
  { unfold w3. destruct (check_writes now j skill0 w2)
      as [->|(interview' & rest' & numbers & _ & _ & ->)]; [done|].
    by apply select_update_nonempty. }
  assert (stored_path i w2 = stored_path i w) as Hstored2 by done.
  assert (ratings_match mean (g <$> questions_of i (db w)) (stored_path i w3)) as Hmatch3.
  { destruct (decide (j = i)) as [Hji|Hji].
    - (* a question of this interview *)
      subst i.
      assert (questions_of j (db w2) = g <$> questions_of j (db w)) as Hrows2.
      { unfold questions_of, w2, with_db. cbn [db]. rewrite record_rows.
        apply filter_fmap_commute. intros r. unfold g. by destruct (decide _). }
      assert (skill_questions_of j skill0 (db w2)
              = rows_of_skill skill0 (g <$> questions_of j (db w))) as Hskill2.
      { unfold skill_questions_of. by rewrite Hrows2. }
      apply (ratings_match_record mean g skill0 _ (stored_path j w)); [| | | | |done].
      + intros r. unfold g. by destruct (decide _).
      + intros r Hr. unfold g. destruct (decide _) as [Hsame|]; [right|by left].
        apply list_elem_of_filter in Hr as [_ Hr].
        rewrite <- (key_determines_row _ question_data r Hkeys Hq Hr) by congruence.
        split; [done|by eexists].
      + intros skill Hne. rewrite <- Hstored2. unfold w3.
        destruct (check_writes now j skill0 w2)
          as [->|(interview' & rest' & numbers & Hsel' & _ & ->)]; [done|].
        rewrite (stored_path_write_rating _ _ _ _ _ _ Hsel').
        by rewrite lookup_insert_ne.
      + rewrite <- Hstored2, <- Hskill2. unfold w3.
        destruct (check_writes now j skill0 w2)
          as [->|(interview' & rest' & numbers & _ & Hne & _)]; [by left|by right].
      + rewrite <- Hskill2. intros Hne Hall.
        destruct (check_stores now j skill0 w2 Hsel2 Hne Hall)
          as (interview' & rest' & Hsel' & Hw3).
        unfold w3. rewrite Hw3, (stored_path_write_rating _ _ _ _ _ _ Hsel').
        by rewrite lookup_insert_eq.
    - (* a question of another interview *)
      assert (stored_path i w3 = stored_path i w) as ->.
      { rewrite <- Hstored2. unfold w3.
        destruct (check_writes now j skill0 w2)
          as [->|(interview' & rest' & numbers & _ & _ & ->)]; [done|].
        by apply stored_path_other. }
      unfold g.
      rewrite (at_key_other i question_id _ w question_data) by (done || congruence).
      done. }
  assert (∀ r, interview_question.id (g r) = interview_question.id r) as Hgkey
    by (intros r; unfold g; by destruct (decide _)).
  assert (∀ r, interview_question.interview_id (g r) = interview_question.interview_id r)
    as Hgid by (intros r; unfold g; by destruct (decide _)).
  destruct Hworld as [->| ->].
  - by apply (in_step_rows i g w).
  - apply (in_step_rows i g w); [done|done|done|done| |].
    + by apply select_update_nonempty.
    + by rewrite stored_path_mark_completed.
Qed.
(** *** A fetch of the results *)

Lemma results_world card_generator now j w :
  let w' := (interviews.get_interview_results_with_auto_cards
               mean CARD_GENERATION_AVAILABLE card_generator matching_file now j w).1 in
  db w' = db w ∨
  ∃ block interview rest,
    select_interview j (db w) = interview :: rest ∧
    db w' = update_interview j
              (interview.set_feedback
                 (Json (with_card_generation block
                          (loads_feedback (interview.feedback interview)))))
              (db w).
Proof.
  cbv zeta. rewrite results_unfold.
  destruct (select_interview j (db w)) as [|interview_data rest] eqn:Hsel; [by left|].
  cbv zeta.
  destruct (ratings_read mean j interview_data (db w)) as [ratings|e]; [|by left].
  destruct (decide (ratings = ∅)); [by left|].
  destruct (card_generation _) as [block|];
    destruct CARD_GENERATION_AVAILABLE;
    destruct card_generator as [generator|];
    try (by left).
  pose proof (auto_generate_unfold matching_file true (Some generator) now j ratings w)
    as Hrun.
  destruct (interviews.auto_generate_skill_cards _ _ _ _ _ _ _) as [w1 outcome].
  destruct Hrun as [(reason & -> & Hdb & _)
                   |(generator' & new_files & interview & rest' & _ & _ & Hsel' & Hrun)].
  { by left. }
  destruct (foldl _ _ (map_to_list ratings)) as [[cards generated] failed].
  destruct Hrun as [-> ->]. right.
  rewrite Hsel in Hsel'. injection Hsel' as <- <-.
  by eexists _, interview_data, rest.
Qed.

Lemma in_step_db i w w' : db w' = db w → in_step mean i w → in_step mean i w'.
Proof.
  unfold in_step, distinct_keys, stored_path. by intros ->.
Qed.

Lemma fetch_in_step i card_generator now j w :
  in_step mean i w →
  in_step mean i
    (interviews.get_interview_results_with_auto_cards
       mean CARD_GENERATION_AVAILABLE card_generator matching_file now j w).1.
Proof.
  intros Hstep.
  destruct (results_world card_generator now j w)
    as [Hdb|(block & interview & rest & Hsel & Hdb)].
  { by apply (in_step_db i w). }
  set (c := Json _) in Hdb.
  apply (in_step_db i (with_db (update_interview j (interview.set_feedback c)) w));
    [done|].
  destruct Hstep as (Hpresent & Hkeys & Hmatch). split_and!.
  - by apply select_update_nonempty.
  - done.
  - change (questions_of i (db (with_db (update_interview j (interview.set_feedback c)) w)))
      with (questions_of i (db w)).
    destruct (decide (i = j)) as [->|Hne].
    + rewrite (stored_path_set_feedback _ _ _ _ _ Hsel).
      unfold stored_path in Hmatch. by rewrite Hsel in Hmatch.
    + by rewrite stored_path_other.
Qed.

(** *** From the plan to the results *)

Lemma serve_in_step i c w : in_step mean i w → in_step mean i (serve w c).
Proof.
  destruct c as [evaluation_reply now question_id response|card_generator now j].
  - apply submit_in_step.
  - apply fetch_in_step.
Qed.

Lemma serve_all_in_step i calls w :
  in_step mean i w → in_step mean i (serve_all calls w).
Proof.
  revert w. induction calls as [|c calls IH]; intros w Hstep; [done|].
  apply IH. by apply serve_in_step.
Qed.

Lemma fresh_in_step i w : distinct_keys w → fresh_plan i w → in_step mean i w.
Proof.
  intros Hkeys (Hsel & Hstored & Hrows). split_and!; [done|done|].
  rewrite Hstored. split_and!.
  - intros q Hq _. by apply (proj1 (Forall_forall _ _) Hrows q Hq).
  - intros skill [? Hsome]. by rewrite lookup_empty in Hsome.
  - intros skill Hne Hall. exfalso.
    destruct (rows_of_skill skill (questions_of i (db w))) as [|r l] eqn:Hskill; [done|].
    apply Forall_cons in Hall as [[[? Hsome] _] _].
    assert (r ∈ questions_of i (db w)) as Hr.
    { assert (r ∈ rows_of_skill skill (questions_of i (db w))) as Hin
        by (rewrite Hskill; left).
      by apply list_elem_of_filter in Hin as [_ ?]. }
    apply (proj1 (Forall_forall _ _) Hrows) in Hr as [Hnone _]. congruence.
Qed.

Lemma numerically_scored_skill skill rows :
  numerically_scored rows → numerically_scored (rows_of_skill skill rows).
Proof.
  intros Hall. apply Forall_forall. intros r [_ Hr]%list_elem_of_filter.
  by apply (proj1 (Forall_forall _ _) Hall).
Qed.

Lemma skill_operands_rows skill rows :
  skill_operands skill rows ≠ [] ↔ rows_of_skill skill rows ≠ [].
Proof.
  unfold skill_operands, rows_of_skill.
  by destruct (filter _ rows).
Qed.

(** With the ratings in step and every question answered with a number,
    the recomputation yields the stored ratings. *)
Lemma in_step_agree i w :
  in_step mean i w →
  numerically_scored (questions_of i (db w)) →
  fly_path mean i w = Ok (stored_path i w).
Proof.
  intros (_ & _ & Hnull & Hrated & Hstars) Hall.
  destruct (numerically_scored_numbers _ Hall) as (Hanswered & _ & _).
  unfold fly_path, answered_questions_of. rewrite Hanswered.
  set (rows := questions_of i (db w)) in *.
  assert (Forall (λ q, ∃ x, interview_question.score q = Some (Real x)) rows) as Hreal.
  { apply (Forall_impl _ _ _ Hall). by intros q [_ ?]. }
  unfold interviews.on_the_fly_ratings. rewrite skill_scores_of_seen.
  set (fly := λ skill,
         match py.numbers_of (skill_operands skill rows) with
         | Ok l => l
         | Raise _ => []
         end).
  rewrite (rate_scores_fold_Ok mean fly (λ skill, skill_operands skill rows)).
  2:{ intros skill Hskill%elem_of_seen_skills. split; [done|].
      destruct (numeric_operands skill rows Hreal) as (numbers & fly_numbers & _ & Hfly & _).
      unfold fly. by rewrite Hfly. }
  f_equal. apply map_eq. intros skill. rewrite lookup_foldl_insert, lookup_empty.
  destruct (decide (skill ∈ seen_skills rows)) as [Hseen|Hnew].
  - apply elem_of_seen_skills, skill_operands_rows in Hseen.
    rewrite (Hstars skill Hseen) by by apply numerically_scored_skill.
    destruct (numeric_operands skill rows Hreal) as (numbers & fly_numbers & Hn & Hfly & Heq).
    unfold fly. rewrite Hfly, Heq.
    by rewrite (numbers_of_rows_mapM (rows_of_skill skill rows) _ Hn).
  - destruct (stored_path i w !! skill) as [stars|] eqn:Hstored; [exfalso|done].
    apply Hnew, elem_of_seen_skills, skill_operands_rows, Hrated. by eexists.
Qed.

(** C9.  Take an interview as [/start] leaves it, with no rating stored
    and no question answered, and any sequence of response submissions and
    result fetches, for this interview or for others, whatever the
    language-model service and the card generator do during each of them.
    If afterwards every question of the interview is answered and holds a
    number as its score, then the star ratings that the submissions have
    stored in the interview metadata are those that the results endpoint
    recomputes on the fly from the answered questions, and every skill of
    the interview has a stored rating. *)
Theorem rating_paths_agree (interview_id : Z) (calls : list api.call) (w0 : world) :
  distinct_keys w0 →
  fresh_plan interview_id w0 →
  let w := serve_all calls w0 in
  numerically_scored (questions_of interview_id (db w)) →
  fly_path mean interview_id w = Ok (stored_path interview_id w) ∧
  ∀ q, q ∈ questions_of interview_id (db w) →
       is_Some (stored_path interview_id w !! interview_question.question_type q).
Proof.
  intros Hkeys Hfresh w Hall.
  assert (in_step mean interview_id w) as Hstep
    by (apply serve_all_in_step; by apply fresh_in_step).
  split; [by apply in_step_agree|].
  intros q Hq. destruct Hstep as (_ & _ & _ & _ & Hstars).
  rewrite (Hstars (interview_question.question_type q)); [by eexists| |].
  - intros Hnil.
    assert (q ∈ rows_of_skill (interview_question.question_type q)
                  (questions_of interview_id (db w))) as Hin
      by by apply list_elem_of_filter.
    rewrite Hnil in Hin. by apply elem_of_nil in Hin.
  - by apply numerically_scored_skill.
Qed.
End life_facts.

(** *** The plan that [/start] leaves *)

Section fresh_facts.
Import database.
Variable questions_reply : string → string → Z → groq_client.response.
Variable loads_questions : string → json_doc (list json.value).
Variable fenced_block : string → option string.
Variable listed_questions : string → list string.
Variable number_text : Q → string.

Lemma next_question_id_new t :
  next_question_id t ∉ interview_question.id <$> interview_questions t.
Proof.
  unfold next_question_id.
  assert (∀ l k, k ∈ l → (k <= foldr Z.max 0 l)%Z) as Hmax.
  { induction l as [|a l IH]; intros k Hk; [by apply elem_of_nil in Hk|].
    cbn. apply elem_of_cons in Hk as [->|Hk]; [lia|].
    specialize (IH k Hk). lia. }
  intros Hin%Hmax. lia.
Qed.

(** The loop that stores the plan appends rows without response and
    score, under new keys. *)
Lemma store_questions_unanswered interview_id all_questions w :
  let w' := (interviews.store_questions number_text interview_id all_questions w).1 in
  interviews (db w') = interviews (db w) ∧
  (distinct_keys w → distinct_keys w') ∧
  ∃ rows,
    interview_questions (db w') = interview_questions (db w) ++ rows ∧
    Forall (λ q, interview_question.response q = None ∧
                 interview_question.score q = None) rows.
Proof.
  cbv zeta.
  induction all_questions as [|q all_questions IH] using rev_ind.
  { cbn. split_and!; [done..|]. exists []. by rewrite app_nil_r. }
  rewrite store_questions_snoc.
  destruct (interviews.store_questions number_text interview_id all_questions w)
    as [w1 [[]|e]]; [|done].
  cbn [fst] in IH. destruct IH as (Hi & Hkeys & rows & Hrows & Hnone).
  unfold interviews.store_question, bind, lift, execute.
  destruct (bind_question number_text (question_generator.question q)) as [text|e];
    cbn [fst snd]; [|by eauto].
  unfold with_db, insert_question. cbn [db interviews interview_questions].
  split_and!; [done| |].
  - intros Hw. specialize (Hkeys Hw). unfold distinct_keys in *.
    cbn [db interview_questions]. rewrite fmap_app. cbn [fmap list_fmap].
    apply NoDup_app. split_and!; [done| |apply NoDup_singleton].
    intros k Hk ->%list_elem_of_singleton.
    by apply (next_question_id_new (db w1)).
  - eexists (rows ++ [_]). rewrite Hrows, <- app_assoc. split; [done|].
    apply Forall_app. split; [done|]. by repeat constructor.
Qed.

(** Whether the plan could be stored or not, an interview whose
    questions, if it had any, were unanswered is left as a fresh plan. *)
Lemma generated_plan_is_fresh interview_id skills skill_area n w :
  select_interview interview_id (db w) ≠ [] →
  Forall (λ q, interview_question.response q = None ∧
               interview_question.score q = None)
         (questions_of interview_id (db w)) →
  let w' := (interviews.generate_skill_based_questions
               questions_reply loads_questions fenced_block listed_questions number_text
               interview_id skills skill_area n w).1 in
  fresh_plan interview_id w' ∧ (distinct_keys w → distinct_keys w').
Proof.
  intros Hsel Hrows. cbv zeta. rewrite generate_unfold.
  pose proof (store_questions_unanswered interview_id
                (interviews.plan questions_reply loads_questions fenced_block
                   listed_questions skills n).1 w) as Hstore.
  cbv zeta in Hstore.
  destruct (interviews.store_questions _ _ _ _) as [w1 outcome]. cbn [fst] in Hstore.
  destruct Hstore as (Hi & Hkeys & rows & Hw1 & Hnone).
  assert (select_interview interview_id (db w1) ≠ []) as Hsel1.
  { unfold select_interview. by rewrite Hi. }
  assert (Forall (λ q, interview_question.response q = None ∧
                       interview_question.score q = None)
                 (questions_of interview_id (db w1))) as Hrows1.
  { unfold questions_of in *. rewrite Hw1, filter_app. apply Forall_app. split; [done|].
    apply Forall_forall. intros r [_ Hr]%list_elem_of_filter.
    by apply (proj1 (Forall_forall _ _) Hnone). }
  destruct (select_interview interview_id (db w1)) as [|interview rest] eqn:Hsel1';
    [done|].
  destruct outcome as [[]|e]; cbn [fst].
  - split; [|done]. split_and!; [by apply select_update_nonempty; [|rewrite Hsel1']| |done].
    unfold stored_path, with_db. cbn [db].
    rewrite select_interview_update, Hsel1' by done. cbn [fmap list_fmap].
    rewrite decide_True; [done|].
    apply (select_interview_id interview_id (db w1)). rewrite Hsel1'. left.
  - split; [|done]. split_and!; [by apply select_update_nonempty; [|rewrite Hsel1']| |done].
    unfold stored_path, with_db. cbn [db].
    rewrite select_interview_update, Hsel1' by done. cbn [fmap list_fmap].
    rewrite decide_True; [done|].
    apply (select_interview_id interview_id (db w1)). rewrite Hsel1'. left.
Qed.
End fresh_facts.

(** The journey of [journey_end]: interview 1 as generated, its four
    questions answered with numbers, the results fetched twice. *)
Lemma rating_paths_agree_witness :
  fly_path exact.mean 1 journey_end = Ok (stored_path 1 journey_end) ∧
  ∀ q, q ∈ database.questions_of 1 (database.db journey_end) →
       is_Some (stored_path 1 journey_end !! database.interview_question.question_type q).
Proof.
  apply (rating_paths_agree scripted.fenced_block scripted.loads_evaluation
           sqlite.numeric_text exact.mean exact.round1 true cards.matching_file
           1 journey_calls scenario.started).
  - unfold distinct_keys. vm_compute. repeat constructor; set_solver.
  - split_and!; [by vm_compute|by vm_compute|].
    vm_compute. by repeat constructor.
  - vm_compute. repeat (constructor; [split; by eexists|]). constructor.
Defined.

(** The ratings of the journey, and what the recomputation makes of the
    same questions. *)
Example journey_ratings :
  stored_path 1 journey_end = {[ "SQL" := 4%Z; "Excel" := 4%Z ]} ∧
  fly_path exact.mean 1 journey_end = Ok {[ "SQL" := 4%Z; "Excel" := 4%Z ]} ∧
  stored_cards 1 journey_end ≠ None.
Proof. by vm_compute. Qed.

(** A rating stored next to a text score: the two questions on SQL are
    answered with 9 and 7 and the skill is rated with 4 stars; a second
    response to question 1 is evaluated with the text ["8/10"] as score, the
    check raises and the rating stays; then the questions on Excel are
    answered.  Every question is answered with a score that is not NULL, the
    stored ratings are 4 stars for both skills, and the recomputation from
    the answered questions raises. *)
Lemma stale_rating_beside_text_score :
  fully_scored (database.questions_of 1 (database.db journey.text_finished)) ∧
  database.interview_question.score
    <$> database.questions_of 1 (database.db journey.text_finished)
  = [Some (database.TextScore "8/10"); Some (database.Real 7);
     Some (database.Real 7); Some (database.Real 9)] ∧
  stored_path 1 journey.text_finished = {[ "SQL" := 4%Z; "Excel" := 4%Z ]} ∧
  fly_path exact.mean 1 journey.text_finished
  = Raise (py.TypeError "unsupported operand type(s) for +: 'int' and 'str'").
Proof.
  split_and!; [|by vm_compute..].
  vm_compute. repeat (constructor; [split; by eexists|]). constructor.
Qed.

(** ** Assessment batches of the question generator *)

Section assessment_facts.
Variable generate_response : string → string → Z → groq_client.response.
Variable json_loads : string → json_doc (list json.value).
Variable fenced_block : string → option string.
Variable listed_questions : string → list string.

(** The loop of [generate_questions_for_skills_assessment] collects the
    questions of the API's plan loop, and its metadata describe the same
    blocks. *)
Lemma assessment_fold_plan (job_description : string) (n : Z) (skills : list string) :
  foldl (question_generator.assessment_step generate_response json_loads fenced_block
           listed_questions job_description n) ([], ∅) skills
  = let p := foldl (interviews.plan_step generate_response json_loads fenced_block
                      listed_questions job_description n) ([], ∅) skills in
    (p.1, block_metadata <$> p.2).
Proof.
  induction skills as [|skill skills IH] using rev_ind.
  { cbn. by rewrite fmap_empty. }
  rewrite !foldl_app. cbn [foldl]. rewrite IH. cbv zeta.
  destruct (foldl (interviews.plan_step _ _ _ _ _ _) _ skills) as [all_questions blocks].
  cbn [fst snd]. unfold question_generator.assessment_step, interviews.plan_step.
  cbn [fst snd]. rewrite fmap_insert. f_equal. f_equal.
  unfold block_metadata. cbn. rewrite !length_app. f_equal; [lia|f_equal; lia].
Qed.

Lemma parse_skills_NoDup (skills_input : string) :
  NoDup (question_generator.parse_skills skills_input).
Proof.
  destruct (decide (skills_input = "")) as [->|Hne].
  - apply NoDup_singleton.
  - rewrite parse_skills_nonempty by done.
    eapply NoDup_fmap_1, first_seen_order_NoDup.
Qed.

Lemma block_metadata_at (n : Z) (j : nat) : block_metadata (block_at n j) = metadata_at n j.
Proof. unfold block_metadata, block_at, metadata_at. cbn. f_equal; [lia|f_equal; lia]. Qed.

(** X15.  For every skills text and every non-negative count [n],
    whatever the question service returns, the assessment batch of the
    question generator lists the parsed skills, has [n] questions per parsed
    skill, and its metadata have exactly the parsed skills as keys; the
    skill at position [j] has [n] questions with the indices [n*j], ...,
    [n*j + n - 1]; and every question index is listed under the skill of
    its question and under no other skill.  Since the parsed skills are
    free of duplicates, this path always partitions the questions. *)
Theorem assessment_blocks_partition (skills_input job_description : string) (n : Z) :
  (0 <= n)%Z →
  let a := question_generator.generate_questions_for_skills_assessment
             generate_response json_loads fenced_block listed_questions
             skills_input job_description n in
  let skills := question_generator.parse_skills skills_input in
  question_generator.skills_assessed a = skills ∧
  question_generator.questions_per_skill a = n ∧
  question_generator.total_questions a = length (question_generator.questions a) ∧
  length (question_generator.questions a) = Z.to_nat n * length skills ∧
  dom (question_generator.skills_metadata a) = list_to_set skills ∧
  (∀ j skill, skills !! j = Some skill →
              question_generator.skills_metadata a !! skill = Some (metadata_at n j)) ∧
  (∀ p q skill md,
     question_generator.questions a !! p = Some q →
     question_generator.skills_metadata a !! skill = Some md →
     p ∈ question_generator.question_indices md ↔ skill = question_generator.skill q).
Proof.
  intros Hn. cbv zeta. unfold question_generator.generate_questions_for_skills_assessment.
  pose proof (parse_skills_NoDup skills_input) as Hnodup.
  set (skills := question_generator.parse_skills skills_input) in *.
  rewrite assessment_fold_plan. cbv zeta.
  pose proof (plan_length generate_response json_loads fenced_block listed_questions
                job_description n Hn skills) as Hlen.
  pose proof (plan_tags generate_response json_loads fenced_block listed_questions
                job_description n Hn skills) as Htags.
  pose proof (plan_map_entries generate_response json_loads fenced_block
                listed_questions job_description n Hn skills) as Hentries.
  assert (∀ j skill, skills !! j = Some skill →
            (foldl (interviews.plan_step generate_response json_loads fenced_block
                      listed_questions job_description n) ([], ∅) skills).2 !! skill
            = Some (block_at n j)) as Hblocks.
  { intros j skill Hj.
    pose proof (take_drop_middle _ _ _ Hj) as Hsplit.
    pose proof Hnodup as Hnodup'. rewrite <- Hsplit in Hnodup'.
    apply NoDup_app in Hnodup' as (_ & _ & [Hnotin _]%NoDup_cons).
    rewrite <- Hsplit.
    rewrite (plan_map_last generate_response json_loads fenced_block listed_questions
               job_description n Hn (take j skills) skill (drop (S j) skills) Hnotin).
    rewrite length_take. pose proof (lookup_lt_Some _ _ _ Hj).
    do 2 f_equal. lia. }
  destruct (foldl _ _ skills) as [all_questions blocks].
  cbn [fst snd question_generator.skills_assessed question_generator.questions_per_skill
       question_generator.total_questions question_generator.questions
       question_generator.skills_metadata] in *.
  split_and!; [done|done|done|done| | |].
  - rewrite dom_fmap_L. apply set_eq. intros skill.
    rewrite elem_of_dom, elem_of_list_to_set. split.
    + intros [b (j & Hj & _)%Hentries]. by eapply list_elem_of_lookup_2.
    + intros [j Hj]%list_elem_of_lookup_1. rewrite (Hblocks _ _ Hj). by eexists.
  - intros j skill Hj. by rewrite lookup_fmap, (Hblocks _ _ Hj), <- block_metadata_at.
  - intros p q skill md Hq Hmd.
    rewrite lookup_fmap in Hmd.
    destruct (blocks !! skill) as [b|] eqn:Hb; [|done]. cbn in Hmd. simplify_eq.
    apply Hentries in Hb as (j' & Hj' & _ & ->).
    assert (tags_of all_questions !! p
            = Some (question_generator.skill q, question_generator.skill_index q)) as Htag.
    { unfold tags_of. by rewrite list_lookup_fmap, Hq. }
    rewrite Htags in Htag.
    apply lookup_bind_batch_tags in Htag as (j & Hj & Hrange & _). cbn [fst] in Hj.
    rewrite block_metadata_at. cbn [metadata_at question_generator.question_indices].
    rewrite elem_of_seq. split.
    + intros Hp. assert (j' = j) as -> by nia. congruence.
    + intros ->. assert (j' = j) as -> by (by eapply NoDup_lookup). lia.
Qed.
End assessment_facts.

Lemma assessment_blocks_partition_witness :
  let a := question_generator.generate_questions_for_skills_assessment
             upstream_down.questions_reply upstream_down.loads_questions
             upstream_down.fenced_block upstream_down.listed_questions
             "Python, python , Cooking" "Kitchen software" 2 in
  question_generator.skills_assessed a = ["Python"; "Cooking"] ∧
  question_generator.total_questions a = 4.
Proof.
  pose proof (assessment_blocks_partition
                upstream_down.questions_reply upstream_down.loads_questions
                upstream_down.fenced_block upstream_down.listed_questions
                "Python, python , Cooking" "Kitchen software" 2 ltac:(lia)) as H.
  cbv zeta in *. destruct H as (Hskills & _ & Htotal & Hlen & _).
  split; [by rewrite Hskills|]. rewrite Htotal, Hlen. by vm_compute.
Defined.

(** ** Skills taken from a resume *)

Lemma split_comma_cons_blank (s : string) :
  py.split_comma (String " " s)
  = match py.split_comma s with
    | w :: ws => String " " w :: ws
    | [] => [String " " ""]
    end.
Proof. done. Qed.

Lemma split_comma_is_comma (s : string) : py.split_comma s = py.split_at is_comma s.
Proof. done. Qed.

Lemma split_at_app sep (x : string) (c : ascii) (y : string) :
  has_char sep x = false → sep c = true →
  py.split_at sep (x +:+ String c y) = x :: py.split_at sep y.
Proof.
  intros Hx Hc. induction x as [|d x IH].
  { change ("" +:+ String c y) with (String c y). cbn [py.split_at]. by rewrite Hc. }
  cbn in Hx. apply orb_false_elim in Hx as [Hd Hx].
  change (String d x +:+ String c y) with (String d (x +:+ String c y)).
  cbn [py.split_at]. by rewrite Hd, IH.
Qed.

Lemma split_at_free sep (x : string) :
  has_char sep x = false → py.split_at sep x = [x].
Proof.
  induction x as [|d x IH]; intros Hx; [done|].
  cbn in Hx. apply orb_false_elim in Hx as [Hd Hx].
  cbn [py.split_at]. by rewrite Hd, IH.
Qed.

Lemma split_comma_app (x y : string) :
  has_char is_comma x = false →
  py.split_comma (x +:+ String "," y) = x :: py.split_comma y.
Proof. intros Hx. rewrite !split_comma_is_comma. by apply split_at_app. Qed.

Lemma split_comma_comma_free (x : string) :
  has_char is_comma x = false → py.split_comma x = [x].
Proof. rewrite split_comma_is_comma. apply split_at_free. Qed.

(** Joining the pieces of a text with commas gives the text back. *)
Lemma join_split_comma (s : string) : py.join "," (py.split_comma s) = s.
Proof.
  rewrite split_comma_is_comma. induction s as [|c s IH]; [done|].
  cbn [py.split_at].
  destruct (py.split_at is_comma s) as [|w ws] eqn:Hsplit.
  { by apply split_at_nonempty in Hsplit. }
  destruct (is_comma c) eqn:Hc.
  - apply bool_decide_eq_true in Hc as ->.
    change (py.join "," ("" :: w :: ws)) with (String "," (py.join "," (w :: ws))).
    by rewrite IH.
  - destruct ws as [|w' ws].
    + cbn [py.join] in *. by rewrite IH.
    + change (py.join "," (String c w :: w' :: ws))
        with (String c (py.join "," (w :: w' :: ws))).
      by rewrite IH.
Qed.

Lemma strip_cons_blank (s : string) : py.strip (String " " s) = py.strip s.
Proof. done. Qed.

(** Splitting the joined names gives the names back, up to the blank
    after each comma. *)
Lemma stripped_split_join (names : list string) :
  names ≠ [] → Forall (λ name, has_char is_comma name = false) names →
  py.strip <$> py.split_comma (py.join ", " names) = py.strip <$> names.
Proof.
  intros Hne Hall. induction Hall as [|x names Hx Hall IH]; [done|].
  destruct names as [|y names].
  { cbn [py.join]. by rewrite split_comma_comma_free. }
  change (py.join ", " (x :: y :: names))
    with (x +:+ String "," (String " " (py.join ", " (y :: names)))).
  rewrite split_comma_app, split_comma_cons_blank by done.
  specialize (IH ltac:(done)).
  destruct (py.split_comma (py.join ", " (y :: names))) as [|w ws] eqn:Hsplit.
  { by apply split_at_nonempty in Hsplit. }
  cbn [fmap list_fmap] in *. rewrite strip_cons_blank. by rewrite IH.
Qed.

Lemma join_empty (names : list string) :
  py.join ", " names = "" ↔ names = [] ∨ names = [""].
Proof.
  split; [|by intros [->| ->]].
  destruct names as [|x [|y names]]; [by left| |].
  - cbn [py.join]. intros ->. by right.
  - cbn [py.join]. by destruct x.
Qed.

Lemma strip_has_char P s : has_char P s = false → has_char P (py.strip s) = false.
Proof. intros H. by apply rstrip_has_char, lstrip_has_char. Qed.

Lemma strip_empty_iff s : py.strip s = "" ↔ only_blanks s = true.
Proof.
  unfold py.strip. split.
  - induction s as [|c s IH]; [done|]. cbn [py.lstrip only_blanks].
    destruct (py.isspace c) eqn:Hc; [by intros ?%IH|].
    cbn [py.rstrip]. destruct (py.rstrip s); [by rewrite Hc|done].
  - intros H. by rewrite only_blanks_lstrip.
Qed.

(** X16.  The skills of a resume reach the parser through a text joined
    with commas.  For a list of names none of which contains a comma, the
    parsed skills are the stripped non-empty names in first-seen order; an
    empty list, a list holding only the empty name, a missing entry and an
    entry of another type give the default skill.  For a text, the parsed
    skills are those of the text itself, except that a text of blanks gives
    the default skill here, while parsing it directly gives no skill. *)
Theorem resume_skills_round_trip (names : list string) (text : string) :
  Forall (λ name, has_char is_comma name = false) names →
  let skills_of resume :=
    question_generator.parse_skills (question_generator._extract_skills_from_resume resume) in
  skills_of (question_generator.SkillList names)
  = (if decide (names = [] ∨ names = [""]) then ["general skills"]
     else first_seen_order (filter (λ s, py.truthy s = true) (py.strip <$> names))) ∧
  skills_of (question_generator.SkillText text)
  = (if only_blanks text then ["general skills"]
     else question_generator.parse_skills text) ∧
  skills_of question_generator.NoSkills = ["general skills"] ∧
  skills_of question_generator.OtherSkills = ["general skills"].
Proof.
  intros Hall. cbv zeta. split_and!; [| |done|done].
  - destruct (decide (names = [] ∨ names = [""])) as [[->| ->]|Hne]; [done|done|].
    assert (names ≠ []) as Hne' by (intros ->; apply Hne; by left).
    assert (question_generator._extract_skills_from_resume (question_generator.SkillList names)
            = py.join ", " names) as ->.
    { by destruct names. }
    rewrite parse_skills_nonempty by (by rewrite join_empty).
    unfold stripped_items. by rewrite stripped_split_join.
  - set (pieces := py.strip <$> py.split_comma text).
    assert (pieces ≠ []) as Hpieces.
    { unfold pieces. intros Hnil%fmap_nil_inv. by apply split_at_nonempty in Hnil. }
    assert (question_generator._extract_skills_from_resume (question_generator.SkillText text)
            = py.join ", " pieces) as ->.
    { unfold question_generator._extract_skills_from_resume. fold pieces.
      by destruct pieces. }
    assert (Forall (λ name, has_char is_comma name = false) pieces) as Hfree.
    { apply Forall_fmap, Forall_forall. intros piece Hpiece. cbn.
      apply strip_has_char. by eapply split_at_no_sep. }
    assert (py.strip <$> pieces = pieces) as Hidem.
    { unfold pieces. rewrite <- list_fmap_compose. apply list_fmap_ext.
      intros i s _. apply strip_idemp. }
    destruct (only_blanks text) eqn:Hblank.
    + assert (pieces = [""]) as ->; [|done].
      unfold pieces. rewrite only_blanks_no_comma by done. cbn.
      by rewrite (proj2 (strip_empty_iff text)).
    + assert (text ≠ "") as Htext by (by intros ->).
      assert (py.join ", " pieces ≠ "") as Hjoin.
      { rewrite join_empty. intros [?|Hone]; [done|].
        unfold pieces in Hone. pose proof (join_split_comma text) as Hround.
        destruct (py.split_comma text) as [|piece [|? ?]]; [done| |done].
        cbn in Hone, Hround. simplify_eq.
        match goal with H : py.strip _ = "" |- _ => apply strip_empty_iff in H end.
        congruence. }
      rewrite !parse_skills_nonempty by done.
      unfold stripped_items at 1. rewrite stripped_split_join, Hidem by done. done.
Qed.

Lemma resume_skills_round_trip_witness :
  question_generator.parse_skills
    (question_generator._extract_skills_from_resume
       (question_generator.SkillList ["Python"; " SQL "; "python"]))
  = ["Python"; "SQL"].
Proof.
  refine (eq_trans (proj1 (resume_skills_round_trip ["Python"; " SQL "; "python"] "" _)) _).
  - repeat constructor.
  - by vm_compute.
Defined.

(** *** The legacy entry point for technical questions *)

Section technical_questions.
Variable generate_response : string → string → Z → groq_client.response.
Variable json_loads : string → json_doc (list json.value).
Variable fenced_block : string → option string.
Variable listed_questions : string → list string.

Lemma plan_questions_bind (job_description : string) (n : Z) (skills : list string) :
  (foldl (interviews.plan_step generate_response json_loads fenced_block
            listed_questions job_description n) ([], ∅) skills).1
  = skills ≫= λ skill,
      question_generator.generate_skill_specific_questions
        generate_response json_loads fenced_block listed_questions
        skill job_description n.
Proof.
  induction skills as [|skill skills IH] using rev_ind; [done|].
  rewrite foldl_app, bind_app. cbn [foldl].
  destruct (foldl _ _ skills) as [all_questions blocks]. cbn [fst] in *.
  cbn. by rewrite IH, app_nil_r.
Qed.

Lemma lookup_bind_singletons {A B} (f : A → list B) (l : list A) (i : nat) :
  (∀ x, length (f x) = 1) → (l ≫= f) !! i = l !! i ≫= λ x, head (f x).
Proof.
  intros Hf. revert i. induction l as [|x l IH]; intros i; [done|].
  rewrite bind_cons. specialize (Hf x) as Hx.
  destruct (f x) as [|y [|? ?]] eqn:Hfx; [done| |done].
  destruct i as [|i]; cbn; [by rewrite Hfx|]. apply IH.
Qed.

(** X17.  The legacy entry point [generate_technical_questions] asks
    for one question per skill of the resume: for a non-negative limit it
    returns as many questions as the smaller of the limit and the number of
    parsed skills, and its question at position [i] is the single question
    of the batch generated for the parsed skill at position [i]. *)
Theorem technical_questions_one_per_skill (resume : question_generator.resume_skills)
    (job_description : string) (num_questions : Z) :
  (0 <= num_questions)%Z →
  let skills :=
    question_generator.parse_skills
      (question_generator._extract_skills_from_resume resume) in
  let out :=
    question_generator.generate_technical_questions
      generate_response json_loads fenced_block listed_questions
      resume job_description num_questions in
  length out = Z.to_nat num_questions `min` length skills ∧
  ∀ i text,
    out !! i = Some text →
    ∃ skill q,
      skills !! i = Some skill ∧
      question_generator.generate_skill_specific_questions
        generate_response json_loads fenced_block listed_questions
        skill job_description 1 = [q] ∧
      question_generator.question q = text.
Proof.
  intros Hnum. cbv zeta.
  unfold question_generator.generate_technical_questions,
    question_generator.generate_questions_for_skills_assessment.
  set (skills := question_generator.parse_skills _).
  rewrite assessment_fold_plan. cbv zeta.
  pose proof (plan_questions_bind job_description 1 skills) as Hbind.
  pose proof (plan_length generate_response json_loads fenced_block listed_questions
                job_description 1 ltac:(lia) skills) as Hlen.
  destruct (foldl _ _ skills) as [all_questions blocks].
  cbn [fst snd question_generator.questions] in *.
  unfold py.slice_to. rewrite (proj2 (Z.leb_le 0 num_questions)) by done.
  split.
  { rewrite length_fmap, length_take, Hlen. lia. }
  intros i text. rewrite list_lookup_fmap.
  destruct (take (Z.to_nat num_questions) all_questions !! i) as [q|] eqn:Hq; [|done].
  intros [= <-]. apply lookup_take_Some in Hq as [Hq _].
  rewrite Hbind, lookup_bind_singletons in Hq.
  2:{ intros skill. apply generate_skill_specific_questions_length. lia. }
  destruct (skills !! i) as [skill|]; [|done]. cbn in Hq.
  pose proof (generate_skill_specific_questions_length generate_response json_loads
                fenced_block listed_questions skill job_description 1 ltac:(lia)) as Hone.
  destruct (question_generator.generate_skill_specific_questions _ _ _ _ _ _ _)
    as [|q' [|? ?]] eqn:Hbatch; [done| |done].
  cbn in Hq. simplify_eq. by exists skill, q.
Qed.
End technical_questions.

Lemma technical_questions_one_per_skill_witness :
  length (question_generator.generate_technical_questions
            upstream_down.questions_reply upstream_down.loads_questions
            upstream_down.fenced_block upstream_down.listed_questions
            (question_generator.SkillText "SQL, Excel,sql") "Analyst" 5) = 2.
Proof.
  refine (eq_trans (proj1 (technical_questions_one_per_skill
                             upstream_down.questions_reply upstream_down.loads_questions
                             upstream_down.fenced_block upstream_down.listed_questions
                             (question_generator.SkillText "SQL, Excel,sql") "Analyst" 5 _)) _).
  - lia.
  - by vm_compute.
Defined.

(** ** Batches of evaluations *)

Section batch_evaluation.
Variable generate_response : string → string → string → string → groq_client.response.
Variable json_loads : string → json_doc response_evaluator.evaluation.
Variable fenced_block : string → option string.

Abbreviation failed := (item_failed generate_response json_loads fenced_block).

End batch_evaluation.

(** ** Skill ratings from tagged evaluations *)

Lemma proficiency_level_of_stars (score : Q) :
  question_generator._determine_proficiency_level score
  = level_of_stars (question_generator._convert_score_to_stars score).
Proof.
  unfold question_generator._determine_proficiency_level,
    question_generator._convert_score_to_stars.
  by repeat case_match.
Qed.

Lemma level_of_stars_known (stars : Z) :
  level_of_stars stars ∈ rating_methods.proficiency_groups.*1.
Proof.
  unfold level_of_stars. repeat case_decide; cbn; set_solver.
Qed.

Lemma mapM_number_of_Some (l : list json.value) (k : list Q) :
  mapM rating_methods.number_of l = Some k → l = json.Number <$> k.
Proof.
  intros H%mapM_Some. induction H as [|x y l k Hxy _ IH]; [done|].
  destruct x; cbn in Hxy; try done. injection Hxy as ->. cbn. by f_equal.
Qed.

Lemma mapM_number_of_None (l : list json.value) :
  mapM rating_methods.number_of l = None →
  Exists (λ score, rating_methods.number_of score = None) l.
Proof. by intros H%mapM_None. Qed.

Section rating_facts.
Variable operand_error : list json.value → string.
Variable mean : list Q → Q.
Variable round2 : Q → Q.

Abbreviation rate_skill := (rating_methods.rate_skill operand_error mean round2).
Abbreviation rate_step := (rating_methods.rate_step operand_error mean round2).
Abbreviation known_level :=
  (λ entry : string * rating_methods.individual_skill,
     rating_methods.proficiency_level entry.2 ∈ rating_methods.proficiency_groups.*1).

(** The entry of one skill: it exists unless a score of the skill is
    not a number. *)
Lemma rate_skill_outcome skill evaluations :
  match rate_skill skill evaluations with
  | Ok data =>
      ¬ badly_scored skill evaluations ∧ rates evaluations (skill, data) ∧
      known_level (skill, data)
  | Raise e =>
      badly_scored skill evaluations ∧
      e = py.TypeError
            (operand_error (rating_methods.skill_evaluations skill evaluations).*1)
  end.
Proof.
  unfold rating_methods.rate_skill, badly_scored, rates. cbv zeta. cbn [fst snd].
  set (scored := rating_methods.skill_evaluations skill evaluations).
  destruct (scored.*1) as [|score scores] eqn:Hscores.
  { cbn. split_and!; try done; [by intros ?%Exists_nil|set_solver]. }
  rewrite <- Hscores.
  destruct (mapM rating_methods.number_of (scored.*1)) as [numbers|] eqn:Hnumbers.
  - apply mapM_number_of_Some in Hnumbers.
    cbn [rating_methods.questions_answered rating_methods.individual_scores
         rating_methods.feedback rating_methods.star_rating
         rating_methods.proficiency_level rating_methods.average_score].
    split_and!.
    + rewrite Hnumbers. intros (x & (y & -> & _)%list_elem_of_fmap & Hx)%Exists_exists.
      done.
    + done.
    + done.
    + etrans; [apply length_filter|]. by rewrite !length_fmap.
    + apply stars_range.
    + apply stars_range.
    + rewrite decide_False by (by rewrite Hscores).
      apply proficiency_level_of_stars.
    + by rewrite Hscores.
    + rewrite proficiency_level_of_stars. apply level_of_stars_known.
  - split; [by apply mapM_number_of_None|done].
Qed.

(** The loop over the skills stops at the first skill whose entry raises;
    otherwise it gives one entry per skill, in order. *)
Lemma rate_fold evaluations (skills_metadata : list (string * question_generator.skill_metadata)) :
  match foldl (rate_step evaluations) (Ok []) skills_metadata with
  | Ok skill_ratings =>
      Forall2 (λ (entry : string * question_generator.skill_metadata) rated,
                 rated.1 = entry.1 ∧ rate_skill entry.1 evaluations = Ok rated.2)
              skills_metadata skill_ratings
  | Raise e =>
      ∃ skill, skill ∈ skills_metadata.*1 ∧ rate_skill skill evaluations = Raise e
  end.
Proof.
  induction skills_metadata as [|[skill metadata] skills_metadata IH] using rev_ind.
  { cbn. constructor. }
  rewrite foldl_app. cbn [foldl].
  destruct (foldl _ _ skills_metadata) as [skill_ratings|e]; cbn [rating_methods.rate_step fst].
  - destruct (rate_skill skill evaluations) as [data|e] eqn:Hskill.
    + apply Forall2_app; [done|]. by repeat constructor.
    + exists skill. split; [|done]. rewrite fmap_app. set_solver.
  - destruct IH as (skill' & Hin & Hraise). exists skill'. split; [|done].
    rewrite fmap_app. set_solver.
Qed.

Lemma rated_keys evaluations (skills_metadata : list (string * question_generator.skill_metadata))
    (skill_ratings : list (string * rating_methods.individual_skill)) :
  Forall2 (λ (entry : string * question_generator.skill_metadata) rated,
             rated.1 = entry.1 ∧ rate_skill entry.1 evaluations = Ok rated.2)
          skills_metadata skill_ratings →
  skill_ratings.*1 = skills_metadata.*1.
Proof. induction 1 as [|? ? ? ? [? _]]; [done|]. cbn. by f_equal. Qed.

Lemma rated_Forall evaluations (skills_metadata : list (string * question_generator.skill_metadata))
    (skill_ratings : list (string * rating_methods.individual_skill))
    (P : string * rating_methods.individual_skill → Prop) :
  (∀ skill data, rate_skill skill evaluations = Ok data → P (skill, data)) →
  Forall2 (λ (entry : string * question_generator.skill_metadata) rated,
             rated.1 = entry.1 ∧ rate_skill entry.1 evaluations = Ok rated.2)
          skills_metadata skill_ratings →
  Forall P skill_ratings.
Proof.
  intros HP. induction 1 as [|entry [skill data] ? ? [Hkey Hrate]]; constructor; [|done].
  cbn in *. subst. by apply HP.
Qed.

Lemma rated_rates evaluations skill data :
  rate_skill skill evaluations = Ok data →
  rates evaluations (skill, data) ∧ known_level (skill, data).
Proof.
  intros Hrate. pose proof (rate_skill_outcome skill evaluations) as H.
  rewrite Hrate in H. by destruct H as (_ & ? & ?).
Qed.

(** The grouping loop: the six groups hold the skills of their level, and
    an unknown level is a [KeyError]. *)
Lemma group_fold (skill_ratings : list (string * rating_methods.individual_skill)) :
  match foldl rating_methods.group_step (Ok rating_methods.proficiency_groups) skill_ratings with
  | Ok groups =>
      Forall known_level skill_ratings ∧
      groups = (λ level, (level, skills_at level skill_ratings))
                 <$> rating_methods.proficiency_groups.*1
  | Raise e =>
      ∃ entry, entry ∈ skill_ratings ∧ ¬ known_level entry ∧
               e = py.KeyError (rating_methods.proficiency_level entry.2)
  end.
Proof.
  induction skill_ratings as [|[skill data] skill_ratings IH] using rev_ind.
  { cbn. by split. }
  rewrite foldl_app. cbn [foldl].
  destruct (foldl _ _ skill_ratings) as [groups|e]; cbn [rating_methods.group_step fst snd].
  - destruct IH as [Hknown ->].
    rewrite <- list_fmap_compose.
    destruct (decide (_ ∈ _)) as [Hin|Hout].
    + rewrite list_fmap_id in Hin. split.
      { apply Forall_app. split; [done|]. by apply Forall_singleton. }
      rewrite <- list_fmap_compose. apply list_fmap_ext. intros _ level _. cbn.
      unfold skills_at. rewrite filter_app, fmap_app, filter_cons, filter_nil. cbn [snd].
      destruct (decide (level = _)) as [->|Hne].
      * by rewrite decide_True by done.
      * rewrite decide_False by done. cbn. by rewrite app_nil_r.
    + exists (skill, data). split_and!; [set_solver| |done].
      intros Hin. apply Hout. change ((compose fst _ <$> ?l)) with (id <$> l).
      by rewrite list_fmap_id.
  - destruct IH as (entry & Hin & Hout & ->). exists entry. split; [set_solver|done].
Qed.

Lemma group_known (skill_ratings : list (string * rating_methods.individual_skill)) :
  Forall known_level skill_ratings →
  rating_methods._group_skills_by_proficiency skill_ratings
  = Ok (filter (λ group : string * list string, group.2 ≠ [])
          ((λ level, (level, skills_at level skill_ratings))
             <$> rating_methods.proficiency_groups.*1)).
Proof.
  intros Hknown. unfold rating_methods._group_skills_by_proficiency.
  pose proof (group_fold skill_ratings) as Hfold.
  destruct (foldl _ _ skill_ratings) as [groups|e].
  - by destruct Hfold as [_ ->].
  - destruct Hfold as (entry & Hin & Hout & _). exfalso. apply Hout.
    by apply (proj1 (Forall_forall _ _) Hknown).
Qed.

Lemma calculate_unfold evaluations skills_metadata skill_ratings :
  foldl (rate_step evaluations) (Ok []) skills_metadata = Ok skill_ratings →
  ∃ r, rating_methods.calculate_individual_skill_ratings operand_error mean round2
         evaluations skills_metadata = Ok r ∧
       rating_methods.individual_skills r = skill_ratings ∧
       rating_methods.skills_count (rating_methods.overall r) = length skill_ratings ∧
       (let all_skill_scores :=
          filter (λ score, Qle_bool score 0 = false)
                 (rating_methods.average_score <$> skill_ratings.*2) in
        let overall_score :=
          match all_skill_scores with [] => 0%Q | _ => mean all_skill_scores end in
        rating_methods.overall_star_rating (rating_methods.overall r)
        = question_generator._convert_score_to_stars overall_score ∧
        rating_methods.overall_proficiency_level (rating_methods.overall r)
        = question_generator._determine_proficiency_level overall_score ∧
        rating_methods.overall_average_score (rating_methods.overall r)
        = round2 overall_score) ∧
       rating_methods.total_skills_assessed (rating_methods.summary r)
       = length (filter (λ s, 0 < rating_methods.questions_answered s) skill_ratings.*2) ∧
       rating_methods.highest_rated_skill (rating_methods.summary r)
       = fst <$> py.max_by (λ x : string * rating_methods.individual_skill,
                              rating_methods.average_score x.2) skill_ratings ∧
       rating_methods.lowest_rated_skill (rating_methods.summary r)
       = fst <$> py.min_by (λ x : string * rating_methods.individual_skill,
                              rating_methods.average_score x.2) skill_ratings.
Proof.
  intros Hfold. unfold rating_methods.calculate_individual_skill_ratings.
  pose proof (rate_fold evaluations skills_metadata) as Hrated.
  rewrite Hfold in *.
  rewrite group_known.
  { eexists. split; [reflexivity|]. cbn. by split_and!. }
  eapply rated_Forall; [|exact Hrated]. intros skill data Hrate.
  by destruct (rated_rates _ _ _ Hrate).
Qed.

(** X19.  The individual ratings are decided by the tags of the
    evaluations, not by the question indices of the metadata: when every
    score of the items tagged with a skill of the metadata is a number,
    there is one entry per skill, in the order of the metadata, that counts
    the items tagged with the skill that carry a score, lists their scores,
    has a star rating between 1 and 5 and the proficiency level of that
    star rating, or 1 star and "Not Assessed" when no item counts; as soon
    as one skill has an item whose score is not a number ([null], a text, a
    list or an object), the call raises the type error of the sum and no
    skill is rated. *)
Theorem individual_ratings_by_tag
    (evaluations : list rating_methods.evaluation_item)
    (skills_metadata : list (string * question_generator.skill_metadata)) :
  match rating_methods.calculate_individual_skill_ratings operand_error mean round2
          evaluations skills_metadata with
  | Ok r =>
      Forall (λ entry, ¬ badly_scored entry.1 evaluations) skills_metadata ∧
      (rating_methods.individual_skills r).*1 = skills_metadata.*1 ∧
      rating_methods.skills_count (rating_methods.overall r) = length skills_metadata ∧
      Forall (rates evaluations) (rating_methods.individual_skills r)
  | Raise e =>
      ∃ skill, skill ∈ skills_metadata.*1 ∧ badly_scored skill evaluations ∧
               e = py.TypeError
                     (operand_error (rating_methods.skill_evaluations skill evaluations).*1)
  end.
Proof.
  pose proof (rate_fold evaluations skills_metadata) as Hrated.
  destruct (foldl (rate_step evaluations) (Ok []) skills_metadata)
    as [skill_ratings|e] eqn:Hfold.
  - destruct (calculate_unfold _ _ _ Hfold) as (r & -> & Hskills & Hcount & _).
    rewrite Hskills, Hcount. split_and!.
    + clear Hfold Hskills Hcount.
      induction Hrated as [|entry rated ? ? [_ Hrate]]; constructor; [|done].
      pose proof (rate_skill_outcome entry.1 evaluations) as H.
      rewrite Hrate in H. by destruct H.
    + by eapply rated_keys.
    + symmetry. by eapply Forall2_length.
    + eapply rated_Forall; [|exact Hrated]. intros skill data Hrate.
      by destruct (rated_rates _ _ _ Hrate).
  - unfold rating_methods.calculate_individual_skill_ratings. rewrite Hfold.
    destruct Hrated as (skill & Hin & Hraise). exists skill.
    pose proof (rate_skill_outcome skill evaluations) as H.
    rewrite Hraise in H. by destruct H.
Qed.

(** X20.  The groups by proficiency partition the rated skills: the
    groups appear in the fixed order Expert, Advanced, Intermediate,
    Beginner, Novice, Not Assessed, none is empty, each holds the skills of
    its level in the order of the ratings, and together they hold every
    skill once; a level outside the six raises a key error for it. *)
Theorem group_skills_partition
    (skill_ratings : list (string * rating_methods.individual_skill)) :
  match rating_methods._group_skills_by_proficiency skill_ratings with
  | Ok groups =>
      groups.*1 `sublist_of` rating_methods.proficiency_groups.*1 ∧
      Forall (λ group : string * list string,
                group.2 ≠ [] ∧ group.2 = skills_at group.1 skill_ratings) groups ∧
      concat groups.*2 ≡ₚ skill_ratings.*1
  | Raise e =>
      ∃ entry, entry ∈ skill_ratings ∧
               (rating_methods.proficiency_level entry.2
                  ∉ rating_methods.proficiency_groups.*1) ∧
               e = py.KeyError (rating_methods.proficiency_level entry.2)
  end.
Proof.
  unfold rating_methods._group_skills_by_proficiency.
  pose proof (group_fold skill_ratings) as Hfold.
  destruct (foldl _ _ skill_ratings) as [groups|e]; [|done].
  destruct Hfold as [Hknown ->]. split_and!.
  - generalize (rating_methods.proficiency_groups.*1). intros levels.
    induction levels as [|level levels IH]; [done|].
    cbn [fmap list_fmap]. rewrite filter_cons. destruct (decide _); cbn.
    + by apply sublist_skip.
    + by apply sublist_cons.
  - apply Forall_forall. intros [level skills] [Hne Hin]%list_elem_of_filter.
    apply list_elem_of_fmap in Hin as (level' & [= -> ->] & _). by split.
  - transitivity (concat ((λ level, skills_at level skill_ratings)
                            <$> rating_methods.proficiency_groups.*1)).
    { generalize (rating_methods.proficiency_groups.*1). intros levels.
      induction levels as [|level levels IH]; [done|].
      cbn [fmap list_fmap]. rewrite filter_cons. destruct (decide _) as [Hne|Hnil]; cbn.
      - by rewrite IH.
      - cbn in Hnil. apply dec_stable in Hnil. by rewrite Hnil, IH. }
    clear -Hknown. induction Hknown as [|[skill data] skill_ratings Hlevel _ IH]; [done|].
    cbn in Hlevel. unfold skills_at in *.
    cbn [rating_methods.proficiency_groups fmap list_fmap concat fst] in *.
    rewrite !filter_cons. cbn [snd fst]. rewrite <- IH. clear IH.
    rewrite !app_nil_r.
    repeat (apply elem_of_cons in Hlevel as [->|Hlevel]);
      [..|by apply elem_of_nil in Hlevel];
      repeat (first [rewrite decide_True by done | rewrite decide_False by done]);
      cbn [fmap list_fmap]; solve_Permutation.
Qed.
End rating_facts.

(** ** The rating service *)

Section rating_service_facts.
Variable operand_error : list json.value → string.
Variable mean : list Q → Q.
Variable round2 : Q → Q.

Abbreviation rated_by evaluations :=
  (Forall2 (λ (entry : string * question_generator.skill_metadata)
              (rated : string * rating_methods.individual_skill),
              rated.1 = entry.1 ∧
              rating_methods.rate_skill operand_error mean round2 entry.1 evaluations = Ok rated.2)).

Lemma rate_skill_summary skill evaluations data :
  rating_methods.rate_skill operand_error mean round2 skill evaluations = Ok data →
  0 < rating_methods.questions_answered data →
  rating_methods.skill_summary data
  = skill +:+ ": " +:+ pretty (rating_methods.star_rating data) +:+ "/5 stars ("
      +:+ rating_methods.proficiency_level data +:+ ")".
Proof.
  unfold rating_methods.rate_skill. cbv zeta.
  destruct ((rating_methods.skill_evaluations skill evaluations).*1) as [|score scores].
  { intros [= <-]. cbn. lia. }
  destruct (mapM rating_methods.number_of (score :: scores)); [|done]. by intros [= <-].
Qed.

Lemma assessed_count evaluations skills_metadata skill_ratings :
  rated_by evaluations skills_metadata skill_ratings →
  length (filter (λ s, 0 < rating_methods.questions_answered s) skill_ratings.*2)
  = length (filter (assessed evaluations) skills_metadata).
Proof.
  induction 1 as [|entry [skill data] ? ? [Hkey Hrate] _ IH]; [done|].
  cbn [fmap list_fmap snd]. rewrite !filter_cons.
  destruct (rated_rates _ _ _ _ _ _ Hrate) as [(Hcount & _) _]. cbn [fst snd] in Hcount.
  unfold assessed. rewrite Hcount, length_fmap.
  destruct (rating_methods.skill_evaluations entry.1 evaluations) eqn:Hscored.
  - rewrite decide_False by (cbn; lia). by rewrite decide_False by (by intros H).
  - rewrite decide_True by (cbn; lia). rewrite decide_True by done. cbn. by rewrite IH.
Qed.

(** X21.  The rating service answers in one of two ways.  When every
    score of the items tagged with a skill of the metadata is a number, it
    returns the individual ratings with details that count the skills of
    the metadata and those with at least one scored item, and a summary
    line per skill that repeats the skill's own summary when the skill was
    assessed.  When some skill has an item whose score is not a number, it
    returns the error dictionary: no individual skill at all, 1 star, and
    the text of the type error. *)
Theorem skill_based_ratings_outcomes
    (evaluations : list rating_methods.evaluation_item)
    (skills_metadata : list (string * question_generator.skill_metadata)) :
  match interview_service.calculate_skill_based_ratings operand_error mean round2
          evaluations skills_metadata with
  | interview_service.Rated r details _ =>
      Forall (λ entry, ¬ badly_scored entry.1 evaluations) skills_metadata ∧
      interview_service.total_skills_defined details = length skills_metadata ∧
      interview_service.skills_actually_assessed details
      = length (filter (assessed evaluations) skills_metadata) ∧
      interview_service.skills_actually_assessed details
      = rating_methods.total_skills_assessed (rating_methods.summary r) ∧
      Forall2 (λ (rated : string * rating_methods.individual_skill) line,
                 0 < rating_methods.questions_answered rated.2 →
                 line = rating_methods.skill_summary rated.2)
              (rating_methods.individual_skills r)
              (interview_service.skill_summary_lines details)
  | interview_service.RatingError individual_skills _ star_rating _ error =>
      individual_skills = [] ∧ star_rating = 1%Z ∧
      ∃ skill, skill ∈ skills_metadata.*1 ∧ badly_scored skill evaluations ∧
               error = operand_error
                         (rating_methods.skill_evaluations skill evaluations).*1
  end.
Proof.
  unfold interview_service.calculate_skill_based_ratings.
  pose proof (rate_fold operand_error mean round2 evaluations skills_metadata) as Hrated.
  destruct (foldl (rating_methods.rate_step operand_error mean round2 evaluations) (Ok []) skills_metadata)
    as [skill_ratings|e] eqn:Hfold.
  - destruct (calculate_unfold _ _ _ _ _ _ Hfold)
      as (r & -> & Hskills & _ & _ & Htotal & _).
    cbn [interview_service.total_skills_defined interview_service.skills_actually_assessed
         interview_service.skill_summary_lines].
    rewrite Htotal, Hskills. split_and!.
    + clear Hfold Hskills Htotal.
      induction Hrated as [|entry rated ? ? [_ Hrate]]; constructor; [|done].
      pose proof (rate_skill_outcome operand_error mean round2 entry.1 evaluations) as H.
      rewrite Hrate in H. by destruct H.
    + symmetry. by eapply Forall2_length.
    + by eapply assessed_count.
    + done.
    + apply Forall2_fmap_r, Forall_Forall2_diag.
      eapply rated_Forall; [|exact Hrated]. intros skill data Hrate Hpos.
      symmetry. by apply (rate_skill_summary skill evaluations).
  - unfold rating_methods.calculate_individual_skill_ratings. rewrite Hfold.
    destruct Hrated as (skill & Hin & Hraise). split_and!; [done..|].
    exists skill.
    pose proof (rate_skill_outcome operand_error mean round2 skill evaluations) as H.
    rewrite Hraise in H. destruct H as [Hnull ->]. by split_and!.
Qed.

(** The loop of the recommendations collects three lists of lines. *)
Lemma recommendations_fold (individual_skills : list (string * rating_methods.individual_skill)) :
  interview_service._generate_skill_recommendations individual_skills
  = {| interview_service.recommendations.strengths := omap strength_line individual_skills;
       interview_service.recommendations.improvement_areas :=
         omap improvement_line individual_skills;
       interview_service.recommendations.focus_suggestions :=
         omap focus_line individual_skills |}.
Proof.
  unfold interview_service._generate_skill_recommendations.
  induction individual_skills as [|[skill data] individual_skills IH] using rev_ind; [done|].
  rewrite foldl_app, IH, !omap_app. cbn [foldl omap list_omap].
  unfold interview_service.recommendation_step, strength_line, improvement_line, focus_line.
  cbn [fst snd].
  destruct (Z.leb_spec 4 (rating_methods.star_rating data)),
    (Z.leb_spec (rating_methods.star_rating data) 2);
    try lia; repeat case_decide; cbn; by rewrite ?app_nil_r.
Qed.

Lemma focus_line_by_stars evaluations entry :
  rates evaluations entry → focus_line entry = focus_by_stars entry.
Proof.
  intros (Hcount & _ & _ & Hrange & Hlevel & _).
  unfold focus_line, focus_by_stars. cbv zeta. rewrite Hlevel, Hcount.
  destruct ((rating_methods.skill_evaluations entry.1 evaluations).*1); cbn [length].
  { by destruct (decide (@nil json.value = [])). }
  destruct (decide (_ :: _ = [])); [done|].
  destruct (decide (S _ = 0)); [done|].
  unfold level_of_stars. repeat case_decide; try done; lia.
Qed.

(** X22.  In the answer of the rating service, the recommendations follow
    the star ratings: the strengths are the skills with 4 or 5 stars, the
    improvement areas the skills with 1 or 2 stars, each with its line in the
    order of the skills; a skill without any scored item is listed as an
    improvement area with "1/5 stars"; and a focus suggestion is given
    exactly for the assessed skills with 5, 3 or 2 stars, so that 4-star and
    1-star skills get none. *)
Theorem recommendations_by_stars
    (evaluations : list rating_methods.evaluation_item)
    (skills_metadata : list (string * question_generator.skill_metadata))
    (r : rating_methods.individual_skill_ratings)
    (details : interview_service.assessment_details)
    (recommended : interview_service.recommendations.t) :
  interview_service.calculate_skill_based_ratings operand_error mean round2 evaluations skills_metadata
  = interview_service.Rated r details recommended →
  let skills := rating_methods.individual_skills r in
  interview_service.recommendations.strengths recommended = omap strength_line skills ∧
  interview_service.recommendations.improvement_areas recommended
  = omap improvement_line skills ∧
  interview_service.recommendations.focus_suggestions recommended
  = omap focus_by_stars skills ∧
  ∀ skill data,
    (skill, data) ∈ skills → rating_methods.questions_answered data = 0 →
    skill +:+ " needs development (1/5 stars)"
      ∈ interview_service.recommendations.improvement_areas recommended.
Proof.
  unfold interview_service.calculate_skill_based_ratings.
  pose proof (rate_fold operand_error mean round2 evaluations skills_metadata) as Hrated.
  destruct (foldl (rating_methods.rate_step operand_error mean round2 evaluations) (Ok []) skills_metadata)
    as [skill_ratings|e] eqn:Hfold.
  2:{ unfold rating_methods.calculate_individual_skill_ratings. by rewrite Hfold. }
  destruct (calculate_unfold _ _ _ _ _ _ Hfold) as (r' & -> & Hskills & _).
  intros [= -> _ <-]. cbv zeta. rewrite Hskills, recommendations_fold.
  cbn [interview_service.recommendations.strengths
       interview_service.recommendations.improvement_areas
       interview_service.recommendations.focus_suggestions].
  assert (Forall (rates evaluations) skill_ratings) as Hrates.
  { eapply rated_Forall; [|exact Hrated]. intros skill data Hrate.
    by destruct (rated_rates _ _ _ _ _ _ Hrate). }
  split_and!; [done|done| |].
  - clear -Hrates. induction Hrates as [|entry skill_ratings Hentry _ IH]; [done|].
    cbn [omap list_omap]. by rewrite (focus_line_by_stars _ _ Hentry), IH.
  - intros skill data Hin Hzero. apply list_elem_of_omap. exists (skill, data).
    split; [done|].
    apply (proj1 (Forall_forall _ _) Hrates) in Hin
      as (Hcount & _ & _ & _ & _ & Hnone).
    cbn [fst snd] in *. rewrite Hzero in Hcount.
    destruct Hnone as [Hstar _]; [by destruct (_.*1)|].
    unfold improvement_line. cbn [fst snd]. by rewrite Hstar.
Qed.
End rating_service_facts.

Lemma recommendations_by_stars_witness :
  let evaluations :=
    [ {| rating_methods.item_skill := Some "SQL";
         rating_methods.item_evaluation :=
           Some (response_evaluator.with_required_fields response_evaluator.empty) |} ] in
  let skills_metadata := [ ("SQL", metadata_at 1 0); ("Excel", metadata_at 1 1) ] in
  ∃ r details recommended,
    interview_service.calculate_skill_based_ratings (λ _, "") exact.mean (py.round_digits 2)
      evaluations skills_metadata
    = interview_service.Rated r details recommended ∧
    interview_service.recommendations.improvement_areas recommended
    = ["Excel needs development (1/5 stars)"] ∧
    interview_service.recommendations.focus_suggestions recommended
    = ["Practice advanced applications of SQL"].
Proof.
  cbv zeta. eexists _, _, _.
  match goal with
  | |- ?call = _ ∧ _ =>
      let v := eval vm_compute in call in
      assert (call = v) as Hcall by (vm_compute; reflexivity)
  end.
  split; [exact Hcall|].
  destruct (recommendations_by_stars _ _ _ _ _ _ _ _ Hcall) as (_ & -> & -> & _).
  by vm_compute.
Defined.

(** ** Card files: what the generator writes and what the API finds *)

Lemma lower_app (a b : string) : py.lower (a +:+ b) = py.lower a +:+ py.lower b.
Proof.
  induction a as [|c a IH]; [done|].
  change (py.lower (String c a +:+ b)) with (String (py.lower_char c) (py.lower (a +:+ b))).
  by rewrite IH.
Qed.

Lemma startswith_app (p t : string) : py.startswith p (p +:+ t) = true.
Proof.
  induction p as [|c p IH]; [done|].
  change (String c p +:+ t) with (String c (p +:+ t)).
  cbn [py.startswith]. by rewrite Ascii.eqb_refl, IH.
Qed.

Lemma contains_unfold (p s : string) :
  py.contains p s
  = py.startswith p s
    || match s with EmptyString => false | String _ s' => py.contains p s' end.
Proof. by destruct s. Qed.

Lemma contains_prefix (p t : string) : py.contains p (p +:+ t) = true.
Proof. by rewrite contains_unfold, startswith_app. Qed.

Lemma contains_skip (p a s : string) :
  py.contains p s = true → py.contains p (a +:+ s) = true.
Proof.
  intros Hs. induction a as [|c a IH]; [done|].
  change (String c a +:+ s) with (String c (a +:+ s)).
  rewrite contains_unfold, IH. apply orb_true_r.
Qed.

Lemma startswith_extend (p s t : string) :
  py.startswith p s = true → py.startswith p (s +:+ t) = true.
Proof.
  revert s. induction p as [|c p IH]; intros s; [done|].
  destruct s as [|d s]; [done|].
  change (String d s +:+ t) with (String d (s +:+ t)). cbn [py.startswith].
  intros [-> Hp]%andb_prop. by rewrite (IH _ Hp).
Qed.

Lemma contains_extend (p s t : string) :
  py.contains p s = true → py.contains p (s +:+ t) = true.
Proof.
  induction s as [|c s IH].
  - rewrite contains_unfold, orb_false_r. destruct p; [|done]. intros _.
    change ("" +:+ t) with t. by rewrite contains_unfold.
  - rewrite (contains_unfold p (String c s)).
    change (String c s +:+ t) with (String c (s +:+ t)).
    rewrite (contains_unfold p (String c (s +:+ t))).
    intros [Hp|Hs]%orb_prop.
    + change (String c (s +:+ t)) with (String c s +:+ t).
      by rewrite (startswith_extend _ _ _ Hp).
    + rewrite (IH Hs). apply orb_true_r.
Qed.

(** A file with one of the expected names also passes the substring
    test. *)
Lemma expected_name_matches (spelling rarity : string) :
  let name := spelling +:+ "_" +:+ rarity +:+ "_skillcard.png" in
  py.contains (py.lower spelling) (py.lower name)
  && py.contains (py.lower rarity) (py.lower name) = true.
Proof.
  cbv zeta. rewrite !lower_app. apply andb_true_intro. split.
  - apply contains_prefix.
  - apply contains_skip, contains_skip, contains_prefix.
Qed.

Lemma possible_filename_partial (skill_name expected_rarity name : string) :
  name ∈ interviews.possible_filenames skill_name expected_rarity →
  interviews.partial_match skill_name expected_rarity name = true.
Proof.
  unfold interviews.possible_filenames, interviews.partial_match.
  intros (spelling & -> & Hin)%list_elem_of_fmap.
  apply existsb_exists. exists spelling. split; [by apply list_elem_of_In|].
  apply expected_name_matches.
Qed.

Lemma file_matches_partial (skill_name expected_rarity name : string) :
  interviews.file_matches skill_name expected_rarity name
  = interviews.partial_match skill_name expected_rarity name.
Proof.
  unfold interviews.file_matches. case_bool_decide as Hin; [|done].
  by rewrite (possible_filename_partial _ _ _ Hin).
Qed.

Lemma find_matching_file_partial (new_files : list string)
    (skill_name expected_rarity : string) :
  interviews.find_matching_file new_files skill_name expected_rarity
  = head (filter (λ name,
                    interviews.partial_match skill_name expected_rarity name = true)
                 new_files).
Proof.
  unfold interviews.find_matching_file. f_equal.
  apply list_filter_iff. intros name. by rewrite file_matches_partial.
Qed.

(** X24.  The file search of the card endpoint is a substring search: it
    returns the first recent file whose lower-cased name contains the
    lower-cased rarity and one of the three spellings of the skill.  The
    expected file names give no priority, because every file with such a name
    passes the substring test as well; so a file with an expected name is
    always matched by some file, namely the first one that passes. *)
Theorem matching_file_by_substring (new_files : list string)
    (skill_name expected_rarity : string) :
  interviews.find_matching_file new_files skill_name expected_rarity
  = head (filter (λ name,
                    interviews.partial_match skill_name expected_rarity name = true)
                 new_files) ∧
  (∀ found,
     interviews.find_matching_file new_files skill_name expected_rarity = Some found →
     ∃ before after,
       new_files = before ++ found :: after ∧
       interviews.partial_match skill_name expected_rarity found = true ∧
       Forall (λ name, interviews.partial_match skill_name expected_rarity name = false)
              before) ∧
  (interviews.find_matching_file new_files skill_name expected_rarity = None ↔
   Forall (λ name, interviews.partial_match skill_name expected_rarity name = false)
          new_files).
Proof.
  rewrite find_matching_file_partial. split; [done|].
  induction new_files as [|name new_files [IHfound IHnone]].
  { split; [done|]. split; [constructor|done]. }
  rewrite filter_cons.
  destruct (interviews.partial_match skill_name expected_rarity name) eqn:Hname.
  - rewrite decide_True by done. split.
    + intros found [= <-]. exists [], new_files. by split_and!.
    + split; [done|]. intros [Hfalse _]%Forall_cons. congruence.
  - rewrite decide_False by done. split.
    + intros found (before & after & -> & Hfound & Hbefore)%IHfound.
      exists (name :: before), after. split_and!; [done|done|by constructor].
    + rewrite IHnone. split; [by constructor|]. by intros [_ ?]%Forall_cons.
Qed.

(** X25.  The generator and the endpoint agree on names: both map a star
    rating to the same rarity, and the file name the generator gives a PNG
    card is the first name the endpoint expects.  Hence, when the file of a
    card is among the recent files, the endpoint finds a file for the skill
    and the loop records the skill as generated, not as failed. *)
Theorem generated_card_is_matched (skill_name : string) (star_rating : Z)
    (new_files : list string)
    (cards : gmap string database.card) (generated_cards : list database.generated_card)
    (failed_cards : list database.failed_card) :
  let rarity := skill_card_generator.rarity_mapping star_rating in
  let file_name := skill_card_generator.file_name_of skill_name rarity ".png" in
  file_name ∈ new_files →
  rarity = interviews.rarity_mapping star_rating ∧
  head (interviews.possible_filenames skill_name rarity) = Some file_name ∧
  ∃ found,
    interviews.find_matching_file new_files skill_name rarity = Some found ∧
    found ∈ new_files ∧
    let '(cards', generated_cards', failed_cards') :=
      interviews.card_step interviews.find_matching_file new_files
        (cards, generated_cards, failed_cards) (skill_name, star_rating) in
    failed_cards' = failed_cards ∧
    database.generated_skill <$> generated_cards'
    = (database.generated_skill <$> generated_cards) ++ [skill_name] ∧
    database.file_name <$> generated_cards'
    = (database.file_name <$> generated_cards) ++ [found] ∧
    dom cards' = {[found]} ∪ dom cards.
Proof.
  intros rarity file_name Hin.
  assert (rarity = interviews.rarity_mapping star_rating) as Hrarity by done.
  assert (file_name ∈ interviews.possible_filenames skill_name rarity) as Hexpected.
  { unfold interviews.possible_filenames, interviews.skill_spellings.
    cbn [fmap list_fmap]. left. }
  split; [done|]. split; [done|].
  destruct (interviews.find_matching_file new_files skill_name rarity) as [found|] eqn:Hfound.
  - exists found. split; [done|]. split.
    { unfold interviews.find_matching_file in Hfound.
      apply head_Some_elem_of, list_elem_of_filter in Hfound. by destruct Hfound. }
    unfold interviews.card_step. rewrite <- Hrarity, Hfound.
    rewrite !fmap_app, dom_insert_L. by cbn.
  - exfalso. rewrite find_matching_file_partial in Hfound.
    apply head_None in Hfound.
    apply (filter_nil_not_elem_of _ _ file_name) in Hfound; [done|].
    by apply possible_filename_partial.
Qed.

(** X25 for the skill "Data Analysis" with 3 stars, whose card is the
    first of two recent files. *)
Lemma generated_card_is_matched_witness :
  let new_files := ["Data_Analysis_Rare_skillcard.png"; "sql_epic_skillcard.png"] in
  skill_card_generator.file_name_of "Data Analysis" "Rare" ".png" ∈ new_files ∧
  ∃ found,
    interviews.find_matching_file new_files "Data Analysis" "Rare" = Some found ∧
    found ∈ new_files.
Proof.
  cbv zeta. split; [vm_compute; left|].
  destruct (generated_card_is_matched "Data Analysis" 3
              ["Data_Analysis_Rare_skillcard.png"; "sql_epic_skillcard.png"] ∅ [] [])
    as (_ & _ & found & Hfound & Hin & _); [vm_compute; left|].
  exists found. split; [exact Hfound|exact Hin].
Defined.
